(** * vypdev/copilot: use-case orchestration and label reconciliation

    A shallow embedding of the TypeScript sources:

    - [src/data/model/project_detail.ts]           (ProjectDetail, publicUrl)
    - [check_priority_pull_request_size_use_case]  (CheckPriority...UseCase.invoke)
    - [src/usecase/steps/issue/move_issue_to_in_progress.ts]
    - [initial_setup_use_case]                     (InitialSetupUseCase.invoke)
    - the label reconciliation of IssueRepository (ensureLabel, ensureLabels,
      ensureIssueTypes, setProgressLabel), whose implementation file is not
      among the sources: it is modelled from the specification and from the
      unit tests that exercise it.

    Asynchronous calls are sequential ([await] on every call), so a use case
    is a program in a state-and-exception monad over the remote world; every
    call to a collaborator is recorded, with its outcome, in an event log. *)

From Stdlib Require Import String Ascii List ZArith Lia Bool DecimalString DecimalZ.
Import ListNotations.
Open Scope string_scope.
Open Scope list_scope.

(* ================================================================== *)
(** ** JavaScript strings and numbers *)
(* ================================================================== *)

Module Js.

(** [s.startsWith(p)]. *)
Definition startsWith (s p : string) : bool := String.prefix p s.

(** [hay.includes(needle)]. *)
Fixpoint includes (hay needle : string) : bool :=
  String.prefix needle hay ||
  match hay with
  | EmptyString => false
  | String _ hay' => includes hay' needle
  end.

(** Template-literal rendering of an integral [number]. *)
Definition numberToString (n : Z) : string :=
  NilEmpty.string_of_int (Z.to_int n).

Definition isUpper (c : ascii) : bool :=
  let n := nat_of_ascii c in (65 <=? n)%nat && (n <=? 90)%nat.

Definition lowerChar (c : ascii) : ascii :=
  if isUpper c then ascii_of_nat (nat_of_ascii c + 32) else c.

(** [s.toLowerCase()] on the ASCII letters; other bytes are kept. *)
Fixpoint toLowerCase (s : string) : string :=
  match s with
  | EmptyString => EmptyString
  | String c s' => String (lowerChar c) (toLowerCase s')
  end.

(** White space stripped by [trim]: TAB, LF, VT, FF, CR and SPACE. *)
Definition isSpace (c : ascii) : bool :=
  let n := nat_of_ascii c in
  ((9 <=? n)%nat && (n <=? 13)%nat) || (n =? 32)%nat.

Fixpoint trimStart (s : string) : string :=
  match s with
  | EmptyString => EmptyString
  | String c s' => if isSpace c then trimStart s' else s
  end.

(** Drops trailing white space: a character is kept when it is not white
    space or when something survives after it. *)
Fixpoint trimEnd (s : string) : string :=
  match s with
  | EmptyString => EmptyString
  | String c s' =>
      match trimEnd s' with
      | EmptyString => if isSpace c then EmptyString else String c EmptyString
      | t => String c t
      end
  end.

Definition trim (s : string) : string := trimEnd (trimStart s).

Definition isDigit (c : ascii) : bool :=
  let n := nat_of_ascii c in (48 <=? n)%nat && (n <=? 57)%nat.

(** [/^\d*%$/.test(s)]: any number of digits, then a percent sign, then
    the end of the string. *)
Fixpoint digitsThenPercent (s : string) : bool :=
  match s with
  | EmptyString => false
  | String c s' =>
      if isDigit c then digitsThenPercent s'
      else Ascii.eqb c "%"%char && String.eqb s' EmptyString
  end.

(** [/^\d+%$/.test(s)]: at least one digit first. *)
Definition matchesPercent (s : string) : bool :=
  match s with
  | EmptyString => false
  | String c s' => isDigit c && digitsThenPercent s'
  end.

(** [/^\d*$/.test(s)]. *)
Fixpoint allDigits (s : string) : bool :=
  match s with
  | EmptyString => true
  | String c s' => isDigit c && allDigits s'
  end.

(** A value caught by [catch (error)]: an [Error] object (with the HTTP
    [status] the REST client attaches, if any), or [null] / [undefined]. *)
Inductive Thrown : Type :=
| ThrownError (status : option Z) (message : string)
| ThrownNull
| ThrownUndefined.

(** [Error.prototype.toString()]. *)
Definition errorToString (message : string) : string :=
  if String.eqb message "" then "Error" else "Error: " ++ message.

(** [error?.toString()]: [None] stands for [undefined]. *)
Definition optToString (e : Thrown) : option string :=
  match e with
  | ThrownError _ m => Some (errorToString m)
  | ThrownNull | ThrownUndefined => None
  end.

(** [a ?? b]. *)
Definition nullish {A : Type} (a : option A) (b : A) : A :=
  match a with Some x => x | None => b end.

(** [`${error}`], that is [String(error)]. *)
Definition render (e : Thrown) : string :=
  match e with
  | ThrownError _ m => errorToString m
  | ThrownNull => "null"
  | ThrownUndefined => "undefined"
  end.

Definition statusOf (e : Thrown) : option Z :=
  match e with
  | ThrownError st _ => st
  | _ => None
  end.

End Js.

(* ================================================================== *)
(** ** Data model *)
(* ================================================================== *)

(** The object handed to [new ProjectDetail(data)]: every key may be absent. *)
Record ProjectData : Type := mkProjectData {
  data_id : option string;
  data_title : option string;
  data_type : option string;
  data_owner : option string;
  data_url : option string;
  data_number : option Z
}.

Record ProjectDetail : Type := mkProjectDetail {
  id : string;
  title : string;
  type : string;
  owner : string;
  url : string;
  number : Z
}.

(** [constructor(data)] of project_detail.ts. *)
Definition newProjectDetail (data : ProjectData) : ProjectDetail :=
  {| id := Js.nullish (data_id data) "";
     title := Js.nullish (data_title data) "";
     type := Js.nullish (data_type data) "";
     owner := Js.nullish (data_owner data) "";
     url := Js.nullish (data_url data) "";
     number := Js.nullish (data_number data) (-1)%Z |}.

(** [get publicUrl()] of project_detail.ts.  The field is a string, so of
    [this.url && typeof this.url === 'string' && this.url.startsWith(..)]
    the truthiness test (non-empty) and the prefix test remain. *)
Definition publicUrl (p : ProjectDetail) : string :=
  if negb (String.eqb (url p) "") && Js.startsWith (url p) "https://"
  then url p
  else
    let path := if String.eqb (type p) "organization" then "orgs" else "users" in
    "https://github.com/" ++ path ++ "/" ++ owner p ++ "/projects/"
      ++ Js.numberToString (number p).

(** Modelled from the spec: the [Result] class (data/model/result.ts) is not
    among the sources.  A [Result] holds what its constructor is given:
    {id, success, executed, steps, errors}; [None] in [steps] or [errors]
    means the key was absent or [undefined] in the constructor's argument. *)
Record Result : Type := mkResult {
  result_id : string;
  success : bool;
  executed : bool;
  steps : option (list string);
  errors : option (list string)
}.

(** The errors a [Result] carries, an omitted field carrying none. *)
Definition errorsOf (r : Result) : list string := Js.nullish (errors r) [].

(** The part of [param.labels] the priority use cases read. *)
Record Labels : Type := mkLabels {
  priorityLabelOnIssue : string;
  priorityLabelOnIssueProcessable : bool;
  priorityHigh : string;
  priorityMedium : string;
  priorityLow : string
}.

(** The part of [Execution] the use cases read.  [projects] is the value of
    [param.project.getProjects()], [columnInProgress] that of
    [param.project.getProjectColumnIssueInProgress()]. *)
Record Execution : Type := mkExecution {
  exec_owner : string;
  exec_repo : string;
  issueNumber : Z;
  pullRequestNumber : Z;
  token : string;
  labels : Labels;
  projects : list ProjectDetail;
  columnInProgress : string
}.

(* ================================================================== *)
(** ** Collaborators, events and the effect monad *)
(* ================================================================== *)

(** A call either returns a value or throws. *)
Inductive outcome (A : Type) : Type :=
| Ok (a : A)
| Throw (e : Js.Thrown).
Arguments Ok {A} a.
Arguments Throw {A} e.

(** [{ copied, skipped }] of [copySetupFiles]. *)
Record CopyResult : Type := mkCopyResult { copied : Z; skipped : Z }.

(** [{ created, existing, errors }] of the batch ensure operations. *)
Record BatchResult : Type := mkBatchResult {
  batch_created : Z;
  batch_existing : Z;
  batch_errors : list string
}.

(** [{ created, existed }] of a single ensure operation. *)
Record EnsureResult : Type := mkEnsureResult { created : bool; existed : bool }.

(** An entry of the live label list ([listLabelsForRepo]). *)
Record LabelInfo : Type := mkLabelInfo {
  label_name : string;
  label_color : string;
  label_description : option string
}.

(** An entry of the organisation's issue types ([listIssueTypes]). *)
Record IssueTypeInfo : Type := mkIssueTypeInfo {
  issue_type_id : string;
  issue_type_name : string
}.

(** One call to a collaborator, with its arguments and how it ended. *)
Inductive Event : Type :=
| EvSetTaskPriority (project : ProjectDetail) (owner repo : string)
    (number : Z) (priorityLabel token : string) (out : outcome bool)
| EvMoveIssueToColumn (project : ProjectDetail) (owner repo : string)
    (number : Z) (columnName token : string) (out : outcome bool)
| EvGetUserFromToken (token : string) (out : outcome string)
| EvEnsureGitHubDirs (out : outcome unit)
| EvCopySetupFiles (out : outcome CopyResult)
| EvHasValidSetupToken (out : outcome bool)
| EvEnsureLabels (owner repo token : string) (out : outcome BatchResult)
| EvEnsureProgressLabels (owner repo token : string) (out : outcome BatchResult)
| EvEnsureIssueTypes (owner token : string) (out : outcome BatchResult)
| EvListLabelsForRepo (owner repo token : string) (out : outcome (list LabelInfo))
| EvCreateLabel (owner repo name color description token : string)
    (out : outcome unit)
| EvListLabelsOnIssue (owner repo : string) (number : Z) (token : string)
    (out : outcome (list string))
| EvSetLabels (owner repo : string) (number : Z) (labels : list string)
    (token : string) (out : outcome unit)
| EvListIssueTypes (owner token : string) (out : outcome (list IssueTypeInfo))
| EvCreateIssueType (owner name description color token : string)
    (out : outcome string).

(** The collaborators, as the tests mock them: each method reads and
    updates the remote world [W] and returns or throws. *)
Class ProjectRepository (W : Type) : Type := {
  setTaskPriority :
    ProjectDetail -> string -> string -> Z -> string -> string ->
    W -> outcome bool * W;
  moveIssueToColumn :
    ProjectDetail -> string -> string -> Z -> string -> string ->
    W -> outcome bool * W;
  getUserFromToken : string -> W -> outcome string * W
}.

(** utils/setup_files.ts, called on [process.cwd()]: file-system effects. *)
Class SetupFiles (W : Type) : Type := {
  ensureGitHubDirs : W -> outcome unit * W;
  copySetupFiles : W -> outcome CopyResult * W;
  hasValidSetupToken : W -> outcome bool * W
}.

(** The batch operations of IssueRepository as InitialSetupUseCase calls
    them. *)
Class IssueRepository (W : Type) : Type := {
  repoEnsureLabels : string -> string -> string -> W -> outcome BatchResult * W;
  repoEnsureProgressLabels :
    string -> string -> string -> W -> outcome BatchResult * W;
  repoEnsureIssueTypes : string -> string -> W -> outcome BatchResult * W
}.

(** The REST / GraphQL endpoints under IssueRepository. *)
Class Octokit (W : Type) : Type := {
  listLabelsForRepo : string -> string -> string -> W -> outcome (list LabelInfo) * W;
  createLabel :
    string -> string -> string -> string -> string -> string ->
    W -> outcome unit * W;
  listLabelsOnIssue : string -> string -> Z -> string -> W -> outcome (list string) * W;
  setLabels : string -> string -> Z -> list string -> string -> W -> outcome unit * W;
  listIssueTypes : string -> string -> W -> outcome (list IssueTypeInfo) * W;
  createIssueType :
    string -> string -> string -> string -> string -> W -> outcome string * W
}.

Module Eff.
Section Monad.

Context {W : Type}.

(** The state a running use case sees: the remote world, the log of the
    calls made so far (oldest first) and its own mutable locals [L]. *)
Record St (L : Type) : Type := mkSt {
  remote : W;
  events : list Event;
  locals : L
}.
Arguments mkSt {L}.
Arguments remote {L}.
Arguments events {L}.
Arguments locals {L}.

Definition M (L A : Type) : Type := St L -> outcome A * St L.

Definition ret {L A} (a : A) : M L A := fun st => (Ok a, st).

Definition bind {L A B} (m : M L A) (k : A -> M L B) : M L B :=
  fun st =>
    match m st with
    | (Ok a, st') => k a st'
    | (Throw e, st') => (Throw e, st')
    end.

Definition throw {L A} (e : Js.Thrown) : M L A := fun st => (Throw e, st).

(** [try { m } catch (error) { h error }]: what [m] did to the world, the
    log and the locals before it threw stays done. *)
Definition tryCatch {L A} (m : M L A) (h : Js.Thrown -> M L A) : M L A :=
  fun st =>
    match m st with
    | (Ok a, st') => (Ok a, st')
    | (Throw e, st') => h e st'
    end.

Definition getLocals {L} : M L L := fun st => (Ok (locals st), st).

Definition modify {L} (f : L -> L) : M L unit :=
  fun st => (Ok tt, mkSt (remote st) (events st) (f (locals st))).

(** A call to a collaborator: run it on the world, log it. *)
Definition perform {L A} (h : W -> outcome A * W) (log : outcome A -> Event)
  : M L A :=
  fun st =>
    let (o, w') := h (remote st) in
    (o, mkSt w' (events st ++ [log o]) (locals st)).

(** Runs a program from a fresh log with the given locals. *)
Definition run {L A} (m : M L A) (l : L) (w : W) : outcome A * St L :=
  m (mkSt w [] l).

End Monad.

Arguments St : clear implicits.
Arguments M : clear implicits.
Arguments mkSt {W L}.
Arguments remote {W L}.
Arguments events {W L}.
Arguments locals {W L}.

End Eff.

Notation "x <- m ;; k" := (Eff.bind m (fun x => k))
  (at level 61, m at next level, right associativity).
Notation "m ;;; k" := (Eff.bind m (fun _ => k))
  (at level 61, right associativity).

(* ================================================================== *)
(** ** CheckPriorityPullRequestSizeUseCase / CheckPriorityIssueSizeUseCase *)
(* ================================================================== *)

Module CheckPriority.
Section UseCase.

Context {W : Type} {PR : ProjectRepository W}.

(** The two priority use cases differ in their [taskId] and in the number
    they hand to the board API ([param.pullRequest.number] or
    [param.issueNumber]). *)
Variable taskId : string.
Variable numberOf : Execution -> Z.

Definition skipped : Result :=
  {| result_id := taskId; success := true; executed := false;
     steps := None; errors := None |}.

Definition prioritySet (priorityLabel : string) (project : ProjectDetail)
  : Result :=
  {| result_id := taskId; success := true; executed := true;
     steps := Some [("Priority set to `" ++ priorityLabel ++ "` in ["
                      ++ title project ++ "](" ++ publicUrl project ++ ").")%string];
     errors := None |}.

Definition failed (error : Js.Thrown) : Result :=
  {| result_id := taskId; success := false; executed := true;
     steps := Some ["Tried to check the priority of the issue, but there was a problem."];
     errors := Some [Js.nullish (Js.optToString error) "Unknown error"] |}.

(** The [if / else if / else] chain on [priority]; [None] is the final
    [else] branch. *)
Definition priorityToken (l : Labels) : option string :=
  let priority := priorityLabelOnIssue l in
  if String.eqb priority (priorityHigh l) then Some "P0"
  else if String.eqb priority (priorityMedium l) then Some "P1"
  else if String.eqb priority (priorityLow l) then Some "P2"
  else None.

Definition push (r : Result) : Eff.M W (list Result) unit :=
  Eff.modify (fun result => result ++ [r]).

Definition callSetTaskPriority (project : ProjectDetail) (param : Execution)
    (priorityLabel : string) : Eff.M W (list Result) bool :=
  Eff.perform
    (setTaskPriority project (exec_owner param) (exec_repo param)
       (numberOf param) priorityLabel (token param))
    (EvSetTaskPriority project (exec_owner param) (exec_repo param)
       (numberOf param) priorityLabel (token param)).

(** [for (const project of param.project.getProjects()) { ... }]. *)
Fixpoint forProjects (param : Execution) (priorityLabel : string)
    (ps : list ProjectDetail) : Eff.M W (list Result) unit :=
  match ps with
  | [] => Eff.ret tt
  | project :: rest =>
      ok <- callSetTaskPriority project param priorityLabel ;;
      (if ok then push (prioritySet priorityLabel project) else Eff.ret tt) ;;;
      forProjects param priorityLabel rest
  end.

(** The [try] block; each [return result] ends it. *)
Definition tryBlock (param : Execution) : Eff.M W (list Result) unit :=
  if negb (priorityLabelOnIssueProcessable (labels param))
     || (length (projects param) =? 0)%nat
  then push skipped
  else
    match priorityToken (labels param) with
    | None => push skipped
    | Some priorityLabel => forProjects param priorityLabel (projects param)
    end.

Definition program (param : Execution) : Eff.M W (list Result) (list Result) :=
  Eff.tryCatch (tryBlock param) (fun error => push (failed error)) ;;;
  Eff.getLocals.

(** [invoke(param)] on the world [w]: what the promise settles to, the
    calls made, and the world left behind. *)
Definition invoke (param : Execution) (w : W)
  : outcome (list Result) * (list Event * W) :=
  let (o, st) := Eff.run (program param) [] w in
  (o, (Eff.events st, Eff.remote st)).

End UseCase.
End CheckPriority.

(** check_priority_pull_request_size_use_case.ts. *)
Definition CheckPriorityPullRequestSizeUseCase_invoke
    {W : Type} {PR : ProjectRepository W} :=
  CheckPriority.invoke "CheckPriorityPullRequestSizeUseCase" pullRequestNumber.

(** Modelled from the spec: check_priority_issue_size_use_case.ts is not among
    the sources (its test is).  The spec describes the two priority use
    cases by one procedure; this one runs it under its own task id on
    [param.issueNumber]. *)
Definition CheckPriorityIssueSizeUseCase_invoke
    {W : Type} {PR : ProjectRepository W} :=
  CheckPriority.invoke "CheckPriorityIssueSizeUseCase" issueNumber.

(* ================================================================== *)
(** ** MoveIssueToInProgressUseCase *)
(* ================================================================== *)

Module MoveIssueToInProgress.
Section UseCase.

Context {W : Type} {PR : ProjectRepository W}.

Definition taskId : string := "MoveIssueToInProgressUseCase".

Definition moved (columnName : string) (project : ProjectDetail) : Result :=
  {| result_id := taskId; success := true; executed := true;
     steps := Some [("Moved issue to `" ++ columnName ++ "` in ["
                      ++ title project ++ "](" ++ publicUrl project ++ ").")%string];
     errors := None |}.

Definition failed (columnName : string) (error : Js.Thrown) : Result :=
  {| result_id := taskId; success := false; executed := true;
     steps := Some [("Tried to move the issue to `" ++ columnName
                      ++ "`, but there was a problem.")%string];
     errors := Some [Js.nullish (Js.optToString error) "Unknown error"] |}.

Definition push (r : Result) : Eff.M W (list Result) unit :=
  Eff.modify (fun result => result ++ [r]).

Definition callMoveIssueToColumn (project : ProjectDetail) (param : Execution)
    (columnName : string) : Eff.M W (list Result) bool :=
  Eff.perform
    (moveIssueToColumn project (exec_owner param) (exec_repo param)
       (issueNumber param) columnName (token param))
    (EvMoveIssueToColumn project (exec_owner param) (exec_repo param)
       (issueNumber param) columnName (token param)).

Fixpoint forProjects (param : Execution) (columnName : string)
    (ps : list ProjectDetail) : Eff.M W (list Result) unit :=
  match ps with
  | [] => Eff.ret tt
  | project :: rest =>
      ok <- callMoveIssueToColumn project param columnName ;;
      (if ok then push (moved columnName project) else Eff.ret tt) ;;;
      forProjects param columnName rest
  end.

Definition program (param : Execution) : Eff.M W (list Result) (list Result) :=
  let columnName := columnInProgress param in
  Eff.tryCatch
    (forProjects param columnName (projects param))
    (fun error => push (failed columnName error)) ;;;
  Eff.getLocals.

Definition invoke (param : Execution) (w : W)
  : outcome (list Result) * (list Event * W) :=
  let (o, st) := Eff.run (program param) [] w in
  (o, (Eff.events st, Eff.remote st)).

End UseCase.
End MoveIssueToInProgress.

(* ================================================================== *)
(** ** The token gate of utils/setup_files.ts *)
(* ================================================================== *)

Module SetupToken.

Definition ENV_PLACEHOLDER_VALUE : string := "github_pat_11..".

(** Minimum length for a token to count as defined. *)
Definition MIN_VALID_TOKEN_LENGTH : nat := 20.

Definition isTokenValueValid (token : string) : bool :=
  let t := Js.trim token in
  (MIN_VALID_TOKEN_LENGTH <=? String.length t)%nat
  && negb (String.eqb t ENV_PLACEHOLDER_VALUE)
  && negb (Js.startsWith t "github_pat_11..").

(** [getSetupToken(cwd)], given [process.env.PERSONAL_ACCESS_TOKEN] and what
    [getTokenFromEnvFile] reads from the .env file of [cwd] ([None] for
    [undefined] and [null]). *)
Definition getSetupToken (env fromFile : option string) : option string :=
  let fileToken :=
    match fromFile with
    | Some t => if isTokenValueValid t then Some t else None
    | None => None
    end in
  match option_map Js.trim env with
  | Some fromEnv =>
      if negb (String.eqb fromEnv "") && isTokenValueValid fromEnv
      then Some fromEnv
      else fileToken
  | None => fileToken
  end.

Definition hasValidSetupToken (env fromFile : option string) : bool :=
  match getSetupToken env fromFile with
  | Some _ => true
  | None => false
  end.

End SetupToken.

(* ================================================================== *)
(** ** InitialSetupUseCase *)
(* ================================================================== *)

Module InitialSetup.
Section UseCase.

Context {W : Type} {PR : ProjectRepository W} {SF : SetupFiles W}
        {IR : IssueRepository W}.

Definition taskId : string := "InitialSetupUseCase".

(** The three arrays [invoke] declares and mutates. *)
Record Locals : Type := mkLocals {
  results : list Result;
  stepsAcc : list string;
  errorsAcc : list string
}.

Definition Prog (A : Type) : Type := Eff.M W Locals A.

Definition pushStep (s : string) : Prog unit :=
  Eff.modify (fun l => mkLocals (results l) (stepsAcc l ++ [s]) (errorsAcc l)).

(** [errors.push(...es)]. *)
Definition pushErrors (es : list string) : Prog unit :=
  Eff.modify (fun l => mkLocals (results l) (stepsAcc l) (errorsAcc l ++ es)).

(** [results.push(new Result({id, success: false, executed: true,
    steps: steps, errors: errors}))]. *)
Definition pushFailure : Prog unit :=
  Eff.modify (fun l =>
    mkLocals
      (results l ++
         [{| result_id := taskId; success := false; executed := true;
             steps := Some (stepsAcc l); errors := Some (errorsAcc l) |}])
      (stepsAcc l) (errorsAcc l)).

(** The [Result] pushed when every stage has run:
    [success: errors.length === 0] and
    [errors: errors.length > 0 ? errors : undefined]. *)
Definition pushFinal : Prog unit :=
  Eff.modify (fun l =>
    mkLocals
      (results l ++
         [{| result_id := taskId;
             success := (length (errorsAcc l) =? 0)%nat;
             executed := true;
             steps := Some (stepsAcc l);
             errors := if (0 <? length (errorsAcc l))%nat
                       then Some (errorsAcc l) else None |}])
      (stepsAcc l) (errorsAcc l)).

(** What the private helpers return. *)
Record AccessResult : Type := mkAccessResult {
  access_success : bool;
  access_user : option string;
  access_errors : list string
}.

Record StageResult : Type := mkStageResult {
  stage_success : bool;
  stage_created : Z;
  stage_existing : Z;
  stage_errors : list string
}.

Definition verifyGitHubAccess (param : Execution) : Prog AccessResult :=
  Eff.tryCatch
    (user <- Eff.perform (getUserFromToken (token param))
               (EvGetUserFromToken (token param)) ;;
     Eff.ret (mkAccessResult true (Some user) []))
    (fun error =>
       Eff.ret (mkAccessResult false None
                  [("No se pudo verificar el acceso a GitHub: "
                      ++ Js.render error)%string])).

Definition ensureLabels (param : Execution) : Prog StageResult :=
  Eff.tryCatch
    (result <- Eff.perform
                 (repoEnsureLabels (exec_owner param) (exec_repo param)
                    (token param))
                 (EvEnsureLabels (exec_owner param) (exec_repo param)
                    (token param)) ;;
     Eff.ret (mkStageResult
                ((length (batch_errors result) =? 0)%nat)
                (batch_created result) (batch_existing result)
                (batch_errors result)))
    (fun error =>
       Eff.ret (mkStageResult false 0 0
                  [("Error asegurando labels: " ++ Js.render error)%string])).

(** [ensureProgressLabels] returns no [success] flag of its own; the
    caller tests [errors.length > 0]. *)
Definition ensureProgressLabels (param : Execution) : Prog BatchResult :=
  Eff.tryCatch
    (Eff.perform
       (repoEnsureProgressLabels (exec_owner param) (exec_repo param)
          (token param))
       (EvEnsureProgressLabels (exec_owner param) (exec_repo param)
          (token param)))
    (fun error =>
       Eff.ret (mkBatchResult 0 0
                  [("Error asegurando progress labels: "
                      ++ Js.render error)%string])).

Definition ensureIssueTypes (param : Execution) : Prog StageResult :=
  Eff.tryCatch
    (result <- Eff.perform
                 (repoEnsureIssueTypes (exec_owner param) (token param))
                 (EvEnsureIssueTypes (exec_owner param) (token param)) ;;
     Eff.ret (mkStageResult
                ((length (batch_errors result) =? 0)%nat)
                (batch_created result) (batch_existing result)
                (batch_errors result)))
    (fun error =>
       Eff.ret (mkStageResult false 0 0
                  [("Error asegurando tipos de Issue: "
                      ++ Js.render error)%string])).

Definition countsStep (what : string) (c e : Z) : string :=
  (what ++ Js.numberToString c ++ " created, " ++ Js.numberToString e
     ++ " already existed")%string.

(** Stages 2, 2b and 3, reached once GitHub access is verified. *)
Definition reconcile (param : Execution) : Prog unit :=
  labelsResult <- ensureLabels param ;;
  (if negb (stage_success labelsResult)
   then pushErrors (stage_errors labelsResult)
   else pushStep (countsStep "✅ Labels checked: "
                    (stage_created labelsResult)
                    (stage_existing labelsResult))) ;;;
  progressLabelsResult <- ensureProgressLabels param ;;
  (if (0 <? length (batch_errors progressLabelsResult))%nat
   then pushErrors (batch_errors progressLabelsResult)
   else pushStep (countsStep "✅ Progress labels checked: "
                    (batch_created progressLabelsResult)
                    (batch_existing progressLabelsResult))) ;;;
  issueTypesResult <- ensureIssueTypes param ;;
  (if negb (stage_success issueTypesResult)
   then pushErrors (stage_errors issueTypesResult)
   else pushStep (countsStep "✅ Issue types checked: "
                    (stage_created issueTypesResult)
                    (stage_existing issueTypesResult))) ;;;
  pushFinal.

(** The [try] block; the two early [return results] end it. *)
Definition tryBlock (param : Execution) : Prog unit :=
  Eff.perform ensureGitHubDirs EvEnsureGitHubDirs ;;;
  filesResult <- Eff.perform copySetupFiles EvCopySetupFiles ;;
  pushStep ("✅ Setup files: " ++ Js.numberToString (copied filesResult)
              ++ " copied, " ++ Js.numberToString (skipped filesResult)
              ++ " already existed") ;;;
  valid <- Eff.perform hasValidSetupToken EvHasValidSetupToken ;;
  if negb valid then
    pushErrors ["PERSONAL_ACCESS_TOKEN must be set (environment or .env) with a valid token to run setup."] ;;;
    pushFailure
  else
    githubAccessResult <- verifyGitHubAccess param ;;
    if negb (access_success githubAccessResult) then
      pushErrors (access_errors githubAccessResult) ;;;
      pushFailure
    else
      pushStep ("✅ GitHub access verified: "
                  ++ Js.nullish (access_user githubAccessResult) "undefined") ;;;
      reconcile param.

Definition program (param : Execution) : Prog (list Result) :=
  Eff.tryCatch
    (tryBlock param)
    (fun error =>
       pushErrors [("Error ejecutando setup inicial: "
                      ++ Js.render error)%string] ;;;
       pushFailure) ;;;
  l <- Eff.getLocals ;;
  Eff.ret (results l).

Definition invoke (param : Execution) (w : W)
  : outcome (list Result) * (list Event * W) :=
  let (o, st) := Eff.run (program param) (mkLocals [] [] []) w in
  (o, (Eff.events st, Eff.remote st)).

(** The [errors] array of that run as it stands when [invoke] returns. *)
Definition errorsAtReturn (param : Execution) (w : W) : list string :=
  errorsAcc (Eff.locals (snd (Eff.run (program param) (mkLocals [] [] []) w))).

End UseCase.
End InitialSetup.

(* ================================================================== *)
(** ** IssueRepository: label and issue-type reconciliation *)
(* ================================================================== *)

(** A desired label: name, colour, description. *)
Record LabelSpec : Type := mkLabelSpec {
  want_name : string;
  want_color : string;
  want_description : string
}.

(** A desired organisation issue type: name, description, colour. *)
Record IssueTypeSpec : Type := mkIssueTypeSpec {
  type_name : string;
  type_description : string;
  type_color : string
}.

Module IssueRepo.
Section Repository.

Context {W : Type} {OK : Octokit W}.

(** Case-insensitive name match. *)
Definition sameName (a b : string) : bool :=
  String.eqb (Js.toLowerCase a) (Js.toLowerCase b).

(** The create-time "already exists" answer: HTTP 422. *)
Definition alreadyExists (error : Js.Thrown) : bool :=
  match Js.statusOf error with
  | Some st => (st =? 422)%Z
  | None => false
  end.

Definition noop : EnsureResult := mkEnsureResult false false.
Definition wasThere : EnsureResult := mkEnsureResult false true.
Definition wasCreated : EnsureResult := mkEnsureResult true false.

(** Modelled from the spec: issue_repository.ts is not among the sources.
    Spec 4.1: an empty or whitespace-only name is a no-op; otherwise the
    live list is checked for a case-insensitive name match (found:
    existed); if there is none, creation is attempted (created), and a
    create-time HTTP 422 counts as existed.  Any other error of a call is
    left to the caller (the batch variants collect it). *)
Definition ensureLabel {L : Type}
    (owner repo name color description token : string)
  : Eff.M W L EnsureResult :=
  if String.eqb (Js.trim name) "" then Eff.ret noop
  else
    existing <- Eff.perform (listLabelsForRepo owner repo token)
                  (EvListLabelsForRepo owner repo token) ;;
    if existsb (fun l => sameName (label_name l) name) existing
    then Eff.ret wasThere
    else
      Eff.tryCatch
        (Eff.perform (createLabel owner repo name color description token)
           (EvCreateLabel owner repo name color description token) ;;;
         Eff.ret wasCreated)
        (fun error =>
           if alreadyExists error then Eff.ret wasThere
           else Eff.throw error).

(** Modelled from the spec: issue_repository.ts is not among the sources.
    Spec 4.1 gives [ensureIssueType] the contract of [ensureLabel], on the
    organisation's issue types. *)
Definition ensureIssueType {L : Type}
    (owner name description color token : string)
  : Eff.M W L EnsureResult :=
  if String.eqb (Js.trim name) "" then Eff.ret noop
  else
    existing <- Eff.perform (listIssueTypes owner token)
                  (EvListIssueTypes owner token) ;;
    if existsb (fun t => sameName (issue_type_name t) name) existing
    then Eff.ret wasThere
    else
      Eff.tryCatch
        (Eff.perform (createIssueType owner name description color token)
           (EvCreateIssueType owner name description color token) ;;;
         Eff.ret wasCreated)
        (fun error =>
           if alreadyExists error then Eff.ret wasThere
           else Eff.throw error).

(** The accumulators of a batch: [created], [existing], [errors]. *)
Definition tally (r : EnsureResult) (acc : BatchResult) : BatchResult :=
  if created r
  then mkBatchResult (batch_created acc + 1) (batch_existing acc) (batch_errors acc)
  else if existed r
  then mkBatchResult (batch_created acc) (batch_existing acc + 1) (batch_errors acc)
  else acc.

Definition collect (error : Js.Thrown) (acc : BatchResult) : BatchResult :=
  mkBatchResult (batch_created acc) (batch_existing acc)
    (batch_errors acc ++ [Js.render error]).

(** Modelled from the spec: issue_repository.ts is not among the sources.
    Spec 4.1 and 7: the batch variants run each ensure in turn, count
    [created] and [existing], and turn an error of one entry into a string
    appended to [errors], then go on with the next entry.  The accumulators
    [acc] are the batch's local variables; no error leaves the [try] of an
    entry, so they are passed along. *)
Fixpoint ensureEach {E : Type} (ensure : E -> Eff.M W unit EnsureResult)
    (entries : list E) (acc : BatchResult) : Eff.M W unit BatchResult :=
  match entries with
  | [] => Eff.ret acc
  | entry :: rest =>
      acc' <- Eff.tryCatch
                (r <- ensure entry ;; Eff.ret (tally r acc))
                (fun error => Eff.ret (collect error acc)) ;;
      ensureEach ensure rest acc'
  end.

Definition ensureBatch {E : Type}
    (ensure : E -> Eff.M W unit EnsureResult) (entries : list E) (w : W)
  : outcome BatchResult * (list Event * W) :=
  let (o, st) :=
    Eff.run (ensureEach ensure entries (mkBatchResult 0 0 [])) tt w in
  (o, (Eff.events st, Eff.remote st)).

(** How the ensure of each entry ends when the entries are taken in turn,
    each on the world the one before left, and the state after the last. *)
Fixpoint runEach {E : Type} (ensure : E -> Eff.M W unit EnsureResult)
    (entries : list E) (st : Eff.St W unit)
  : list (outcome EnsureResult) * Eff.St W unit :=
  match entries with
  | [] => ([], st)
  | entry :: rest =>
      let (o, st1) := ensure entry st in
      let (os, st2) := runEach ensure rest st1 in
      (o :: os, st2)
  end.

(** Modelled from the spec: [ensureLabels] over the required labels. *)
Definition ensureLabels (owner repo : string) (required : list LabelSpec)
    (token : string) : W -> outcome BatchResult * (list Event * W) :=
  ensureBatch
    (fun l => ensureLabel owner repo (want_name l) (want_color l)
                (want_description l) token)
    required.

(** Modelled from the spec: [ensureIssueTypes] over the configured types. *)
Definition ensureIssueTypes (owner : string) (required : list IssueTypeSpec)
    (token : string) : W -> outcome BatchResult * (list Event * W) :=
  ensureBatch
    (fun t => ensureIssueType owner (type_name t) (type_description t)
                (type_color t) token)
    required.

(** Modelled from the spec: issue_repository.ts is not among the sources.
    Spec 4.2: fetch the current labels of the issue, drop those matching
    [^\d+%$], append the new percentage label, overwrite the label set in
    one call. *)
Definition setProgressLabel (owner repo : string) (issue progress : Z)
    (token : string) : Eff.M W unit unit :=
  current <- Eff.perform (listLabelsOnIssue owner repo issue token)
               (EvListLabelsOnIssue owner repo issue token) ;;
  let kept := filter (fun l => negb (Js.matchesPercent l)) current in
  let next := kept ++ [(Js.numberToString progress ++ "%")%string] in
  Eff.perform (setLabels owner repo issue next token)
    (EvSetLabels owner repo issue next token).

End Repository.

(** Reading a list of ensure outcomes: the entries created, the entries
    found in place, the entries that failed. *)
Definition isCreated (o : outcome EnsureResult) : bool :=
  match o with Ok r => created r | Throw _ => false end.

Definition isExisting (o : outcome EnsureResult) : bool :=
  match o with Ok r => negb (created r) && existed r | Throw _ => false end.

Definition isFailure (o : outcome EnsureResult) : bool :=
  match o with Ok _ => false | Throw _ => true end.

Definition failureMessages (os : list (outcome EnsureResult)) : list string :=
  flat_map (fun o => match o with Ok _ => [] | Throw e => [Js.render e] end) os.

Definition countOf (f : outcome EnsureResult -> bool)
    (os : list (outcome EnsureResult)) : Z :=
  Z.of_nat (length (filter f os)).

(** The batch result that a list of ensure outcomes amounts to. *)
Definition summary (os : list (outcome EnsureResult)) : BatchResult :=
  {| batch_created := countOf isCreated os;
     batch_existing := countOf isExisting os;
     batch_errors := failureMessages os |}.

(** Reading the calls of a batch.  A creation that returned. *)
Definition isCreation (ev : Event) : bool :=
  match ev with
  | EvCreateLabel _ _ _ _ _ _ (Ok _) | EvCreateIssueType _ _ _ _ _ (Ok _) => true
  | _ => false
  end.

(** A creation that threw, whatever the error. *)
Definition isCreationThrow (ev : Event) : bool :=
  match ev with
  | EvCreateLabel _ _ _ _ _ _ (Throw _)
  | EvCreateIssueType _ _ _ _ _ (Throw _) => true
  | _ => false
  end.

(** The listing that the ensure of an entry with a name starts with. *)
Definition isListing (ev : Event) : bool :=
  match ev with
  | EvListLabelsForRepo _ _ _ _ | EvListIssueTypes _ _ _ => true
  | _ => false
  end.

(** The message a call leaves in [errors]: the error of a listing that
    threw, and the error of a creation that threw unless it is the HTTP 422
    answer. *)
Definition reported (ev : Event) : list string :=
  match ev with
  | EvListLabelsForRepo _ _ _ (Throw e) | EvListIssueTypes _ _ (Throw e) =>
      [Js.render e]
  | EvCreateLabel _ _ _ _ _ _ (Throw e)
  | EvCreateIssueType _ _ _ _ _ (Throw e) =>
      if alreadyExists e then [] else [Js.render e]
  | _ => []
  end.

(** An entry with a name: the others are passed over without a call. *)
Definition named (name : string) : bool :=
  negb (String.eqb (Js.trim name) "").

End IssueRepo.

(* ================================================================== *)
(** ** Reading the event log *)
(* ================================================================== *)

Module Log.

Definition errorOf {A : Type} (o : outcome A) : option Js.Thrown :=
  match o with Ok _ => None | Throw e => Some e end.

(** The error a logged call ended with, if it threw. *)
Definition threw (ev : Event) : option Js.Thrown :=
  match ev with
  | EvSetTaskPriority _ _ _ _ _ _ o => errorOf o
  | EvMoveIssueToColumn _ _ _ _ _ _ o => errorOf o
  | EvGetUserFromToken _ o => errorOf o
  | EvEnsureGitHubDirs o => errorOf o
  | EvCopySetupFiles o => errorOf o
  | EvHasValidSetupToken o => errorOf o
  | EvEnsureLabels _ _ _ o => errorOf o
  | EvEnsureProgressLabels _ _ _ o => errorOf o
  | EvEnsureIssueTypes _ _ o => errorOf o
  | EvListLabelsForRepo _ _ _ o => errorOf o
  | EvCreateLabel _ _ _ _ _ _ o => errorOf o
  | EvListLabelsOnIssue _ _ _ _ o => errorOf o
  | EvSetLabels _ _ _ _ _ o => errorOf o
  | EvListIssueTypes _ _ o => errorOf o
  | EvCreateIssueType _ _ _ _ _ o => errorOf o
  end.

(** The errors thrown by the logged calls, in order. *)
Definition thrown (evs : list Event) : list Js.Thrown :=
  flat_map (fun ev => match threw ev with Some e => [e] | None => [] end) evs.

Definition isSetTaskPriority (ev : Event) : bool :=
  match ev with EvSetTaskPriority _ _ _ _ _ _ _ => true | _ => false end.

Definition isMoveIssueToColumn (ev : Event) : bool :=
  match ev with EvMoveIssueToColumn _ _ _ _ _ _ _ => true | _ => false end.

Definition isSetLabels (ev : Event) : bool :=
  match ev with EvSetLabels _ _ _ _ _ _ => true | _ => false end.

(** The stages of the initial setup that follow the access check. *)
Definition isReconcileStage (ev : Event) : bool :=
  match ev with
  | EvEnsureLabels _ _ _ _ | EvEnsureProgressLabels _ _ _ _
  | EvEnsureIssueTypes _ _ _ => true
  | _ => false
  end.

(** The calls [InitialSetupUseCase] makes past its token gate. *)
Definition isPastTokenGate (ev : Event) : bool :=
  match ev with
  | EvGetUserFromToken _ _ => true
  | _ => isReconcileStage ev
  end.

(** The errors a reconciliation stage of the initial setup contributes:
    those its batch reports or, when the call throws, one message made of
    the stage's prefix [what] and the error. *)
Definition stageErrors (what : string) (o : outcome BatchResult) : list string :=
  match o with
  | Ok r => batch_errors r
  | Throw e => [(what ++ Js.render e)%string]
  end.

(** The errors a call of the initial setup adds to the [errors] array of
    [InitialSetupUseCase.invoke]: the message of the top-level [catch] for
    a throwing file step or token gate, the token message for a gate that
    answers [false], the message of [verifyGitHubAccess] for a throwing
    access check, and what each reconciliation stage contributes. *)
Definition setupError (ev : Event) : list string :=
  match ev with
  | EvEnsureGitHubDirs (Throw e) | EvCopySetupFiles (Throw e)
  | EvHasValidSetupToken (Throw e) =>
      [("Error ejecutando setup inicial: " ++ Js.render e)%string]
  | EvHasValidSetupToken (Ok false) =>
      ["PERSONAL_ACCESS_TOKEN must be set (environment or .env) with a valid token to run setup."]
  | EvGetUserFromToken _ (Throw e) =>
      [("No se pudo verificar el acceso a GitHub: " ++ Js.render e)%string]
  | EvEnsureLabels _ _ _ o => stageErrors "Error asegurando labels: " o
  | EvEnsureProgressLabels _ _ _ o =>
      stageErrors "Error asegurando progress labels: " o
  | EvEnsureIssueTypes _ _ o => stageErrors "Error asegurando tipos de Issue: " o
  | _ => []
  end.

Definition setupErrors (evs : list Event) : list string :=
  flat_map setupError evs.

(** The boards a board call was made for, in call order. *)
Definition board (ev : Event) : list ProjectDetail :=
  match ev with
  | EvSetTaskPriority p _ _ _ _ _ _ | EvMoveIssueToColumn p _ _ _ _ _ _ => [p]
  | _ => []
  end.

(** The boards for which a board call returned [true] / [false]. *)
Definition boardsAnswering (b : bool) (evs : list Event) : list ProjectDetail :=
  flat_map (fun ev =>
    match ev with
    | EvSetTaskPriority p _ _ _ _ _ (Ok b')
    | EvMoveIssueToColumn p _ _ _ _ _ (Ok b') =>
        if Bool.eqb b b' then [p] else []
    | _ => []
    end) evs.

(** What a run returned (how the promise settled) and the calls it made. *)
Definition returned {A W : Type} (r : outcome A * (list Event * W)) : outcome A :=
  fst r.

Definition calls {A W : Type} (r : outcome A * (list Event * W)) : list Event :=
  fst (snd r).

End Log.

(* ================================================================== *)
(** ** Scripted collaborators *)
(* ================================================================== *)

(** Collaborators in the manner of the unit tests' mocks.  The world is the
    number of calls made so far, over all endpoints; a call made when [n]
    calls came before it answers what the endpoint's script says for [n]. *)
Module Mock.

Definition World : Type := nat.

Definition answer {A : Type} (script : nat -> outcome A)
  : World -> outcome A * World :=
  fun n => (script n, S n).

Definition always {A : Type} (o : outcome A) : nat -> outcome A := fun _ => o.

(** Answers the listed outcomes in turn, then [last]. *)
Definition inTurn {A : Type} (os : list (outcome A)) (last : outcome A)
  : nat -> outcome A :=
  fun n => nth n os last.

Definition projectRepository (priority move : nat -> outcome bool)
    (user : nat -> outcome string) : ProjectRepository World :=
  {| setTaskPriority := fun _ _ _ _ _ _ => answer priority;
     moveIssueToColumn := fun _ _ _ _ _ _ => answer move;
     getUserFromToken := fun _ => answer user |}.

Definition setupFiles (dirs : nat -> outcome unit)
    (copy : nat -> outcome CopyResult) (valid : nat -> outcome bool)
  : SetupFiles World :=
  {| ensureGitHubDirs := answer dirs;
     copySetupFiles := answer copy;
     hasValidSetupToken := answer valid |}.

Definition issueRepository (labels progress types : nat -> outcome BatchResult)
  : IssueRepository World :=
  {| repoEnsureLabels := fun _ _ _ => answer labels;
     repoEnsureProgressLabels := fun _ _ _ => answer progress;
     repoEnsureIssueTypes := fun _ _ => answer types |}.

Definition octokit (labels : nat -> outcome (list LabelInfo))
    (create : nat -> outcome unit)
    (issueLabels : nat -> outcome (list string))
    (write : nat -> outcome unit)
    (types : nat -> outcome (list IssueTypeInfo))
    (createType : nat -> outcome string) : Octokit World :=
  {| listLabelsForRepo := fun _ _ _ => answer labels;
     createLabel := fun _ _ _ _ _ _ => answer create;
     listLabelsOnIssue := fun _ _ _ _ => answer issueLabels;
     setLabels := fun _ _ _ _ _ => answer write;
     listIssueTypes := fun _ _ => answer types;
     createIssueType := fun _ _ _ _ _ => answer createType |}.

Definition apiError : Js.Thrown := Js.ThrownError None "API error".

(** A project repository whose board calls answer the script in turn, then
    [false]; the token belongs to octocat. *)
Definition boardRepository (script : list (outcome bool))
  : ProjectRepository World :=
  projectRepository (inTurn script (Ok false)) (inTurn script (Ok false))
    (always (Ok "octocat")).

Definition board (name : string) (n : Z) : ProjectDetail :=
  newProjectDetail
    {| data_id := Some name; data_title := Some name;
       data_type := Some "organization"; data_owner := Some "acme";
       data_url := None; data_number := Some n |}.

(** The parameter of the priority tests, with the given priority label,
    configured names P0 / P1 / P2 and the given boards. *)
Definition execution (priority : string) (processable : bool)
    (boards : list ProjectDetail) : Execution :=
  {| exec_owner := "o"; exec_repo := "r"; issueNumber := 1;
     pullRequestNumber := 2; token := "t";
     labels := {| priorityLabelOnIssue := priority;
                  priorityLabelOnIssueProcessable := processable;
                  priorityHigh := "P0"; priorityMedium := "P1";
                  priorityLow := "P2" |};
     projects := boards;
     columnInProgress := "In Progress" |}.

(** The collaborators of the initial setup when every call succeeds:
    two files copied, a valid token, nothing to create. *)
Definition filesReady : SetupFiles World :=
  setupFiles (always (Ok tt)) (always (Ok (mkCopyResult 2 0)))
    (always (Ok true)).

Definition labelsInPlace : IssueRepository World :=
  issueRepository (always (Ok (mkBatchResult 0 5 [])))
    (always (Ok (mkBatchResult 0 21 [])))
    (always (Ok (mkBatchResult 0 3 []))).

(** [getUserFromToken] rejects the token. *)
Definition accessDenied : ProjectRepository World :=
  projectRepository (always (Ok true)) (always (Ok true))
    (always (Throw (Js.ThrownError None "Invalid token"))).

(** The labels batch reports an error, the progress-labels call throws,
    the issue types are fine. *)
Definition labelsFailing : IssueRepository World :=
  issueRepository (always (Ok (mkBatchResult 1 3 ["Label error"])))
    (always (Throw apiError))
    (always (Ok (mkBatchResult 0 3 []))).

(** A repository with the given live labels, whose create endpoint always
    ends the given way; issues carry the given labels. *)
Definition labelsRepo (live : list LabelInfo) (create : outcome unit)
    (onIssue : list string) : Octokit World :=
  octokit (always (Ok live)) (always create) (always (Ok onIssue))
    (always (Ok tt)) (always (Ok [])) (always (Ok "IT_new")).

(** A repository without labels whose create calls end as scripted; the
    script is indexed by the number of calls made before, the listings
    included. *)
Definition creatingRepo (create : list (outcome unit)) : Octokit World :=
  octokit (always (Ok [])) (inTurn create (Ok tt)) (always (Ok []))
    (always (Ok tt)) (always (Ok [])) (inTurn (map (fun o =>
       match o with Ok _ => Ok "IT_new" | Throw e => Throw e end) create)
       (Ok "IT_new")).

Definition conflict : Js.Thrown := Js.ThrownError (Some 422%Z) "already exists".

(** Only the placeholder token is configured: the token gate answers
    [false]. *)
Definition tokenMissing : SetupFiles World :=
  setupFiles (always (Ok tt)) (always (Ok (mkCopyResult 2 0)))
    (always (Ok (SetupToken.hasValidSetupToken (Some "github_pat_11..") None))).

(** Copying the setup files throws. *)
Definition copyFailing : SetupFiles World :=
  setupFiles (always (Ok tt)) (always (Throw apiError)) (always (Ok true)).

End Mock.

(* ================================================================== *)
(** ** Reading the token from the .env file (utils/setup_files.ts) *)
(* ================================================================== *)

Module EnvFile.

Definition ENV_TOKEN_KEY : string := "PERSONAL_ACCESS_TOKEN".

(** The line terminators of [^], [$] and [.] in a regular expression with
    the [m] flag: LF and CR (U+2028 and U+2029 are not single bytes). *)
Definition isLineTerminator (c : ascii) : bool :=
  let n := nat_of_ascii c in (n =? 10)%nat || (n =? 13)%nat.

(** The longest run of characters [.+] can take from the start of [s]. *)
Fixpoint lineHead (s : string) : string :=
  match s with
  | EmptyString => EmptyString
  | String c s' => if isLineTerminator c then EmptyString else String c (lineHead s')
  end.

Fixpoint skip (n : nat) (s : string) : string :=
  match n, s with
  | O, _ => s
  | S n', String _ s' => skip n' s'
  | S _, EmptyString => EmptyString
  end.

(** [^PERSONAL_ACCESS_TOKEN=(.+)$] tried at a line start: the captured
    group, if the line starts with the key and something follows the [=]. *)
Definition matchAtLineStart (s : string) : option string :=
  if String.prefix (ENV_TOKEN_KEY ++ "=") s then
    match lineHead (skip (String.length ENV_TOKEN_KEY + 1) s) with
    | EmptyString => None
    | v => Some v
    end
  else None.

(** [content.match(new RegExp(`^${ENV_TOKEN_KEY}=(.+)$`, 'm'))]: the first
    position, from the left, where the pattern matches; [^] holds at the
    start of the input and after each line terminator. *)
Fixpoint firstMatch (lineStart : bool) (s : string) : option string :=
  match (if lineStart then matchAtLineStart s else None) with
  | Some v => Some v
  | None =>
      match s with
      | EmptyString => None
      | String c s' => firstMatch (isLineTerminator c) s'
      end
  end.

(** A double or a single quote. *)
Definition isQuote (c : ascii) : bool :=
  let n := nat_of_ascii c in (n =? 34)%nat || (n =? 39)%nat.

Definition stripLeadingQuote (s : string) : string :=
  match s with
  | EmptyString => EmptyString
  | String c s' => if isQuote c then s' else s
  end.

Fixpoint stripTrailingQuote (s : string) : string :=
  match s with
  | EmptyString => EmptyString
  | String c EmptyString => if isQuote c then EmptyString else s
  | String c s' => String c (stripTrailingQuote s')
  end.

(** [.replace(/^["']|["']$/g, '')]: a quote at the start is removed, then a
    quote at the end of what is left. *)
Definition stripQuotes (s : string) : string :=
  stripTrailingQuote (stripLeadingQuote s).

(** [getTokenFromEnvFile(envPath)], given the content of the file; [None]
    as argument when the path does not exist or is not a file, [None] as
    result for [null]. *)
Definition getTokenFromEnvFile (content : option string) : option string :=
  match content with
  | None => None
  | Some content =>
      match firstMatch true content with
      | None => None
      | Some captured =>
          let value := stripQuotes (Js.trim captured) in
          if (0 <? String.length value)%nat then Some value else None
      end
  end.

(** [getSetupToken(cwd)] on the environment variable and the .env file. *)
Definition getSetupToken (env content : option string) : option string :=
  SetupToken.getSetupToken env (getTokenFromEnvFile content).

(** The lines of a file, each with its line feed, put together. *)
Definition unlines (lines : list string) : string :=
  fold_right (fun l rest => (l ++ String (ascii_of_nat 10) rest)%string)
    EmptyString lines.

Fixpoint noLineTerminator (s : string) : bool :=
  match s with
  | EmptyString => true
  | String c s' => negb (isLineTerminator c) && noLineTerminator s'
  end.

End EnvFile.

(* ================================================================== *)
(** ** Reading the steps of the initial setup *)
(* ================================================================== *)

Module SetupLog.

(** The step a reconciliation stage contributes: one line with its counts
    when the stage returned without errors, none otherwise. *)
Definition stageSteps (what : string) (o : outcome BatchResult) : list string :=
  match o with
  | Ok r =>
      match batch_errors r with
      | [] => [InitialSetup.countsStep what (batch_created r) (batch_existing r)]
      | _ :: _ => []
      end
  | Throw _ => []
  end.

Definition filesStep (c : CopyResult) : string :=
  ("✅ Setup files: " ++ Js.numberToString (copied c) ++ " copied, "
     ++ Js.numberToString (skipped c) ++ " already existed")%string.

Definition accessStep (user : string) : string :=
  ("✅ GitHub access verified: " ++ user)%string.

End SetupLog.

(* ================================================================== *)
(** ** The setup files on the file system (utils/setup_files.ts) *)
(* ================================================================== *)

Module Fs.

(** A path, as its segments: [path.join(base, a, b)] is [base ++ [a; b]]. *)
Definition Path : Type := list string.

Definition join (base : Path) (segments : list string) : Path :=
  (base ++ segments)%list.

(** One call to [fs], with its arguments and how it ended ([existsSync]
    does not throw). *)
Inductive FsEvent : Type :=
| FsExists (p : Path) (answer : bool)
| FsMkdir (p : Path) (out : outcome unit)
| FsReaddir (p : Path) (out : outcome (list string))
| FsStatIsFile (p : Path) (out : outcome bool)
| FsCopyFile (src dst : Path) (out : outcome unit)
| FsReadFile (p : Path) (out : outcome string).

(** The part of node's [fs] the setup uses, on a world [W]:
    [existsSync], [mkdirSync(p, { recursive: true })], [readdirSync],
    [statSync(p).isFile()], [copyFileSync], [readFileSync(p, 'utf8')]. *)
Class FileSystem (W : Type) : Type := {
  existsSync : Path -> W -> bool * W;
  mkdirSync : Path -> W -> outcome unit * W;
  readdirSync : Path -> W -> outcome (list string) * W;
  statIsFile : Path -> W -> outcome bool * W;
  copyFileSync : Path -> Path -> W -> outcome unit * W;
  readFileSync : Path -> W -> outcome string * W
}.

(** [s.endsWith(suffix)]. *)
Definition endsWith (s suffix : string) : bool :=
  (String.length suffix <=? String.length s)%nat
  && String.eqb
       (String.substring (String.length s - String.length suffix)
          (String.length suffix) s)
       suffix.

Section Programs.

Context {W : Type} {FS : FileSystem W}.

(** A program over the file system; its locals are the log of its calls. *)
Definition Prog (A : Type) : Type := Eff.M W (list FsEvent) A.

Definition call {A : Type} (h : W -> outcome A * W) (log : outcome A -> FsEvent)
  : Prog A :=
  fun st =>
    let (o, w') := h (Eff.remote st) in
    (o, Eff.mkSt w' (Eff.events st) (Eff.locals st ++ [log o])).

Definition exists_ (p : Path) : Prog bool :=
  fun st =>
    let (b, w') := existsSync p (Eff.remote st) in
    (Ok b, Eff.mkSt w' (Eff.events st) (Eff.locals st ++ [FsExists p b])).

(** [if (!fs.existsSync(d)) { fs.mkdirSync(d, { recursive: true }); }]. *)
Definition ensureDir (d : Path) : Prog unit :=
  there <- exists_ d ;;
  if negb there then call (mkdirSync d) (FsMkdir d) else Eff.ret tt.

(** [ensureGitHubDirs(cwd)]. *)
Definition ensureGitHubDirs (cwd : Path) : Prog unit :=
  let githubDir := join cwd [".github"] in
  let workflowsDir := join cwd [".github"; "workflows"] in
  let issueTemplateDir := join cwd [".github"; "ISSUE_TEMPLATE"] in
  ensureDir githubDir ;;;
  ensureDir workflowsDir ;;;
  ensureDir issueTemplateDir.

(** The body shared by the three copy sites: skip when the destination
    exists, copy otherwise. *)
Definition copyIfAbsent (src dst : Path) (acc : CopyResult) : Prog CopyResult :=
  there <- exists_ dst ;;
  if there then Eff.ret (mkCopyResult (copied acc) (skipped acc + 1))
  else
    call (copyFileSync src dst) (FsCopyFile src dst) ;;;
    Eff.ret (mkCopyResult (copied acc + 1) (skipped acc)).

(** The loop over the workflow files: [statSync(src).isFile()] guards each. *)
Fixpoint copyWorkflows (srcDir dstDir : Path) (files : list string)
    (acc : CopyResult) : Prog CopyResult :=
  match files with
  | [] => Eff.ret acc
  | f :: rest =>
      isFile <- call (statIsFile (join srcDir [f])) (FsStatIsFile (join srcDir [f])) ;;
      acc' <- (if isFile
               then copyIfAbsent (join srcDir [f]) (join dstDir [f]) acc
               else Eff.ret acc) ;;
      copyWorkflows srcDir dstDir rest acc'
  end.

(** [names.filter((f) => fs.statSync(path.join(dir, f)).isFile())]. *)
Fixpoint filterFiles (dir : Path) (names : list string) : Prog (list string) :=
  match names with
  | [] => Eff.ret []
  | f :: rest =>
      isFile <- call (statIsFile (join dir [f])) (FsStatIsFile (join dir [f])) ;;
      kept <- filterFiles dir rest ;;
      Eff.ret (if isFile then f :: kept else kept)
  end.

(** The loop over the issue templates. *)
Fixpoint copyEach (srcDir dstDir : Path) (files : list string)
    (acc : CopyResult) : Prog CopyResult :=
  match files with
  | [] => Eff.ret acc
  | f :: rest =>
      acc' <- copyIfAbsent (join srcDir [f]) (join dstDir [f]) acc ;;
      copyEach srcDir dstDir rest acc'
  end.

(** [getTokenFromEnvFile(envPath)], reading the file. *)
Definition getTokenFromEnvFile (envPath : Path) : Prog (option string) :=
  there <- exists_ envPath ;;
  if negb there then Eff.ret None
  else
    isFile <- call (statIsFile envPath) (FsStatIsFile envPath) ;;
    if negb isFile then Eff.ret None
    else
      content <- call (readFileSync envPath) (FsReadFile envPath) ;;
      Eff.ret (EnvFile.getTokenFromEnvFile (Some content)).

(** [ensureEnvWithToken(cwd)]: it only reports; [env] is
    [process.env.PERSONAL_ACCESS_TOKEN]. *)
Definition ensureEnvWithToken (env : option string) (cwd : Path) : Prog unit :=
  let envPath := join cwd [".env"] in
  match option_map Js.trim env with
  | Some (String _ _) => Eff.ret tt
  | _ =>
      there <- exists_ envPath ;;
      if there then getTokenFromEnvFile envPath ;;; Eff.ret tt
      else Eff.ret tt
  end.

Definition isWorkflowFile (f : string) : bool :=
  endsWith f ".yml" || endsWith f ".yaml".

(** [copySetupFiles(cwd, setupDir)]; [setupDir] is [setupDirOverride] or
    the setup folder of the package. *)
Definition copySetupFiles (env : option string) (cwd setupDir : Path)
  : Prog CopyResult :=
  there <- exists_ setupDir ;;
  if negb there then Eff.ret (mkCopyResult 0 0)
  else
    let workflowsSrc := join setupDir ["workflows"] in
    let workflowsDst := join cwd [".github"; "workflows"] in
    hasWorkflows <- exists_ workflowsSrc ;;
    acc1 <- (if hasWorkflows then
               names <- call (readdirSync workflowsSrc) (FsReaddir workflowsSrc) ;;
               copyWorkflows workflowsSrc workflowsDst
                 (filter isWorkflowFile names) (mkCopyResult 0 0)
             else Eff.ret (mkCopyResult 0 0)) ;;
    let issueTemplateSrc := join setupDir ["ISSUE_TEMPLATE"] in
    let issueTemplateDst := join cwd [".github"; "ISSUE_TEMPLATE"] in
    hasTemplates <- exists_ issueTemplateSrc ;;
    acc2 <- (if hasTemplates then
               names <- call (readdirSync issueTemplateSrc)
                          (FsReaddir issueTemplateSrc) ;;
               files <- filterFiles issueTemplateSrc names ;;
               copyEach issueTemplateSrc issueTemplateDst files acc1
             else Eff.ret acc1) ;;
    let prTemplateSrc := join setupDir ["pull_request_template.md"] in
    let prTemplateDst := join cwd [".github"; "pull_request_template.md"] in
    hasPrTemplate <- exists_ prTemplateSrc ;;
    acc3 <- (if hasPrTemplate then copyIfAbsent prTemplateSrc prTemplateDst acc2
             else Eff.ret acc2) ;;
    ensureEnvWithToken env cwd ;;;
    Eff.ret acc3.

(** [getSetupToken(cwd)], reading the .env file only when the environment
    gives no valid token. *)
Definition getSetupToken (env : option string) (cwd : Path)
  : Prog (option string) :=
  let fileToken :=
    fromFile <- getTokenFromEnvFile (join cwd [".env"]) ;;
    Eff.ret (match fromFile with
             | Some t => if SetupToken.isTokenValueValid t then Some t else None
             | None => None
             end) in
  match option_map Js.trim env with
  | Some fromEnv =>
      if negb (String.eqb fromEnv "") && SetupToken.isTokenValueValid fromEnv
      then Eff.ret (Some fromEnv)
      else fileToken
  | None => fileToken
  end.

(** A run from an empty log: the result, the log of [fs] calls, the world. *)
Definition run {A : Type} (m : Prog A) (w : W) : outcome A * (list FsEvent * W) :=
  let (o, st) := m (Eff.mkSt w [] []) in
  (o, (Eff.locals st, Eff.remote st)).

End Programs.

Definition isCopy (ev : FsEvent) : bool :=
  match ev with FsCopyFile _ _ _ => true | _ => false end.

Definition isMkdir (ev : FsEvent) : bool :=
  match ev with FsMkdir _ _ => true | _ => false end.

(** Reading and statting leave the file system as it is; copying and
    creating a directory write to it. *)
Definition isWrite (ev : FsEvent) : bool := isCopy ev || isMkdir ev.

Fixpoint pathEqb (a b : Path) : bool :=
  match a, b with
  | [], [] => true
  | x :: a', y :: b' => String.eqb x y && pathEqb a' b'
  | _, _ => false
  end.

(** [p] is [root] or lies below it. *)
Fixpoint isUnder (root p : Path) : bool :=
  match root, p with
  | [], _ => true
  | x :: root', y :: p' => String.eqb x y && isUnder root' p'
  | _ :: _, [] => false
  end.

(** Every copy in the log goes to a destination below [root] that the call
    just before it found missing. *)
Definition copiesGuarded (root : Path) (log : list FsEvent) : Prop :=
  forall (before after : list FsEvent) (src dst : Path) (out : outcome unit),
    log = (before ++ FsCopyFile src dst out :: after)%list ->
    isUnder root dst = true
    /\ exists earlier : list FsEvent,
         before = (earlier ++ [FsExists dst false])%list.

(** The calls [ensureDir] makes for a directory found there or not. *)
Definition ensured (d : Path) (there : bool) : list FsEvent :=
  FsExists d there :: (if there then [] else [FsMkdir d (Ok tt)]).

(** A specification of a program by what it adds to the log: from any
    state, [m] appends a segment of calls and ends with an outcome that
    together satisfy [P]; it leaves the other log alone. *)
Definition appends {W A : Type} (m : Eff.M W (list FsEvent) A)
    (P : list FsEvent -> outcome A -> Prop) : Prop :=
  forall (st st' : Eff.St W (list FsEvent)) (o : outcome A),
    m st = (o, st') ->
    exists segment : list FsEvent,
      Eff.locals st' = (Eff.locals st ++ segment)%list
      /\ Eff.events st' = Eff.events st
      /\ P segment o.

(** What every piece of [copySetupFiles] keeps: its copies are guarded,
    it creates no directory, and, when it returns, [copied] has grown by
    the number of its copies while [skipped] has not shrunk. *)
Definition copySafe (root : Path) (acc : CopyResult) (segment : list FsEvent)
    (o : outcome CopyResult) : Prop :=
  copiesGuarded root segment
  /\ existsb isMkdir segment = false
  /\ match o with
     | Ok acc' =>
         copied acc'
         = (copied acc + Z.of_nat (length (filter isCopy segment)))%Z
         /\ (skipped acc <= skipped acc')%Z
     | Throw _ => True
     end.

(** A piece that reads only: no copy, no directory created. *)
Definition readOnly {A : Type} (segment : list FsEvent) (o : outcome A) : Prop :=
  existsb isWrite segment = false.

End Fs.

(* ================================================================== *)
(** ** The command line: the repository of the working directory *)
(* ================================================================== *)

Module Cli.

(** What [getGitInfo] returns: [{ owner, repo }] or
    [{ error: ERRORS.GIT_REPOSITORY_NOT_FOUND }]. *)
Inductive GitInfo : Type :=
| GitRepo (owner repo : string)
| GitRepositoryNotFound.

(** [s.replace(pattern, '')] with a string pattern: the first occurrence
    goes, the rest stays. *)
Fixpoint removeFirst (pattern s : string) : string :=
  if String.prefix pattern s then EnvFile.skip (String.length pattern) s
  else
    match s with
    | EmptyString => EmptyString
    | String c s' => String c (removeFirst pattern s')
    end.

(** The longest run of [[^/]] at the start of [s], and what follows it. *)
Fixpoint untilSlash (s : string) : string * string :=
  match s with
  | EmptyString => (EmptyString, EmptyString)
  | String c s' =>
      if Ascii.eqb c "/" then (EmptyString, s)
      else let (run, rest) := untilSlash s' in (String c run, rest)
  end.

(** [github\.com[/:]([^/]+)\/([^/]+)(?:\.git)?$] tried at the start of [s]:
    the two groups.  Both groups are greedy, so the first is the run up to
    the first slash and the second the run after it, which has to reach the
    end of the string; the optional [.git] then matches nothing. *)
Definition matchHere (s : string) : option (string * string) :=
  if String.prefix "github.com" s then
    match EnvFile.skip 10 s with
    | String sep rest =>
        if Ascii.eqb sep "/" || Ascii.eqb sep ":" then
          match untilSlash rest with
          | (String c owner, String _ afterSlash) =>
              match untilSlash afterSlash with
              | (String d repo, EmptyString) =>
                  Some (String c owner, String d repo)
              | _ => None
              end
          | _ => None
          end
        else None
    | EmptyString => None
    end
  else None.

(** [remoteUrl.match(...)]: the match that starts leftmost. *)
Fixpoint search (s : string) : option (string * string) :=
  match matchHere s with
  | Some groups => Some groups
  | None =>
      match s with
      | EmptyString => None
      | String _ s' => search s'
      end
  end.

(** [getGitInfo()], given how
    [execSync('git config --get remote.origin.url').toString()] ended. *)
Definition getGitInfo (remote : outcome string) : GitInfo :=
  match remote with
  | Throw _ => GitRepositoryNotFound
  | Ok out =>
      match search (Js.trim out) with
      | None => GitRepositoryNotFound
      | Some (owner, repo) => GitRepo owner (removeFirst ".git" repo)
      end
  end.

End Cli.

(* ================================================================== *)
(** ** String facts *)
(* ================================================================== *)

Lemma prefix_append (n rest : string) : String.prefix n (n ++ rest) = true.
Proof.
  induction n as [|c n IH]; simpl.
  - destruct rest; reflexivity.
  - destruct (ascii_dec c c) as [_|Hc]; [exact IH | now elim Hc].
Qed.

Lemma includes_here (hay needle : string) :
  String.prefix needle hay = true -> Js.includes hay needle = true.
Proof. intros H. destruct hay; cbn [Js.includes]; rewrite H; reflexivity. Qed.

Lemma includes_skip (c : ascii) (hay needle : string) :
  Js.includes hay needle = true -> Js.includes (String c hay) needle = true.
Proof. intros H. cbn [Js.includes]. rewrite H. apply orb_true_r. Qed.

Lemma includes_after (before hay needle : string) :
  Js.includes hay needle = true -> Js.includes (before ++ hay) needle = true.
Proof.
  intros H. induction before as [|c before IH]; cbn [append].
  - exact H.
  - apply includes_skip, IH.
Qed.

(** A string includes each of the pieces it is concatenated from. *)
Lemma includes_append (before needle rest : string) :
  Js.includes (before ++ needle ++ rest) needle = true.
Proof. apply includes_after, includes_here, prefix_append. Qed.

Lemma eqb_neq_false (a b : string) : a <> b -> String.eqb a b = false.
Proof. intros H. apply String.eqb_neq. exact H. Qed.

(* ================================================================== *)
(** ** ProjectDetail.publicUrl *)
(* ================================================================== *)

(** C7.  For every ProjectDetail, [publicUrl] is the stored url verbatim
    when it starts with https://, whatever type, owner and number are;
    otherwise it is https://github.com/orgs/{owner}/projects/{number} when
    the type is 'organization' and https://github.com/users/{owner}/
    projects/{number} for any other type.  The three instances of the
    specification follow: acme (organization, 1), jane (user, 3), and a
    stored url that is returned as it is. *)
Theorem publicUrl_spec :
  (forall p : ProjectDetail,
      publicUrl p =
        if Js.startsWith (url p) "https://" then url p
        else if String.eqb (type p) "organization"
             then ("https://github.com/orgs/" ++ owner p ++ "/projects/"
                     ++ Js.numberToString (number p))%string
             else ("https://github.com/users/" ++ owner p ++ "/projects/"
                     ++ Js.numberToString (number p))%string)
  /\ publicUrl (newProjectDetail
                  (mkProjectData None None (Some "organization") (Some "acme")
                     None (Some 1%Z)))
     = "https://github.com/orgs/acme/projects/1"
  /\ publicUrl (newProjectDetail
                  (mkProjectData None None (Some "user") (Some "jane")
                     None (Some 3%Z)))
     = "https://github.com/users/jane/projects/3"
  /\ (forall (i t ty o : string) (n : Z),
        publicUrl (mkProjectDetail i t ty o
                     "https://github.com/orgs/x/projects/9" n)
        = "https://github.com/orgs/x/projects/9").
Proof.
  split; [|split; [|split]].
  2, 3: reflexivity.
  - intros p. unfold publicUrl, Js.startsWith.
    destruct (url p) as [|c u] eqn:Hu.
    + simpl. destruct (String.eqb (type p) "organization"); reflexivity.
    + change (String.eqb (String c u) "") with false. simpl negb.
      rewrite andb_true_l.
      destruct (String.prefix "https://" (String c u)); [reflexivity|].
      destruct (String.eqb (type p) "organization"); reflexivity.
  - intros. reflexivity.
Qed.

(* ================================================================== *)
(** ** The priority use cases *)
(* ================================================================== *)

Section CheckPriorityFacts.

Context {W : Type} {PR : ProjectRepository W}.
Variable taskId : string.
Variable numberOf : Execution -> Z.

(** The final [else] is reached exactly when the label equals none of the
    three configured names. *)
Lemma priorityToken_none (l : Labels) :
  CheckPriority.priorityToken l = None <->
  priorityLabelOnIssue l <> priorityHigh l
  /\ priorityLabelOnIssue l <> priorityMedium l
  /\ priorityLabelOnIssue l <> priorityLow l.
Proof.
  unfold CheckPriority.priorityToken.
  destruct (String.eqb_spec (priorityLabelOnIssue l) (priorityHigh l));
    [split; [discriminate | tauto]|].
  destruct (String.eqb_spec (priorityLabelOnIssue l) (priorityMedium l));
    [split; [discriminate | tauto]|].
  destruct (String.eqb_spec (priorityLabelOnIssue l) (priorityLow l));
    [split; [discriminate | tauto]|].
  tauto.
Qed.

(** Whenever the [try] block only pushes the no-op result, [invoke]
    returns that single result, makes no call and leaves the world. *)
Lemma invoke_of_skipped (param : Execution) (w : W) :
  CheckPriority.tryBlock taskId numberOf param
  = CheckPriority.push (CheckPriority.skipped taskId) ->
  CheckPriority.invoke taskId numberOf param w
  = (Ok [CheckPriority.skipped taskId], ([], w)).
Proof.
  intros H. unfold CheckPriority.invoke, CheckPriority.program.
  rewrite H. reflexivity.
Qed.

Lemma tryBlock_gate (param : Execution) :
  priorityLabelOnIssueProcessable (labels param) = false
  \/ projects param = [] ->
  CheckPriority.tryBlock taskId numberOf param
  = CheckPriority.push (W := W) (CheckPriority.skipped taskId).
Proof.
  unfold CheckPriority.tryBlock. intros [H | H]; rewrite H.
  - reflexivity.
  - rewrite orb_true_r. reflexivity.
Qed.

Lemma tryBlock_token (param : Execution) :
  CheckPriority.priorityToken (labels param) = None ->
  CheckPriority.tryBlock taskId numberOf param
  = CheckPriority.push (W := W) (CheckPriority.skipped taskId).
Proof.
  unfold CheckPriority.tryBlock. intros H. rewrite H.
  destruct (_ || _); reflexivity.
Qed.

End CheckPriorityFacts.

(** C4.  For every Execution where priorityLabelOnIssueProcessable is
    false, or no project board is linked, or the current priority label is
    none of the configured high / medium / low names, the priority use case
    (under either task id: the statement holds for every task id and for
    either number) returns exactly one Result, with success true and
    executed false, and calls no endpoint at all, the priority-set endpoint
    included: the log of calls is empty and the world is untouched. *)
Theorem check_priority_short_circuit :
  forall (W : Type) (PR : ProjectRepository W) (taskId : string)
         (numberOf : Execution -> Z) (param : Execution) (w : W),
    priorityLabelOnIssueProcessable (labels param) = false
    \/ projects param = []
    \/ (priorityLabelOnIssue (labels param) <> priorityHigh (labels param)
        /\ priorityLabelOnIssue (labels param) <> priorityMedium (labels param)
        /\ priorityLabelOnIssue (labels param) <> priorityLow (labels param)) ->
    exists r : Result,
      CheckPriority.invoke taskId numberOf param w = (Ok [r], ([], w))
      /\ result_id r = taskId /\ success r = true /\ executed r = false.
Proof.
  intros W PR taskId numberOf param w H.
  exists (CheckPriority.skipped taskId). split; [|repeat split].
  apply invoke_of_skipped.
  destruct H as [H | [H | H]].
  - apply tryBlock_gate. now left.
  - apply tryBlock_gate. now right.
  - apply tryBlock_token, priorityToken_none, H.
Qed.

(** The three short circuits on the pull-request use case of the sources and
    on the issue use case: disabled, no board, a label outside the set. *)
Lemma check_priority_short_circuit_witness :
  (exists r,
      CheckPriorityPullRequestSizeUseCase_invoke
        (PR := Mock.projectRepository (Mock.always (Ok true))
                 (Mock.always (Ok true)) (Mock.always (Ok "octocat")))
        (Mock.execution "P0" false [Mock.board "Board" 1]) 0%nat
      = (Ok [r], ([], 0%nat))
      /\ result_id r = "CheckPriorityPullRequestSizeUseCase"
      /\ success r = true /\ executed r = false)
  /\ (exists r,
      CheckPriorityIssueSizeUseCase_invoke
        (PR := Mock.projectRepository (Mock.always (Ok true))
                 (Mock.always (Ok true)) (Mock.always (Ok "octocat")))
        (Mock.execution "P0" true []) 0%nat
      = (Ok [r], ([], 0%nat))
      /\ result_id r = "CheckPriorityIssueSizeUseCase"
      /\ success r = true /\ executed r = false)
  /\ (exists r,
      CheckPriorityPullRequestSizeUseCase_invoke
        (PR := Mock.projectRepository (Mock.always (Ok true))
                 (Mock.always (Ok true)) (Mock.always (Ok "octocat")))
        (Mock.execution "other" true [Mock.board "Board" 1]) 0%nat
      = (Ok [r], ([], 0%nat))
      /\ result_id r = "CheckPriorityPullRequestSizeUseCase"
      /\ success r = true /\ executed r = false).
Proof.
  split; [|split].
  - apply check_priority_short_circuit. left. reflexivity.
  - apply check_priority_short_circuit. right. left. reflexivity.
  - apply check_priority_short_circuit. right. right.
    repeat split; discriminate.
Defined.

(** C10.  The priority use case compares the current priority label with
    the configured high, medium and low names in that order, by exact
    (case-sensitive) string equality: the token is P0 exactly when the label
    is the high name, P1 exactly when it is not the high name but is the
    medium name, P2 exactly when it is neither but is the low name.  A label
    that differs from each configured name, even if only in letter case, is
    outside the set: [invoke] returns the single no-op Result (success true,
    executed false) and calls nothing.  [IssueRepo.sameName], the
    case-insensitive match of ensureLabel, does hold between such names. *)
Theorem check_priority_case_sensitive :
  forall (W : Type) (PR : ProjectRepository W) (taskId : string)
         (numberOf : Execution -> Z),
    (forall l : Labels,
        (CheckPriority.priorityToken l = Some "P0"
         <-> priorityLabelOnIssue l = priorityHigh l)
        /\ (CheckPriority.priorityToken l = Some "P1"
            <-> priorityLabelOnIssue l <> priorityHigh l
                /\ priorityLabelOnIssue l = priorityMedium l)
        /\ (CheckPriority.priorityToken l = Some "P2"
            <-> priorityLabelOnIssue l <> priorityHigh l
                /\ priorityLabelOnIssue l <> priorityMedium l
                /\ priorityLabelOnIssue l = priorityLow l))
    /\ (forall (param : Execution) (w : W),
          priorityLabelOnIssue (labels param) <> priorityHigh (labels param)
          /\ priorityLabelOnIssue (labels param) <> priorityMedium (labels param)
          /\ priorityLabelOnIssue (labels param) <> priorityLow (labels param) ->
          IssueRepo.sameName (priorityLabelOnIssue (labels param))
            (priorityHigh (labels param)) = true
          \/ IssueRepo.sameName (priorityLabelOnIssue (labels param))
               (priorityMedium (labels param)) = true
          \/ IssueRepo.sameName (priorityLabelOnIssue (labels param))
               (priorityLow (labels param)) = true ->
          CheckPriority.invoke taskId numberOf param w
          = (Ok [{| result_id := taskId; success := true; executed := false;
                    steps := None; errors := None |}], ([], w))).
Proof.
  intros W PR taskId numberOf. split.
  - intros l. unfold CheckPriority.priorityToken.
    destruct (String.eqb_spec (priorityLabelOnIssue l) (priorityHigh l));
      [repeat split; intros; try discriminate; tauto|].
    destruct (String.eqb_spec (priorityLabelOnIssue l) (priorityMedium l));
      [repeat split; intros; try discriminate; tauto|].
    destruct (String.eqb_spec (priorityLabelOnIssue l) (priorityLow l));
      repeat split; intros; try discriminate; tauto.
  - intros param w Hdiff _.
    apply invoke_of_skipped, tryBlock_token, priorityToken_none, Hdiff.
Qed.

(** The label p0 against the configured P0 / P1 / P2, one board linked. *)
Lemma check_priority_case_sensitive_witness :
  IssueRepo.sameName "p0" "P0" = true
  /\ CheckPriorityPullRequestSizeUseCase_invoke
       (PR := Mock.projectRepository (Mock.always (Ok true))
                (Mock.always (Ok true)) (Mock.always (Ok "octocat")))
       (Mock.execution "p0" true [Mock.board "Board" 1]) 0%nat
     = (Ok [{| result_id := "CheckPriorityPullRequestSizeUseCase";
               success := true; executed := false;
               steps := None; errors := None |}], ([], 0%nat)).
Proof.
  split; [reflexivity|].
  apply (proj2 (check_priority_case_sensitive Mock.World _
                  "CheckPriorityPullRequestSizeUseCase" pullRequestNumber)).
  - repeat split; discriminate.
  - left. reflexivity.
Defined.

(** One turn of a loop over the boards, once the call is unfolded in
    [Hrun]: the call returns [true] or [false] and the loop goes on (by
    [IH]), or it throws and the loop ends. *)
Ltac board_loop_step IH Hrun rest :=
  match type of Hrun with
  | context [let (_, _) := ?call in _] =>
      let ok := fresh "ok" in
      let e := fresh "e" in
      let w1 := fresh "w1" in
      destruct call as [[ok | e] w1];
      [ destruct ok; cbn in Hrun; apply IH in Hrun;
        let evs := fresh "evs" in
        let Hev := fresh "Hev" in
        let Hloc := fresh "Hloc" in
        let Hall := fresh "Hall" in
        let Hout := fresh "Hout" in
        destruct Hrun as (evs & Hev & Hloc & Hall & Hout); cbn in Hev, Hloc;
        eexists (_ :: evs);
        (split; [rewrite Hev, <- app_assoc; reflexivity|]);
        (split; [rewrite Hloc; cbn; rewrite <- ?app_assoc; reflexivity|]);
        (split; [exact Hall|]);
        match goal with
        | o : outcome unit |- _ =>
            destruct o; cbn;
            [ destruct Hout as [Ht Hb]; split; [exact Ht | now rewrite Hb]
            | destruct Hout as [Ht [more Hb]]; split;
              [exact Ht | exists more; now rewrite Hb] ]
        end
      | inversion Hrun; subst; cbn;
        eexists [_]; repeat split; cbn; rewrite ?app_nil_r; try reflexivity;
        exists rest; reflexivity ]
  end.

Section CheckPriorityLoop.

Context {W : Type} {PR : ProjectRepository W}.
Variable taskId : string.
Variable numberOf : Execution -> Z.

(** The loop over the boards: it logs one priority call per board visited,
    pushes one Result per call that returned [true], and stops at the first
    call that throws. *)
Lemma check_priority_forProjects (param : Execution) (priorityLabel : string) :
  forall (ps : list ProjectDetail) (st st' : Eff.St W (list Result))
         (o : outcome unit),
    CheckPriority.forProjects taskId numberOf param priorityLabel ps st
    = (o, st') ->
    exists evs : list Event,
      Eff.events st' = (Eff.events st ++ evs)%list
      /\ Eff.locals st'
         = (Eff.locals st
              ++ map (CheckPriority.prioritySet taskId priorityLabel)
                   (Log.boardsAnswering true evs))%list
      /\ forallb Log.isSetTaskPriority evs = true
      /\ match o with
         | Ok _ => Log.thrown evs = [] /\ flat_map Log.board evs = ps
         | Throw e =>
             Log.thrown evs = [e]
             /\ exists rest, ps = (flat_map Log.board evs ++ rest)%list
         end.
Proof.
  induction ps as [|project rest IH]; intros st st' o Hrun.
  - inversion Hrun; subst. exists []. rewrite !app_nil_r. repeat split.
  - cbn [CheckPriority.forProjects] in Hrun.
    unfold Eff.bind, CheckPriority.callSetTaskPriority, Eff.perform in Hrun.
    board_loop_step IH Hrun rest.
Qed.

End CheckPriorityLoop.

Section CheckPriorityRuns.

Context {W : Type} {PR : ProjectRepository W}.
Variable taskId : string.
Variable numberOf : Execution -> Z.

(** Every run of [invoke] is a short circuit, or a pass over the boards:
    the Results are then one success per call that returned [true], in call
    order, followed by one failure per thrown error, of which there is at
    most one. *)
Lemma check_priority_runs (param : Execution) (w : W) :
  CheckPriority.invoke taskId numberOf param w
  = (Ok [CheckPriority.skipped taskId], ([], w))
  \/ exists priorityLabel : string,
       CheckPriority.priorityToken (labels param) = Some priorityLabel
       /\ Log.returned (CheckPriority.invoke taskId numberOf param w)
          = Ok (map (CheckPriority.prioritySet taskId priorityLabel)
                  (Log.boardsAnswering true
                     (Log.calls (CheckPriority.invoke taskId numberOf param w)))
                ++ map (CheckPriority.failed taskId)
                     (Log.thrown
                        (Log.calls (CheckPriority.invoke taskId numberOf param w))))%list
       /\ (length (Log.thrown
                     (Log.calls (CheckPriority.invoke taskId numberOf param w)))
           <= 1)%nat
       /\ forallb Log.isSetTaskPriority
            (Log.calls (CheckPriority.invoke taskId numberOf param w)) = true.
Proof.
  destruct (negb (priorityLabelOnIssueProcessable (labels param))
            || (length (projects param) =? 0)%nat) eqn:Hgate.
  { left. apply invoke_of_skipped. unfold CheckPriority.tryBlock.
    rewrite Hgate. reflexivity. }
  destruct (CheckPriority.priorityToken (labels param)) as [priorityLabel|]
    eqn:Htoken.
  2: { left. now apply invoke_of_skipped, tryBlock_token. }
  right. exists priorityLabel. split; [reflexivity|].
  unfold CheckPriority.invoke, CheckPriority.program, CheckPriority.tryBlock,
    Eff.run, Eff.bind, Eff.tryCatch.
  rewrite Hgate, Htoken.
  destruct (CheckPriority.forProjects taskId numberOf param priorityLabel
              (projects param) (Eff.mkSt w [] [])) as [o st'] eqn:Hrun.
  apply check_priority_forProjects in Hrun.
  destruct Hrun as (evs & Hev & Hloc & Hall & Hout). cbn in Hev, Hloc.
  destruct o as [u | e]; unfold Log.returned, Log.calls;
    cbn -[Log.thrown Log.boardsAnswering forallb]; rewrite Hev, Hloc;
    destruct Hout as [Ht _]; rewrite Ht; cbn -[Log.boardsAnswering forallb].
  - rewrite app_nil_r. auto.
  - auto.
Qed.

End CheckPriorityRuns.

(** C2, as stated, fails.  Two boards are linked; the priority call
    returns [true] for the first and throws for the second.  [invoke]
    returns two Results, the success entry of the first board and then the
    failure entry: not exactly one. *)
Lemma check_priority_throw_counterexample :
  CheckPriorityPullRequestSizeUseCase_invoke
    (PR := Mock.boardRepository [Ok true; Throw Mock.apiError])
    (Mock.execution "P0" true [Mock.board "A" 1; Mock.board "B" 2]) 0%nat
  = (Ok [ {| result_id := "CheckPriorityPullRequestSizeUseCase";
             success := true; executed := true;
             steps := Some ["Priority set to `P0` in [A](https://github.com/orgs/acme/projects/1)."];
             errors := None |};
          {| result_id := "CheckPriorityPullRequestSizeUseCase";
             success := false; executed := true;
             steps := Some ["Tried to check the priority of the issue, but there was a problem."];
             errors := Some ["Error: API error"] |} ],
     ([ EvSetTaskPriority (Mock.board "A" 1) "o" "r" 2 "P0" "t" (Ok true);
        EvSetTaskPriority (Mock.board "B" 2) "o" "r" 2 "P0" "t"
          (Throw Mock.apiError) ],
      2%nat))
  /\ ~ (exists r : Result,
          Log.returned
            (CheckPriorityPullRequestSizeUseCase_invoke
               (PR := Mock.boardRepository [Ok true; Throw Mock.apiError])
               (Mock.execution "P0" true [Mock.board "A" 1; Mock.board "B" 2])
               0%nat)
          = Ok [r]).
Proof.
  split; [reflexivity|].
  intros [r H]. discriminate H.
Qed.

(** C2, amended.  When a priority-set call throws the error [e], [invoke]
    still returns: first the success Results already pushed, one for each
    board whose call returned [true] before the throw (success true,
    executed true), then exactly one failure Result with success false,
    executed true, a step containing the word "problem" and the error's
    string form.  The failure Result is the only Result when no call
    returned [true] before the throw.  All the calls of the run are
    priority-set calls. *)
Theorem check_priority_throw :
  forall (W : Type) (PR : ProjectRepository W) (taskId : string)
         (numberOf : Execution -> Z) (param : Execution) (w : W)
         (e : Js.Thrown),
    In e (Log.thrown (Log.calls (CheckPriority.invoke taskId numberOf param w))) ->
    exists (priorityLabel step : string) (done : list Result),
      Log.returned (CheckPriority.invoke taskId numberOf param w)
      = Ok (done ++
            [{| result_id := taskId; success := false; executed := true;
                steps := Some [step];
                errors := Some [Js.nullish (Js.optToString e) "Unknown error"] |}])%list
      /\ Js.includes step "problem" = true
      /\ done = map (CheckPriority.prioritySet taskId priorityLabel)
                  (Log.boardsAnswering true
                     (Log.calls (CheckPriority.invoke taskId numberOf param w)))
      /\ Forall (fun r => success r = true /\ executed r = true) done
      /\ (Log.boardsAnswering true
            (Log.calls (CheckPriority.invoke taskId numberOf param w)) = []
          -> done = [])
      /\ forallb Log.isSetTaskPriority
           (Log.calls (CheckPriority.invoke taskId numberOf param w)) = true.
Proof.
  intros W PR taskId numberOf param w e Hin.
  destruct (check_priority_runs taskId numberOf param w)
    as [Hskip | (priorityLabel & _ & Hret & Hone & Hall)].
  - rewrite Hskip in Hin. destruct Hin.
  - destruct (Log.thrown (Log.calls (CheckPriority.invoke taskId numberOf param w)))
      as [|e1 [|e2 more]] eqn:Hthrown; cbn in Hone; [destruct Hin | | lia].
    destruct Hin as [-> | []].
    exists priorityLabel,
      "Tried to check the priority of the issue, but there was a problem.",
      (map (CheckPriority.prioritySet taskId priorityLabel)
         (Log.boardsAnswering true
            (Log.calls (CheckPriority.invoke taskId numberOf param w)))).
    split; [exact Hret|]. split; [reflexivity|]. split; [reflexivity|].
    split; [|split; [|exact Hall]].
    + apply Forall_forall. intros r Hr. apply in_map_iff in Hr.
      destruct Hr as (p & <- & _). split; reflexivity.
    + intros ->. reflexivity.
Qed.

(** Three boards: the call returns [true], then [false], then throws. *)
Lemma check_priority_throw_witness :
  exists (priorityLabel step : string) (done : list Result),
    Log.returned
      (CheckPriorityPullRequestSizeUseCase_invoke
         (PR := Mock.boardRepository [Ok true; Ok false; Throw Mock.apiError])
         (Mock.execution "P1" true
            [Mock.board "A" 1; Mock.board "B" 2; Mock.board "C" 3]) 0%nat)
    = Ok (done ++
          [{| result_id := "CheckPriorityPullRequestSizeUseCase";
              success := false; executed := true;
              steps := Some [step];
              errors := Some ["Error: API error"] |}])%list
    /\ Js.includes step "problem" = true
    /\ done = map (CheckPriority.prioritySet
                     "CheckPriorityPullRequestSizeUseCase" priorityLabel)
                [Mock.board "A" 1]
    /\ Forall (fun r => success r = true /\ executed r = true) done
    /\ (Log.boardsAnswering true
          [ EvSetTaskPriority (Mock.board "A" 1) "o" "r" 2 "P1" "t" (Ok true);
            EvSetTaskPriority (Mock.board "B" 2) "o" "r" 2 "P1" "t" (Ok false);
            EvSetTaskPriority (Mock.board "C" 3) "o" "r" 2 "P1" "t"
              (Throw Mock.apiError) ] = []
        -> done = [])
    /\ forallb Log.isSetTaskPriority
         [ EvSetTaskPriority (Mock.board "A" 1) "o" "r" 2 "P1" "t" (Ok true);
           EvSetTaskPriority (Mock.board "B" 2) "o" "r" 2 "P1" "t" (Ok false);
           EvSetTaskPriority (Mock.board "C" 3) "o" "r" 2 "P1" "t"
             (Throw Mock.apiError) ] = true.
Proof.
  apply (check_priority_throw Mock.World
           (Mock.boardRepository [Ok true; Ok false; Throw Mock.apiError])
           "CheckPriorityPullRequestSizeUseCase" pullRequestNumber
           (Mock.execution "P1" true
              [Mock.board "A" 1; Mock.board "B" 2; Mock.board "C" 3])
           0%nat Mock.apiError).
  vm_compute. left. reflexivity.
Defined.

(* ================================================================== *)
(** ** MoveIssueToInProgressUseCase *)
(* ================================================================== *)

Section MoveIssueFacts.

Context {W : Type} {PR : ProjectRepository W}.

Lemma move_issue_forProjects (param : Execution) (columnName : string) :
  forall (ps : list ProjectDetail) (st st' : Eff.St W (list Result))
         (o : outcome unit),
    MoveIssueToInProgress.forProjects param columnName ps st = (o, st') ->
    exists evs : list Event,
      Eff.events st' = (Eff.events st ++ evs)%list
      /\ Eff.locals st'
         = (Eff.locals st
              ++ map (MoveIssueToInProgress.moved columnName)
                   (Log.boardsAnswering true evs))%list
      /\ forallb Log.isMoveIssueToColumn evs = true
      /\ match o with
         | Ok _ => Log.thrown evs = [] /\ flat_map Log.board evs = ps
         | Throw e =>
             Log.thrown evs = [e]
             /\ exists rest, ps = (flat_map Log.board evs ++ rest)%list
         end.
Proof.
  induction ps as [|project rest IH]; intros st st' o Hrun.
  - inversion Hrun; subst. exists []. rewrite !app_nil_r. repeat split.
  - cbn [MoveIssueToInProgress.forProjects] in Hrun.
    unfold Eff.bind, MoveIssueToInProgress.callMoveIssueToColumn,
      Eff.perform in Hrun.
    board_loop_step IH Hrun rest.
Qed.

(** The boards that got a [true] or a [false] are among the boards called. *)
Lemma boardsAnswering_length (evs : list Event) :
  (length (Log.boardsAnswering true evs)
   + length (Log.boardsAnswering false evs)
   <= length (flat_map Log.board evs))%nat.
Proof.
  induction evs as [|ev evs IH]; [reflexivity|].
  unfold Log.boardsAnswering in *. cbn [flat_map]. rewrite !length_app.
  revert IH.
  generalize (length (flat_map Log.board evs)).
  do 2 match goal with
       | |- context [length (flat_map ?f evs)] =>
           generalize (length (flat_map f evs))
       end.
  intros a b c IH.
  destruct ev; cbn; try lia; destruct out as [[|]|]; cbn; lia.
Qed.

End MoveIssueFacts.

(** C8.  [MoveIssueToInProgressUseCase.invoke] calls the move endpoint for
    the linked boards in order (for all of them unless a call throws).  It
    returns exactly one Result for each board whose call returned [true]:
    success true, executed true and one step, which contains the board's
    title and its publicUrl.  A board whose call returned [false] gets no
    Result, and the only other Result is the failure entry of a call that
    threw.  So when nothing throws, the array has as many entries as there
    were [true] answers, at most one per board, and can be shorter than the
    list of boards: with two boards answering [true] and [false] it has one
    entry. *)
Theorem move_issue_results :
  (forall (W : Type) (PR : ProjectRepository W) (param : Execution) (w : W),
      Log.returned (MoveIssueToInProgress.invoke param w)
      = Ok (map (MoveIssueToInProgress.moved (columnInProgress param))
              (Log.boardsAnswering true
                 (Log.calls (MoveIssueToInProgress.invoke param w)))
            ++ map (MoveIssueToInProgress.failed (columnInProgress param))
                 (Log.thrown
                    (Log.calls (MoveIssueToInProgress.invoke param w))))%list
      /\ (exists rest : list ProjectDetail,
             projects param
             = (flat_map Log.board
                  (Log.calls (MoveIssueToInProgress.invoke param w))
                ++ rest)%list
             /\ match Log.thrown
                        (Log.calls (MoveIssueToInProgress.invoke param w))
                with
                | [] => rest = []
                | _ :: _ => True
                end)
      /\ (length (Log.boardsAnswering true
                    (Log.calls (MoveIssueToInProgress.invoke param w)))
          + length (Log.boardsAnswering false
                      (Log.calls (MoveIssueToInProgress.invoke param w)))
          <= length (projects param))%nat
      /\ forallb Log.isMoveIssueToColumn
           (Log.calls (MoveIssueToInProgress.invoke param w)) = true)
  /\ (forall (columnName : string) (project : ProjectDetail),
         exists step : string,
           MoveIssueToInProgress.moved columnName project
           = {| result_id := "MoveIssueToInProgressUseCase";
                success := true; executed := true;
                steps := Some [step]; errors := None |}
           /\ Js.includes step (title project) = true
           /\ Js.includes step (publicUrl project) = true)
  /\ Log.returned
       (MoveIssueToInProgress.invoke
          (PR := Mock.boardRepository [Ok true; Ok false])
          (Mock.execution "P0" true [Mock.board "A" 1; Mock.board "B" 2])
          0%nat)
     = Ok [MoveIssueToInProgress.moved "In Progress" (Mock.board "A" 1)].
Proof.
  split; [|split; [|reflexivity]].
  - intros W PR param w.
    unfold MoveIssueToInProgress.invoke, MoveIssueToInProgress.program,
      Eff.run, Eff.bind, Eff.tryCatch.
    destruct (MoveIssueToInProgress.forProjects param (columnInProgress param)
                (projects param) (Eff.mkSt w [] [])) as [o st'] eqn:Hrun.
    apply move_issue_forProjects in Hrun.
    destruct Hrun as (evs & Hev & Hloc & Hall & Hout). cbn in Hev, Hloc.
    pose proof (boardsAnswering_length evs) as Hlen.
    destruct o as [u | e]; unfold Log.returned, Log.calls;
      cbn -[Log.thrown Log.boardsAnswering forallb]; rewrite Hev, Hloc.
    + destruct Hout as [Ht Hb]. rewrite Ht, Hb in *. cbn [map].
      rewrite app_nil_r. split; [reflexivity|].
      split; [|split; [exact Hlen | exact Hall]].
      exists []. rewrite app_nil_r. auto.
    + destruct Hout as [Ht [rest Hb]]. rewrite Ht. cbn [map].
      split; [reflexivity|]. split; [|split; [|exact Hall]].
      * exists rest. split; [exact Hb | exact I].
      * rewrite Hb, length_app. lia.
  - intros columnName project. eexists. split; [reflexivity|]. split.
    + do 2 apply includes_after. apply includes_append.
    + do 4 apply includes_after. apply includes_append.
Qed.

(* ================================================================== *)
(** ** InitialSetupUseCase *)
(* ================================================================== *)

(** The gate rejects the placeholder, anything that starts like it and
    anything shorter than 20 characters; an accepted environment token wins
    over the .env file. *)
Lemma token_gate_rejects :
  SetupToken.hasValidSetupToken (Some "github_pat_11..") None = false
  /\ SetupToken.hasValidSetupToken None (Some "github_pat_11..xxxxxxxxxxxxxxxx")
     = false
  /\ SetupToken.hasValidSetupToken (Some "short-token") None = false
  /\ SetupToken.hasValidSetupToken None None = false
  /\ SetupToken.getSetupToken (Some " ghp_0123456789abcdefghij ")
       (Some "ghp_zyxwvutsrqponmlkjihg")
     = Some "ghp_0123456789abcdefghij"
  /\ SetupToken.getSetupToken (Some "short-token")
       (Some "ghp_zyxwvutsrqponmlkjihg")
     = Some "ghp_zyxwvutsrqponmlkjihg".
Proof. repeat split. Qed.

(** [invoke] is a straight-line program: a run is determined by how each
    collaborator call ends, in turn.  [setup_cases] walks through them. *)
Ltac setup_case call :=
  let o := fresh "o" in
  let w := fresh "w" in
  destruct call as [o w]; destruct o; cbn.

Ltac setup_step :=
  match goal with
  | |- context [ensureGitHubDirs ?w] => is_var w; setup_case (ensureGitHubDirs w)
  | |- context [copySetupFiles ?w] => is_var w; setup_case (copySetupFiles w)
  | |- context [hasValidSetupToken ?w] =>
      is_var w; setup_case (hasValidSetupToken w)
  | |- context [getUserFromToken ?t ?w] =>
      is_var w; setup_case (getUserFromToken t w)
  | |- context [repoEnsureLabels ?a ?b ?c ?w] =>
      is_var w; setup_case (repoEnsureLabels a b c w)
  | |- context [repoEnsureProgressLabels ?a ?b ?c ?w] =>
      is_var w; setup_case (repoEnsureProgressLabels a b c w)
  | |- context [repoEnsureIssueTypes ?a ?b ?w] =>
      is_var w; setup_case (repoEnsureIssueTypes a b w)
  | |- context [if negb ?b then _ else _] => is_var b; destruct b; cbn
  | |- context [batch_errors ?r] => is_var r; destruct r as [? ? [|? ?]]; cbn
  end.

Ltac setup_cases :=
  unfold Log.returned, Log.calls, InitialSetup.invoke, InitialSetup.program,
    InitialSetup.tryBlock, InitialSetup.reconcile,
    InitialSetup.verifyGitHubAccess, InitialSetup.ensureLabels,
    InitialSetup.ensureProgressLabels, InitialSetup.ensureIssueTypes,
    InitialSetup.pushStep, InitialSetup.pushErrors, InitialSetup.pushFailure,
    InitialSetup.pushFinal, Eff.run, Eff.bind, Eff.tryCatch, Eff.perform,
    Eff.ret, Eff.modify, Eff.getLocals;
  cbn; repeat setup_step.

(** One pass over the runs of [invoke]: the single Result, and the [errors]
    array next to the log of the calls. *)
Lemma initial_setup_run :
  forall (W : Type) (PR : ProjectRepository W) (SF : SetupFiles W)
         (IR : IssueRepository W) (param : Execution) (w : W),
  exists (r : Result) (st : Eff.St W InitialSetup.Locals),
    Eff.run (InitialSetup.program param) (InitialSetup.mkLocals [] [] []) w
    = (Ok [r], st)
    /\ executed r = true
    /\ InitialSetup.errorsAcc (Eff.locals st) = Log.setupErrors (Eff.events st)
    /\ success r
       = match InitialSetup.errorsAcc (Eff.locals st) with
         | [] => true
         | _ :: _ => false
         end
    /\ errors r
       = match InitialSetup.errorsAcc (Eff.locals st) with
         | [] => None
         | e :: es => Some (e :: es)
         end.
Proof.
  intros W PR SF IR param w.
  unfold InitialSetup.program, InitialSetup.tryBlock, InitialSetup.reconcile,
    InitialSetup.verifyGitHubAccess, InitialSetup.ensureLabels,
    InitialSetup.ensureProgressLabels, InitialSetup.ensureIssueTypes,
    InitialSetup.pushStep, InitialSetup.pushErrors, InitialSetup.pushFailure,
    InitialSetup.pushFinal, Eff.run, Eff.bind, Eff.tryCatch, Eff.perform,
    Eff.ret, Eff.modify, Eff.getLocals;
    cbn; repeat setup_step.
  all: eexists; eexists; split; [reflexivity|]; split; [reflexivity|].
  all: unfold Log.setupErrors;
    cbn [Eff.locals Eff.events InitialSetup.errorsAcc flat_map Log.setupError
         Log.stageErrors batch_errors app].
  all: rewrite ?app_nil_r, <- ?app_assoc.
  all: cbn [app]; repeat (split; [reflexivity|]).
  all: reflexivity.
Qed.

(** C9.  [InitialSetupUseCase.invoke] always returns exactly one Result,
    and that Result reports what the run accumulated.  The [errors] array
    at the time of return holds the errors of the calls made, in call
    order: the token message of a gate that answered [false], the message
    of a failed access check, the errors of each reconciliation stage, the
    message of the top-level [catch].  The success of the Result is true
    if and only if that array is empty; its errors field is omitted when
    the array is empty and is the array otherwise.  So if success is true
    the errors field is omitted, and if success is false it is present and
    not empty, on every path: token gate, GitHub access failure, completion
    and top-level catch.  When the labels stage reports an error and the
    progress-labels stage throws, the Result is a failure with those two
    errors. *)
Theorem initial_setup_success_iff_no_errors :
  (forall (W : Type) (PR : ProjectRepository W) (SF : SetupFiles W)
          (IR : IssueRepository W) (param : Execution) (w : W),
      exists r : Result,
        Log.returned (InitialSetup.invoke param w) = Ok [r]
        /\ executed r = true
        /\ InitialSetup.errorsAtReturn param w
           = Log.setupErrors (Log.calls (InitialSetup.invoke param w))
        /\ success r
           = match InitialSetup.errorsAtReturn param w with
             | [] => true
             | _ :: _ => false
             end
        /\ errors r
           = match InitialSetup.errorsAtReturn param w with
             | [] => None
             | e :: es => Some (e :: es)
             end
        /\ errorsOf r = InitialSetup.errorsAtReturn param w
        /\ (if success r
            then errors r = None /\ errorsOf r = []
            else exists (e : string) (es : list string),
                   errors r = Some (e :: es) /\ errorsOf r = e :: es))
  /\ (exists r : Result,
        Log.returned
          (InitialSetup.invoke (PR := Mock.boardRepository [])
             (SF := Mock.filesReady) (IR := Mock.labelsFailing)
             (Mock.execution "P0" true []) 0%nat) = Ok [r]
        /\ success r = false
        /\ errors r
           = Some ["Label error";
                   "Error asegurando progress labels: Error: API error"]).
Proof.
  split.
  - intros W PR SF IR param w.
    destruct (initial_setup_run W PR SF IR param w)
      as (r & st & Hrun & Hexec & Hacc & Hsuccess & Herrors).
    unfold InitialSetup.invoke, InitialSetup.errorsAtReturn, Log.returned,
      Log.calls.
    rewrite Hrun. cbn [fst snd]. exists r.
    split; [reflexivity|]. split; [exact Hexec|]. split; [exact Hacc|].
    split; [exact Hsuccess|]. split; [exact Herrors|].
    unfold errorsOf. rewrite Hsuccess, Herrors.
    destruct (InitialSetup.errorsAcc (Eff.locals st)) as [|e es]; cbn; eauto.
  - eexists. split; [vm_compute; reflexivity|]. split; reflexivity.
Qed.

(** C3, as stated, fails: the token gate is not the only stage that aborts
    the sequence.  Here the setup files are copied and the token gate
    passes, but [getUserFromToken] throws: [invoke] returns at once with a
    single failure Result, and none of the label, progress-label and
    issue-type stages is run. *)
Lemma initial_setup_stages_counterexample :
  InitialSetup.invoke (PR := Mock.accessDenied) (SF := Mock.filesReady)
    (IR := Mock.labelsInPlace) (Mock.execution "P0" true []) 0%nat
  = (Ok [ {| result_id := "InitialSetupUseCase";
             success := false; executed := true;
             steps := Some ["✅ Setup files: 2 copied, 0 already existed"];
             errors := Some ["No se pudo verificar el acceso a GitHub: Error: Invalid token"] |} ],
     ([ EvEnsureGitHubDirs (Ok tt);
        EvCopySetupFiles (Ok (mkCopyResult 2 0));
        EvHasValidSetupToken (Ok true);
        EvGetUserFromToken "t" (Throw (Js.ThrownError None "Invalid token")) ],
      4%nat))
  /\ existsb Log.isReconcileStage
       (Log.calls
          (InitialSetup.invoke (PR := Mock.accessDenied) (SF := Mock.filesReady)
             (IR := Mock.labelsInPlace) (Mock.execution "P0" true []) 0%nat))
     = false.
Proof. split; reflexivity. Qed.

(** C3, amended.  [InitialSetupUseCase.invoke] returns a single Result in
    every case, and:
    - once GitHub access is verified, the label, progress-label and
      issue-type stages are all run, in that order, however each of them
      ends; the errors of the Result are the errors of the three stages in
      that order (the errors a batch reports, or one message when the call
      throws);
    - a token gate that answers [false] ends the sequence with a failure
      Result, and no later call is made;
    - so does a failed GitHub access check: failure Result, none of the
      three reconciliation stages is run;
    - and so does an exception thrown while preparing or copying the setup
      files or reading the token: it reaches the top-level catch. *)
Theorem initial_setup_stages :
  forall (W : Type) (PR : ProjectRepository W) (SF : SetupFiles W)
         (IR : IssueRepository W) (param : Execution) (w : W),
    (forall user : string,
        In (EvGetUserFromToken (token param) (Ok user))
          (Log.calls (InitialSetup.invoke param w)) ->
        exists (o1 o2 o3 : outcome BatchResult) (r : Result),
          filter Log.isReconcileStage (Log.calls (InitialSetup.invoke param w))
          = [ EvEnsureLabels (exec_owner param) (exec_repo param)
                (token param) o1;
              EvEnsureProgressLabels (exec_owner param) (exec_repo param)
                (token param) o2;
              EvEnsureIssueTypes (exec_owner param) (token param) o3 ]
          /\ Log.returned (InitialSetup.invoke param w) = Ok [r]
          /\ errorsOf r
             = (Log.stageErrors "Error asegurando labels: " o1
                ++ Log.stageErrors "Error asegurando progress labels: " o2
                ++ Log.stageErrors "Error asegurando tipos de Issue: " o3)%list)
    /\ (In (EvHasValidSetupToken (Ok false))
          (Log.calls (InitialSetup.invoke param w)) ->
        exists r : Result,
          Log.returned (InitialSetup.invoke param w) = Ok [r]
          /\ success r = false
          /\ errorsOf r
             = ["PERSONAL_ACCESS_TOKEN must be set (environment or .env) with a valid token to run setup."]
          /\ existsb Log.isPastTokenGate
               (Log.calls (InitialSetup.invoke param w)) = false)
    /\ (forall e : Js.Thrown,
          In (EvGetUserFromToken (token param) (Throw e))
            (Log.calls (InitialSetup.invoke param w)) ->
          exists r : Result,
            Log.returned (InitialSetup.invoke param w) = Ok [r]
            /\ success r = false
            /\ errorsOf r
               = [("No se pudo verificar el acceso a GitHub: "
                     ++ Js.render e)%string]
            /\ existsb Log.isReconcileStage
                 (Log.calls (InitialSetup.invoke param w)) = false)
    /\ (forall e : Js.Thrown,
          In (EvEnsureGitHubDirs (Throw e))
            (Log.calls (InitialSetup.invoke param w))
          \/ In (EvCopySetupFiles (Throw e))
               (Log.calls (InitialSetup.invoke param w))
          \/ In (EvHasValidSetupToken (Throw e))
               (Log.calls (InitialSetup.invoke param w)) ->
          exists r : Result,
            Log.returned (InitialSetup.invoke param w) = Ok [r]
            /\ success r = false
            /\ errorsOf r
               = [("Error ejecutando setup inicial: " ++ Js.render e)%string]
            /\ existsb Log.isPastTokenGate
                 (Log.calls (InitialSetup.invoke param w)) = false).
Proof.
  intros W PR SF IR param w. setup_cases.
  all: (split; [|split; [|split]]).
  all: intros; cbn in *;
    repeat match goal with
           | H : _ \/ _ |- _ => destruct H
           | H : False |- _ => destruct H
           | H : @eq Event _ _ |- _ => first [discriminate H | injection H as ->]
           end.
  all: repeat eexists; cbn; rewrite <- ?app_assoc, ?app_nil_r; reflexivity.
Qed.

(** Four runs: the label stages failing after a verified access, a token
    gate answering [false], a rejected token, a failing copy. *)
Lemma initial_setup_stages_witness :
  (exists (o1 o2 o3 : outcome BatchResult) (r : Result),
      filter Log.isReconcileStage
        (Log.calls
           (InitialSetup.invoke (PR := Mock.boardRepository [])
              (SF := Mock.filesReady) (IR := Mock.labelsFailing)
              (Mock.execution "P0" true []) 0%nat))
      = [ EvEnsureLabels "o" "r" "t" o1; EvEnsureProgressLabels "o" "r" "t" o2;
          EvEnsureIssueTypes "o" "t" o3 ]
      /\ Log.returned
           (InitialSetup.invoke (PR := Mock.boardRepository [])
              (SF := Mock.filesReady) (IR := Mock.labelsFailing)
              (Mock.execution "P0" true []) 0%nat)
         = Ok [r]
      /\ errorsOf r
         = (Log.stageErrors "Error asegurando labels: " o1
            ++ Log.stageErrors "Error asegurando progress labels: " o2
            ++ Log.stageErrors "Error asegurando tipos de Issue: " o3)%list)
  /\ (exists r : Result,
        Log.returned
          (InitialSetup.invoke (PR := Mock.boardRepository [])
             (SF := Mock.tokenMissing) (IR := Mock.labelsInPlace)
             (Mock.execution "P0" true []) 0%nat)
        = Ok [r]
        /\ success r = false
        /\ errorsOf r
           = ["PERSONAL_ACCESS_TOKEN must be set (environment or .env) with a valid token to run setup."]
        /\ existsb Log.isPastTokenGate
             (Log.calls
                (InitialSetup.invoke (PR := Mock.boardRepository [])
                   (SF := Mock.tokenMissing) (IR := Mock.labelsInPlace)
                   (Mock.execution "P0" true []) 0%nat))
           = false)
  /\ (exists r : Result,
        Log.returned
          (InitialSetup.invoke (PR := Mock.accessDenied)
             (SF := Mock.filesReady) (IR := Mock.labelsInPlace)
             (Mock.execution "P0" true []) 0%nat)
        = Ok [r]
        /\ success r = false
        /\ errorsOf r
           = ["No se pudo verificar el acceso a GitHub: Error: Invalid token"]
        /\ existsb Log.isReconcileStage
             (Log.calls
                (InitialSetup.invoke (PR := Mock.accessDenied)
                   (SF := Mock.filesReady) (IR := Mock.labelsInPlace)
                   (Mock.execution "P0" true []) 0%nat))
           = false)
  /\ (exists r : Result,
        Log.returned
          (InitialSetup.invoke (PR := Mock.boardRepository [])
             (SF := Mock.copyFailing) (IR := Mock.labelsInPlace)
             (Mock.execution "P0" true []) 0%nat)
        = Ok [r]
        /\ success r = false
        /\ errorsOf r = ["Error ejecutando setup inicial: Error: API error"]
        /\ existsb Log.isPastTokenGate
             (Log.calls
                (InitialSetup.invoke (PR := Mock.boardRepository [])
                   (SF := Mock.copyFailing) (IR := Mock.labelsInPlace)
                   (Mock.execution "P0" true []) 0%nat))
           = false).
Proof.
  split; [|split; [|split]].
  - apply (proj1 (initial_setup_stages Mock.World (Mock.boardRepository [])
                    Mock.filesReady Mock.labelsFailing
                    (Mock.execution "P0" true []) 0%nat) "octocat").
    vm_compute. tauto.
  - apply (proj1 (proj2 (initial_setup_stages Mock.World
                           (Mock.boardRepository []) Mock.tokenMissing
                           Mock.labelsInPlace
                           (Mock.execution "P0" true []) 0%nat))).
    vm_compute. tauto.
  - apply (proj1 (proj2 (proj2 (initial_setup_stages Mock.World
                                  Mock.accessDenied Mock.filesReady
                                  Mock.labelsInPlace
                                  (Mock.execution "P0" true []) 0%nat)))
             (Js.ThrownError None "Invalid token")).
    vm_compute. tauto.
  - apply (proj2 (proj2 (proj2 (initial_setup_stages Mock.World
                                  (Mock.boardRepository []) Mock.copyFailing
                                  Mock.labelsInPlace
                                  (Mock.execution "P0" true []) 0%nat)))
             Mock.apiError).
    vm_compute. tauto.
Defined.

(* ================================================================== *)
(** ** IssueRepository: ensureLabel *)
(* ================================================================== *)

(** C1.  [ensureLabel(owner, repo, name, color, description, token)], run
    on any world from an empty log:
    - with a name that is empty or white space only, it returns
      {created: false, existed: false} and makes no call;
    - otherwise it lists the labels; if one matches the name up to letter
      case, it returns {created: false, existed: true} and the listing is
      its only call (no create call);
    - if none matches, it calls the create endpoint once; when that call
      returns, the result is {created: true, existed: false};
    - when that call throws with HTTP status 422, the result is
      {created: false, existed: true}, returned and not thrown. *)
Theorem ensureLabel_contract :
  forall (W : Type) (OK : Octokit W)
         (owner repo name color description token : string) (w : W),
    (Js.trim name = "" ->
     Eff.run (IssueRepo.ensureLabel owner repo name color description token)
       tt w
     = (Ok {| created := false; existed := false |}, Eff.mkSt w [] tt))
    /\ (forall (existing : list LabelInfo) (w1 : W),
           Js.trim name <> "" ->
           listLabelsForRepo owner repo token w = (Ok existing, w1) ->
           existsb (fun l => IssueRepo.sameName (label_name l) name) existing
           = true ->
           Eff.run (IssueRepo.ensureLabel owner repo name color description
                      token) tt w
           = (Ok {| created := false; existed := true |},
              Eff.mkSt w1
                [EvListLabelsForRepo owner repo token (Ok existing)] tt))
    /\ (forall (existing : list LabelInfo) (w1 w2 : W),
           Js.trim name <> "" ->
           listLabelsForRepo owner repo token w = (Ok existing, w1) ->
           existsb (fun l => IssueRepo.sameName (label_name l) name) existing
           = false ->
           createLabel owner repo name color description token w1
           = (Ok tt, w2) ->
           Eff.run (IssueRepo.ensureLabel owner repo name color description
                      token) tt w
           = (Ok {| created := true; existed := false |},
              Eff.mkSt w2
                [ EvListLabelsForRepo owner repo token (Ok existing);
                  EvCreateLabel owner repo name color description token
                    (Ok tt) ] tt))
    /\ (forall (existing : list LabelInfo) (w1 w2 : W) (e : Js.Thrown),
           Js.trim name <> "" ->
           listLabelsForRepo owner repo token w = (Ok existing, w1) ->
           existsb (fun l => IssueRepo.sameName (label_name l) name) existing
           = false ->
           createLabel owner repo name color description token w1
           = (Throw e, w2) ->
           Js.statusOf e = Some 422%Z ->
           Eff.run (IssueRepo.ensureLabel owner repo name color description
                      token) tt w
           = (Ok {| created := false; existed := true |},
              Eff.mkSt w2
                [ EvListLabelsForRepo owner repo token (Ok existing);
                  EvCreateLabel owner repo name color description token
                    (Throw e) ] tt)).
Proof.
  intros W OK owner repo name color description token w.
  unfold IssueRepo.ensureLabel, Eff.run.
  split; [|split; [|split]].
  - intros ->. reflexivity.
  - intros existing w1 Hname Hlist Hfound.
    rewrite (eqb_neq_false _ _ Hname).
    unfold Eff.bind, Eff.perform. cbn. rewrite Hlist, Hfound. reflexivity.
  - intros existing w1 w2 Hname Hlist Hfound Hcreate.
    rewrite (eqb_neq_false _ _ Hname).
    unfold Eff.bind, Eff.perform, Eff.tryCatch. cbn.
    rewrite Hlist, Hfound. cbn. rewrite Hcreate. reflexivity.
  - intros existing w1 w2 e Hname Hlist Hfound Hcreate Hstatus.
    rewrite (eqb_neq_false _ _ Hname).
    unfold Eff.bind, Eff.perform, Eff.tryCatch, IssueRepo.alreadyExists. cbn.
    rewrite Hlist, Hfound. cbn. rewrite Hcreate, Hstatus. reflexivity.
Qed.

(** The four cases of the unit tests: a blank name; 'existing' against a
    live label 'Existing'; a new label; a new label whose creation is
    answered with 422. *)
Lemma ensureLabel_contract_witness :
  Eff.run (W := Mock.World)
    (IssueRepo.ensureLabel (OK := Mock.labelsRepo [] (Ok tt) [])
       "o" "r" "  " "abc" "d" "token") tt 0%nat
  = (Ok {| created := false; existed := false |}, Eff.mkSt 0%nat [] tt)
  /\ Eff.run (W := Mock.World)
       (IssueRepo.ensureLabel
          (OK := Mock.labelsRepo [mkLabelInfo "Existing" "x" None] (Ok tt) [])
          "o" "r" "existing" "abc" "Desc" "token") tt 0%nat
     = (Ok {| created := false; existed := true |},
        Eff.mkSt 1%nat
          [EvListLabelsForRepo "o" "r" "token"
             (Ok [mkLabelInfo "Existing" "x" None])] tt)
  /\ Eff.run (W := Mock.World)
       (IssueRepo.ensureLabel (OK := Mock.labelsRepo [] (Ok tt) [])
          "o" "r" "new-label" "abc" "Desc" "token") tt 0%nat
     = (Ok {| created := true; existed := false |},
        Eff.mkSt 2%nat
          [ EvListLabelsForRepo "o" "r" "token" (Ok []);
            EvCreateLabel "o" "r" "new-label" "abc" "Desc" "token" (Ok tt) ]
          tt)
  /\ Eff.run (W := Mock.World)
       (IssueRepo.ensureLabel
          (OK := Mock.labelsRepo [] (Throw Mock.conflict) [])
          "o" "r" "new" "abc" "d" "token") tt 0%nat
     = (Ok {| created := false; existed := true |},
        Eff.mkSt 2%nat
          [ EvListLabelsForRepo "o" "r" "token" (Ok []);
            EvCreateLabel "o" "r" "new" "abc" "d" "token"
              (Throw Mock.conflict) ] tt).
Proof.
  split; [|split; [|split]].
  - apply (proj1 (ensureLabel_contract Mock.World
                    (Mock.labelsRepo [] (Ok tt) [])
                    "o" "r" "  " "abc" "d" "token" 0%nat)).
    reflexivity.
  - apply (proj1 (proj2 (ensureLabel_contract Mock.World
                           (Mock.labelsRepo [mkLabelInfo "Existing" "x" None]
                              (Ok tt) [])
                           "o" "r" "existing" "abc" "Desc" "token" 0%nat))
             [mkLabelInfo "Existing" "x" None] 1%nat).
    + discriminate.
    + reflexivity.
    + reflexivity.
  - apply (proj1 (proj2 (proj2 (ensureLabel_contract Mock.World
                                  (Mock.labelsRepo [] (Ok tt) [])
                                  "o" "r" "new-label" "abc" "Desc" "token"
                                  0%nat)))
             [] 1%nat 2%nat).
    + discriminate.
    + reflexivity.
    + reflexivity.
    + reflexivity.
  - apply (proj2 (proj2 (proj2 (ensureLabel_contract Mock.World
                                  (Mock.labelsRepo [] (Throw Mock.conflict) [])
                                  "o" "r" "new" "abc" "d" "token" 0%nat)))
             [] 1%nat 2%nat Mock.conflict).
    + discriminate.
    + reflexivity.
    + reflexivity.
    + reflexivity.
    + reflexivity.
Defined.

(* ================================================================== *)
(** ** IssueRepository: setProgressLabel *)
(* ================================================================== *)

Lemma digitsThenPercent_spec (s : string) :
  Js.digitsThenPercent s = true <->
  exists ds : string, Js.allDigits ds = true /\ s = (ds ++ "%")%string.
Proof.
  induction s as [|c s IH]; cbn [Js.digitsThenPercent].
  - split; [discriminate|]. intros ([|d ds] & _ & H); discriminate H.
  - destruct (Js.isDigit c) eqn:Hc.
    + rewrite IH. split.
      * intros (ds & Hds & ->). exists (String c ds). cbn. rewrite Hc, Hds. auto.
      * intros ([|d ds] & Hds & H); cbn in H; injection H as -> ->.
        -- discriminate Hc.
        -- cbn in Hds. apply andb_true_iff in Hds. exists ds. tauto.
    + rewrite andb_true_iff, Ascii.eqb_eq, String.eqb_eq. split.
      * intros [-> ->]. exists "". auto.
      * intros ([|d ds] & Hds & H); cbn in H; injection H as -> ->; [auto|].
        cbn in Hds. rewrite Hc in Hds. discriminate Hds.
Qed.

(** [Js.matchesPercent] is the pattern [^\d+%$]: one or more digits, a
    percent sign, and nothing else. *)
Lemma matchesPercent_spec (s : string) :
  Js.matchesPercent s = true <->
  exists (d : ascii) (ds : string),
    Js.isDigit d = true /\ Js.allDigits ds = true
    /\ s = String d (ds ++ "%")%string.
Proof.
  destruct s as [|c s]; cbn [Js.matchesPercent].
  - split; [discriminate|]. intros (d & ds & _ & _ & H). discriminate H.
  - rewrite andb_true_iff, digitsThenPercent_spec. split.
    + intros (Hc & ds & Hds & ->). exists c, ds. auto.
    + intros (d & ds & Hd & Hds & H). injection H as -> ->. eauto.
Qed.

(** C5.  [setProgressLabel] on an issue whose current labels are fetched
    as [current]: it makes exactly two calls, the fetch and then one write
    ([setLabels]) of the whole label set, which is [current] without the
    labels matching [^\d+%$], followed by the new percentage label; the
    labels that do not match are kept, in order.  With current labels
    ['50%', 'feature'] and the target 75 the write carries
    ['feature', '75%']. *)
Theorem setProgressLabel_write :
  forall (W : Type) (OK : Octokit W) (owner repo : string) (issue progress : Z)
         (token : string) (w w1 : W) (current : list string),
    listLabelsOnIssue owner repo issue token w = (Ok current, w1) ->
    exists (o : outcome unit) (w2 : W),
      setLabels owner repo issue
        (filter (fun l => negb (Js.matchesPercent l)) current
           ++ [(Js.numberToString progress ++ "%")%string])%list
        token w1 = (o, w2)
      /\ Eff.run (IssueRepo.setProgressLabel owner repo issue progress token)
           tt w
         = (o,
            Eff.mkSt w2
              [ EvListLabelsOnIssue owner repo issue token (Ok current);
                EvSetLabels owner repo issue
                  (filter (fun l => negb (Js.matchesPercent l)) current
                     ++ [(Js.numberToString progress ++ "%")%string])%list
                  token o ] tt)
      /\ length
           (filter Log.isSetLabels
              (Eff.events
                 (snd (Eff.run
                         (IssueRepo.setProgressLabel owner repo issue progress
                            token) tt w)))) = 1%nat.
Proof.
  intros W OK owner repo issue progress token w w1 current Hfetch.
  destruct (setLabels owner repo issue
              (filter (fun l => negb (Js.matchesPercent l)) current
                 ++ [(Js.numberToString progress ++ "%")%string])%list
              token w1) as [o w2] eqn:Hwrite.
  exists o, w2. split; [reflexivity|].
  assert (Hrun :
    Eff.run (IssueRepo.setProgressLabel owner repo issue progress token) tt w
    = (o, Eff.mkSt w2
            [ EvListLabelsOnIssue owner repo issue token (Ok current);
              EvSetLabels owner repo issue
                (filter (fun l => negb (Js.matchesPercent l)) current
                   ++ [(Js.numberToString progress ++ "%")%string])%list
                token o ] tt)).
  { unfold IssueRepo.setProgressLabel, Eff.run, Eff.bind, Eff.perform. cbn.
    rewrite Hfetch. cbn. rewrite Hwrite. reflexivity. }
  rewrite Hrun. split; reflexivity.
Qed.

(** The unit test: labels ['50%', 'feature'], target 75. *)
Lemma setProgressLabel_write_witness :
  exists (o : outcome unit) (w2 : Mock.World),
    setLabels (Octokit := Mock.labelsRepo [] (Ok tt) ["50%"; "feature"])
      "o" "r" 1%Z ["feature"; "75%"] "token" 1%nat = (o, w2)
    /\ Eff.run
         (IssueRepo.setProgressLabel
            (OK := Mock.labelsRepo [] (Ok tt) ["50%"; "feature"])
            "o" "r" 1 75 "token") tt 0%nat
       = (o,
          Eff.mkSt w2
            [ EvListLabelsOnIssue "o" "r" 1 "token" (Ok ["50%"; "feature"]);
              EvSetLabels "o" "r" 1 ["feature"; "75%"] "token" o ] tt)
    /\ length
         (filter Log.isSetLabels
            (Eff.events
               (snd (Eff.run
                       (IssueRepo.setProgressLabel
                          (OK := Mock.labelsRepo [] (Ok tt) ["50%"; "feature"])
                          "o" "r" 1 75 "token") tt 0%nat)))) = 1%nat.
Proof.
  apply (setProgressLabel_write Mock.World
           (Mock.labelsRepo [] (Ok tt) ["50%"; "feature"])
           "o" "r" 1%Z 75%Z "token" 0%nat 1%nat ["50%"; "feature"]).
  reflexivity.
Defined.

(* ================================================================== *)
(** ** IssueRepository: the batch variants *)
(* ================================================================== *)

Section BatchFacts.

Context {W : Type} {OK : Octokit W} {E : Type}.
Variable ensure : E -> Eff.M W unit EnsureResult.

(** The accumulators after a batch are the accumulators before it plus what
    the outcomes of the entries amount to; the batch does not throw. *)
Lemma ensureEach_run :
  forall (entries : list E) (acc : BatchResult) (st : Eff.St W unit),
    IssueRepo.ensureEach ensure entries acc st
    = (Ok {| batch_created :=
               batch_created acc
               + IssueRepo.countOf IssueRepo.isCreated
                   (fst (IssueRepo.runEach ensure entries st));
             batch_existing :=
               batch_existing acc
               + IssueRepo.countOf IssueRepo.isExisting
                   (fst (IssueRepo.runEach ensure entries st));
             batch_errors :=
               batch_errors acc
               ++ IssueRepo.failureMessages
                    (fst (IssueRepo.runEach ensure entries st)) |},
       snd (IssueRepo.runEach ensure entries st)).
Proof.
  induction entries as [|entry rest IH]; intros acc st.
  - cbn. unfold Eff.ret, IssueRepo.countOf. cbn.
    rewrite !Z.add_0_r, app_nil_r. destruct acc; reflexivity.
  - cbn [IssueRepo.ensureEach IssueRepo.runEach].
    unfold Eff.bind, Eff.tryCatch, Eff.ret.
    destruct (ensure entry st) as [[r | e] st1]; rewrite IH;
      destruct (IssueRepo.runEach ensure rest st1) as [os st2];
      unfold IssueRepo.countOf, IssueRepo.failureMessages; cbn [fst snd].
    + unfold IssueRepo.tally. cbn [filter flat_map IssueRepo.isCreated
        IssueRepo.isExisting app].
      destruct (created r), (existed r); cbn [negb andb length batch_created
        batch_existing batch_errors]; f_equal; f_equal;
        first [reflexivity | f_equal; lia].
    + cbn [filter flat_map IssueRepo.isCreated IssueRepo.isExisting
        IssueRepo.collect batch_created batch_existing batch_errors].
      rewrite <- app_assoc. reflexivity.
Qed.

Lemma runEach_length :
  forall (entries : list E) (st : Eff.St W unit),
    length (fst (IssueRepo.runEach ensure entries st)) = length entries.
Proof.
  induction entries as [|entry rest IH]; intros st; [reflexivity|].
  cbn [IssueRepo.runEach]. destruct (ensure entry st) as [o st1].
  specialize (IH st1). destruct (IssueRepo.runEach ensure rest st1).
  cbn in *. now rewrite IH.
Qed.

Lemma ensureBatch_run (entries : list E) (w : W) :
  IssueRepo.ensureBatch ensure entries w
  = (Ok (IssueRepo.summary
           (fst (IssueRepo.runEach ensure entries (Eff.mkSt w [] tt)))),
     (Eff.events (snd (IssueRepo.runEach ensure entries (Eff.mkSt w [] tt))),
      Eff.remote (snd (IssueRepo.runEach ensure entries (Eff.mkSt w [] tt))))).
Proof.
  unfold IssueRepo.ensureBatch, Eff.run. rewrite ensureEach_run. reflexivity.
Qed.

End BatchFacts.

(** One error message per failing entry, and nothing is counted twice. *)
Lemma summary_counts (os : list (outcome EnsureResult)) :
  length (batch_errors (IssueRepo.summary os))
  = length (filter IssueRepo.isFailure os)
  /\ (batch_created (IssueRepo.summary os)
      + batch_existing (IssueRepo.summary os)
      + Z.of_nat (length (batch_errors (IssueRepo.summary os)))
      <= Z.of_nat (length os))%Z.
Proof.
  unfold IssueRepo.summary, IssueRepo.countOf, IssueRepo.failureMessages.
  cbn [batch_created batch_existing batch_errors].
  induction os as [|o os [IH1 IH2]]; [split; [reflexivity | cbn; lia]|].
  cbn [filter flat_map length]. rewrite length_app.
  destruct o as [[[|] [|]] | e];
    cbn [IssueRepo.isCreated IssueRepo.isExisting IssueRepo.isFailure
         created existed negb andb length];
    split; lia.
Qed.

Section BatchLog.

Context {W : Type} {OK : Octokit W} {E : Type}.
Variable ensure : E -> Eff.M W unit EnsureResult.
Variable named : E -> bool.

(** What the ensure of one entry adds to the log, read next to how it
    ended. *)
Hypothesis ensure_entry :
  forall (entry : E) (st : Eff.St W unit),
  exists segment : list Event,
    Eff.events (snd (ensure entry st)) = Eff.events st ++ segment
    /\ IssueRepo.failureMessages [fst (ensure entry st)]
       = flat_map IssueRepo.reported segment
    /\ IssueRepo.countOf IssueRepo.isCreated [fst (ensure entry st)]
       = Z.of_nat (length (filter IssueRepo.isCreation segment))
    /\ length (filter IssueRepo.isListing segment)
       = (if named entry then 1 else 0)%nat
    /\ (IssueRepo.countOf IssueRepo.isCreated [fst (ensure entry st)]
        + IssueRepo.countOf IssueRepo.isExisting [fst (ensure entry st)]
        + Z.of_nat (length (IssueRepo.failureMessages [fst (ensure entry st)]))
        = if named entry then 1 else 0)%Z.

Lemma runEach_log :
  forall (entries : list E) (st : Eff.St W unit),
  exists segments : list Event,
    Eff.events (snd (IssueRepo.runEach ensure entries st))
    = Eff.events st ++ segments
    /\ IssueRepo.failureMessages (fst (IssueRepo.runEach ensure entries st))
       = flat_map IssueRepo.reported segments
    /\ IssueRepo.countOf IssueRepo.isCreated
         (fst (IssueRepo.runEach ensure entries st))
       = Z.of_nat (length (filter IssueRepo.isCreation segments))
    /\ length (filter IssueRepo.isListing segments)
       = length (filter named entries)
    /\ (IssueRepo.countOf IssueRepo.isCreated
          (fst (IssueRepo.runEach ensure entries st))
        + IssueRepo.countOf IssueRepo.isExisting
            (fst (IssueRepo.runEach ensure entries st))
        + Z.of_nat (length (IssueRepo.failureMessages
                              (fst (IssueRepo.runEach ensure entries st))))
        = Z.of_nat (length (filter named entries)))%Z.
Proof.
  induction entries as [|entry rest IH]; intros st.
  - exists []. cbn. rewrite app_nil_r. auto.
  - cbn [IssueRepo.runEach].
    destruct (ensure_entry entry st) as (seg & Hev & Hmsg & Hcr & Hls & Hsum).
    destruct (ensure entry st) as [o st1]. cbn [fst snd] in *.
    destruct (IH st1) as (segs & Hev' & Hmsg' & Hcr' & Hls' & Hsum').
    destruct (IssueRepo.runEach ensure rest st1) as [os st2].
    cbn [fst snd] in *. exists (seg ++ segs).
    assert (Hcount : forall f,
      IssueRepo.countOf f (o :: os)
      = (IssueRepo.countOf f [o] + IssueRepo.countOf f os)%Z).
    { intros f. unfold IssueRepo.countOf. cbn [filter].
      destruct (f o); cbn [length]; lia. }
    assert (Hmsgs : IssueRepo.failureMessages (o :: os)
      = IssueRepo.failureMessages [o] ++ IssueRepo.failureMessages os).
    { unfold IssueRepo.failureMessages. cbn [flat_map].
      now rewrite app_nil_r. }
    rewrite !Hcount, Hmsgs, flat_map_app, !filter_app, !length_app.
    rewrite Hev', Hev, app_assoc, Hmsg, Hmsg', Hls, Hls'.
    split; [reflexivity|]. split; [reflexivity|].
    cbn [filter]. destruct (named entry); cbn [length] in *;
      repeat split; try lia.
    + rewrite Hmsg, Hmsg' in *. lia.
    + rewrite Hmsg, Hmsg' in *. lia.
Qed.

Lemma ensureBatch_log (entries : list E) (w : W) :
  exists r : BatchResult,
    Log.returned (IssueRepo.ensureBatch ensure entries w) = Ok r
    /\ batch_errors r
       = flat_map IssueRepo.reported
           (Log.calls (IssueRepo.ensureBatch ensure entries w))
    /\ batch_created r
       = Z.of_nat (length (filter IssueRepo.isCreation
                             (Log.calls (IssueRepo.ensureBatch ensure entries w))))
    /\ (batch_created r + batch_existing r
        + Z.of_nat (length (batch_errors r))
        = Z.of_nat (length (filter named entries)))%Z
    /\ length (filter IssueRepo.isListing
                 (Log.calls (IssueRepo.ensureBatch ensure entries w)))
       = length (filter named entries).
Proof.
  rewrite ensureBatch_run. unfold Log.returned, Log.calls. cbn [fst snd].
  destruct (runEach_log entries (Eff.mkSt w [] tt))
    as (segs & Hev & Hmsg & Hcr & Hls & Hsum).
  cbn [Eff.events app] in Hev. rewrite Hev.
  eexists. split; [reflexivity|].
  unfold IssueRepo.summary. cbn [batch_errors batch_created batch_existing].
  auto.
Qed.

End BatchLog.

Section EntryLog.

Context {W : Type} {OK : Octokit W}.

Lemma ensureLabel_entry (owner repo token : string) (l : LabelSpec)
    (st : Eff.St W unit) :
  let run := IssueRepo.ensureLabel owner repo (want_name l) (want_color l)
               (want_description l) token st in
  exists segment : list Event,
    Eff.events (snd run) = Eff.events st ++ segment
    /\ IssueRepo.failureMessages [fst run]
       = flat_map IssueRepo.reported segment
    /\ IssueRepo.countOf IssueRepo.isCreated [fst run]
       = Z.of_nat (length (filter IssueRepo.isCreation segment))
    /\ length (filter IssueRepo.isListing segment)
       = (if IssueRepo.named (want_name l) then 1 else 0)%nat
    /\ (IssueRepo.countOf IssueRepo.isCreated [fst run]
        + IssueRepo.countOf IssueRepo.isExisting [fst run]
        + Z.of_nat (length (IssueRepo.failureMessages [fst run]))
        = if IssueRepo.named (want_name l) then 1 else 0)%Z.
Proof.
  intros run. subst run.
  unfold IssueRepo.ensureLabel, IssueRepo.named, Eff.bind, Eff.tryCatch,
    Eff.perform, Eff.ret, Eff.throw.
  destruct (String.eqb (Js.trim (want_name l)) "");
    [exists []; cbn; rewrite app_nil_r; auto|].
  destruct (listLabelsForRepo owner repo token (Eff.remote st))
    as [[existing|e] w1]; cbn [negb];
    [|eexists; split; [reflexivity|]; cbn; auto].
  destruct (existsb _ existing);
    [eexists; split; [reflexivity|]; cbn; auto|].
  cbn [Eff.remote Eff.events].
  destruct (createLabel owner repo (want_name l) (want_color l)
              (want_description l) token w1) as [[u|e] w2].
  - eexists. cbn [snd Eff.events]. rewrite <- app_assoc.
    split; [reflexivity|]. cbn. auto.
  - destruct (IssueRepo.alreadyExists e) eqn:H422;
      eexists; cbn [snd Eff.events]; rewrite <- app_assoc;
      (split; [reflexivity|]); cbn; rewrite H422; cbn; auto.
Qed.

Lemma ensureIssueType_entry (owner token : string) (t : IssueTypeSpec)
    (st : Eff.St W unit) :
  let run := IssueRepo.ensureIssueType owner (type_name t)
               (type_description t) (type_color t) token st in
  exists segment : list Event,
    Eff.events (snd run) = Eff.events st ++ segment
    /\ IssueRepo.failureMessages [fst run]
       = flat_map IssueRepo.reported segment
    /\ IssueRepo.countOf IssueRepo.isCreated [fst run]
       = Z.of_nat (length (filter IssueRepo.isCreation segment))
    /\ length (filter IssueRepo.isListing segment)
       = (if IssueRepo.named (type_name t) then 1 else 0)%nat
    /\ (IssueRepo.countOf IssueRepo.isCreated [fst run]
        + IssueRepo.countOf IssueRepo.isExisting [fst run]
        + Z.of_nat (length (IssueRepo.failureMessages [fst run]))
        = if IssueRepo.named (type_name t) then 1 else 0)%Z.
Proof.
  intros run. subst run.
  unfold IssueRepo.ensureIssueType, IssueRepo.named, Eff.bind, Eff.tryCatch,
    Eff.perform, Eff.ret, Eff.throw.
  destruct (String.eqb (Js.trim (type_name t)) "");
    [exists []; cbn; rewrite app_nil_r; auto|].
  destruct (listIssueTypes owner token (Eff.remote st))
    as [[existing|e] w1]; cbn [negb];
    [|eexists; split; [reflexivity|]; cbn; auto].
  destruct (existsb _ existing);
    [eexists; split; [reflexivity|]; cbn; auto|].
  cbn [Eff.remote Eff.events].
  destruct (createIssueType owner (type_name t) (type_description t)
              (type_color t) token w1) as [[u|e] w2].
  - eexists. cbn [snd Eff.events]. rewrite <- app_assoc.
    split; [reflexivity|]. cbn. auto.
  - destruct (IssueRepo.alreadyExists e) eqn:H422;
      eexists; cbn [snd Eff.events]; rewrite <- app_assoc;
      (split; [reflexivity|]); cbn; rewrite H422; cbn; auto.
Qed.

End EntryLog.

Lemma reported_in (calls : list Event) (ev : Event) (e : Js.Thrown) :
  In ev calls -> IssueRepo.reported ev = [Js.render e] ->
  In (Js.render e) (flat_map IssueRepo.reported calls)
  /\ (1 <= length (flat_map IssueRepo.reported calls))%nat.
Proof.
  intros Hin Hrep.
  assert (H : In (Js.render e) (flat_map IssueRepo.reported calls)).
  { apply in_flat_map. exists ev. split; [exact Hin|]. rewrite Hrep. now left. }
  split; [exact H|].
  destruct (flat_map IssueRepo.reported calls); [destruct H | cbn; lia].
Qed.

(** C6, as stated, fails.  Three labels are to be created and the second
    creation throws, with HTTP 422.  Exactly one entry's creation throws,
    yet the batch returns no error: the entry is counted as existing. *)
Lemma ensure_batches_isolate_errors_counterexample :
  IssueRepo.ensureLabels
    (OK := Mock.creatingRepo [Ok tt; Ok tt; Ok tt; Throw Mock.conflict])
    "o" "r"
    [ mkLabelSpec "bug" "d73a4a" "Bug"; mkLabelSpec "feature" "0e8a16" "";
      mkLabelSpec "docs" "0075ca" "Docs" ] "token" 0%nat
  = (Ok {| batch_created := 2; batch_existing := 1; batch_errors := [] |},
     ([ EvListLabelsForRepo "o" "r" "token" (Ok []);
        EvCreateLabel "o" "r" "bug" "d73a4a" "Bug" "token" (Ok tt);
        EvListLabelsForRepo "o" "r" "token" (Ok []);
        EvCreateLabel "o" "r" "feature" "0e8a16" "" "token"
          (Throw Mock.conflict);
        EvListLabelsForRepo "o" "r" "token" (Ok []);
        EvCreateLabel "o" "r" "docs" "0075ca" "Docs" "token" (Ok tt) ],
      6%nat))
  /\ length
       (filter IssueRepo.isCreationThrow
          (Log.calls
             (IssueRepo.ensureLabels
                (OK := Mock.creatingRepo
                         [Ok tt; Ok tt; Ok tt; Throw Mock.conflict])
                "o" "r"
                [ mkLabelSpec "bug" "d73a4a" "Bug";
                  mkLabelSpec "feature" "0e8a16" "";
                  mkLabelSpec "docs" "0075ca" "Docs" ] "token" 0%nat)))
     = 1%nat
  /\ ~ (exists r : BatchResult,
          Log.returned
            (IssueRepo.ensureLabels
               (OK := Mock.creatingRepo
                        [Ok tt; Ok tt; Ok tt; Throw Mock.conflict])
               "o" "r"
               [ mkLabelSpec "bug" "d73a4a" "Bug";
                 mkLabelSpec "feature" "0e8a16" "";
                 mkLabelSpec "docs" "0075ca" "Docs" ] "token" 0%nat)
          = Ok r
          /\ (1 <= length (batch_errors r))%nat).
Proof.
  split; [reflexivity|]. split; [reflexivity|].
  intros (r & Hr & Hlen). vm_compute in Hr. injection Hr as <-.
  cbn in Hlen. lia.
Qed.

(** C6, amended.  [ensureLabels] and [ensureIssueTypes] take the entries in
    turn, each on the world the one before left, whether that one returned
    or threw: every entry has an outcome.  The batch itself never throws.
    Its [errors] are the messages of the calls that threw, in call order,
    except that a creation answered with HTTP 422 leaves no message and
    counts its entry as existing; [created] is the number of creations that
    returned; and [created + existing + errors.length] is the number of
    entries with a name, each of which starts with one listing.  So
    [errors.length >= 1] whenever a creation throws an error other than
    the 422 answer, and the message of that error is among the errors.
    With three labels to create and the second creation throwing: two
    created, none existing, one error for a plain error; two created, one
    existing, no error for the 422 answer. *)
Theorem ensure_batches_isolate_errors :
  (forall (W : Type) (OK : Octokit W) (owner repo : string)
          (required : list LabelSpec) (token : string) (w : W),
      let ensure :=
        fun l => IssueRepo.ensureLabel owner repo (want_name l)
                   (want_color l) (want_description l) token in
      let run := IssueRepo.ensureLabels owner repo required token w in
      let outcomes :=
        IssueRepo.runEach ensure required (Eff.mkSt w [] tt) in
      run = (Ok (IssueRepo.summary (fst outcomes)),
             (Eff.events (snd outcomes), Eff.remote (snd outcomes)))
      /\ length (fst outcomes) = length required
      /\ exists r : BatchResult,
           Log.returned run = Ok r
           /\ batch_errors r = flat_map IssueRepo.reported (Log.calls run)
           /\ batch_created r
              = Z.of_nat (length (filter IssueRepo.isCreation (Log.calls run)))
           /\ (batch_created r + batch_existing r
               + Z.of_nat (length (batch_errors r))
               = Z.of_nat (length (filter (fun l => IssueRepo.named (want_name l))
                                     required)))%Z
           /\ length (filter IssueRepo.isListing (Log.calls run))
              = length (filter (fun l => IssueRepo.named (want_name l)) required)
           /\ forall (e : Js.Thrown) (name color description : string),
                In (EvCreateLabel owner repo name color description token
                      (Throw e)) (Log.calls run) ->
                IssueRepo.alreadyExists e = false ->
                In (Js.render e) (batch_errors r)
                /\ (1 <= length (batch_errors r))%nat)
  /\ (forall (W : Type) (OK : Octokit W) (owner : string)
             (required : list IssueTypeSpec) (token : string) (w : W),
         let ensure :=
           fun t => IssueRepo.ensureIssueType owner (type_name t)
                      (type_description t) (type_color t) token in
         let run := IssueRepo.ensureIssueTypes owner required token w in
         let outcomes :=
           IssueRepo.runEach ensure required (Eff.mkSt w [] tt) in
         run = (Ok (IssueRepo.summary (fst outcomes)),
                (Eff.events (snd outcomes), Eff.remote (snd outcomes)))
         /\ length (fst outcomes) = length required
         /\ exists r : BatchResult,
              Log.returned run = Ok r
              /\ batch_errors r = flat_map IssueRepo.reported (Log.calls run)
              /\ batch_created r
                 = Z.of_nat (length (filter IssueRepo.isCreation (Log.calls run)))
              /\ (batch_created r + batch_existing r
                  + Z.of_nat (length (batch_errors r))
                  = Z.of_nat (length (filter (fun t => IssueRepo.named (type_name t))
                                        required)))%Z
              /\ length (filter IssueRepo.isListing (Log.calls run))
                 = length (filter (fun t => IssueRepo.named (type_name t))
                             required)
              /\ forall (e : Js.Thrown) (name description color : string),
                   In (EvCreateIssueType owner name description color token
                         (Throw e)) (Log.calls run) ->
                   IssueRepo.alreadyExists e = false ->
                   In (Js.render e) (batch_errors r)
                   /\ (1 <= length (batch_errors r))%nat)
  /\ (forall os : list (outcome EnsureResult),
         length (batch_errors (IssueRepo.summary os))
         = length (filter IssueRepo.isFailure os)
         /\ (batch_created (IssueRepo.summary os)
             + batch_existing (IssueRepo.summary os)
             + Z.of_nat (length (batch_errors (IssueRepo.summary os)))
             <= Z.of_nat (length os))%Z)
  /\ Log.returned
       (IssueRepo.ensureLabels
          (OK := Mock.creatingRepo [Ok tt; Ok tt; Ok tt; Throw Mock.apiError])
          "o" "r"
          [ mkLabelSpec "bug" "d73a4a" "Bug"; mkLabelSpec "feature" "0e8a16" "";
            mkLabelSpec "docs" "0075ca" "Docs" ] "token" 0%nat)
     = Ok {| batch_created := 2; batch_existing := 0;
             batch_errors := ["Error: API error"] |}
  /\ Log.returned
       (IssueRepo.ensureLabels
          (OK := Mock.creatingRepo [Ok tt; Ok tt; Ok tt; Throw Mock.conflict])
          "o" "r"
          [ mkLabelSpec "bug" "d73a4a" "Bug"; mkLabelSpec "feature" "0e8a16" "";
            mkLabelSpec "docs" "0075ca" "Docs" ] "token" 0%nat)
     = Ok {| batch_created := 2; batch_existing := 1; batch_errors := [] |}.
Proof.
  split; [|split; [|split; [|split]]].
  - intros W OK owner repo required token w ensure run outcomes.
    split; [apply ensureBatch_run|]. split; [apply runEach_length|].
    destruct (ensureBatch_log ensure (fun l => IssueRepo.named (want_name l))
                (ensureLabel_entry owner repo token) required w)
      as (r & Hr & Herr & Hcr & Hsum & Hls).
    exists r. fold run in Hr, Herr, Hcr, Hls.
    repeat (split; [assumption|]).
    intros e name color description Hin H422. rewrite Herr.
    apply (reported_in _ _ e Hin). cbn. now rewrite H422.
  - intros W OK owner required token w ensure run outcomes.
    split; [apply ensureBatch_run|]. split; [apply runEach_length|].
    destruct (ensureBatch_log ensure (fun t => IssueRepo.named (type_name t))
                (ensureIssueType_entry owner token) required w)
      as (r & Hr & Herr & Hcr & Hsum & Hls).
    exists r. fold run in Hr, Herr, Hcr, Hls.
    repeat (split; [assumption|]).
    intros e name description color Hin H422. rewrite Herr.
    apply (reported_in _ _ e Hin). cbn. now rewrite H422.
  - apply summary_counts.
  - reflexivity.
  - reflexivity.
Qed.

Lemma ensure_batches_isolate_errors_witness :
  exists r : BatchResult,
    Log.returned
      (IssueRepo.ensureLabels
         (OK := Mock.creatingRepo [Ok tt; Ok tt; Ok tt; Throw Mock.apiError])
         "o" "r"
         [ mkLabelSpec "bug" "d73a4a" "Bug"; mkLabelSpec "feature" "0e8a16" "";
           mkLabelSpec "docs" "0075ca" "Docs" ] "token" 0%nat)
    = Ok r
    /\ In "Error: API error" (batch_errors r)
    /\ (1 <= length (batch_errors r))%nat.
Proof.
  destruct ensure_batches_isolate_errors as [Hlabels _].
  destruct (Hlabels Mock.World
              (Mock.creatingRepo [Ok tt; Ok tt; Ok tt; Throw Mock.apiError])
              "o" "r"
              [ mkLabelSpec "bug" "d73a4a" "Bug";
                mkLabelSpec "feature" "0e8a16" "";
                mkLabelSpec "docs" "0075ca" "Docs" ] "token" 0%nat)
    as (_ & _ & r & Hr & _ & _ & _ & _ & Hthrow).
  exists r. split; [exact Hr|].
  apply (Hthrow Mock.apiError "feature" "0e8a16" "").
  - vm_compute. tauto.
  - reflexivity.
Defined.

(* ================================================================== *)
(** ** More on ProjectDetail *)
(* ================================================================== *)

(** The truthiness test of [publicUrl] never decides: an empty url does not
    start with https:// either. *)
Lemma publicUrl_cases (p : ProjectDetail) :
  publicUrl p =
    if Js.startsWith (url p) "https://" then url p
    else ("https://github.com/"
            ++ (if String.eqb (type p) "organization" then "orgs" else "users")
            ++ "/" ++ owner p ++ "/projects/"
            ++ Js.numberToString (number p))%string.
Proof.
  unfold publicUrl, Js.startsWith. destruct (url p) as [|c u]; reflexivity.
Qed.

(** X1.  Whatever the fields of a ProjectDetail are, its [publicUrl] starts
    with https://; so a ProjectDetail rebuilt with its [publicUrl] as [url]
    (whatever else changes) has that same [publicUrl]. *)
Theorem publicUrl_https_stable :
  forall p : ProjectDetail,
    Js.startsWith (publicUrl p) "https://" = true
    /\ forall (i t ty o : string) (n : Z),
         publicUrl (mkProjectDetail i t ty o (publicUrl p) n) = publicUrl p.
Proof.
  intros p.
  assert (H : Js.startsWith (publicUrl p) "https://" = true).
  { rewrite publicUrl_cases.
    destruct (Js.startsWith (url p) "https://") eqn:Hu; [exact Hu|].
    destruct (String.eqb (type p) "organization"); reflexivity. }
  split; [exact H|]. intros i t ty o n.
  rewrite publicUrl_cases. cbn [url]. rewrite H. reflexivity.
Qed.

Lemma numberToString_injective (a b : Z) :
  Js.numberToString a = Js.numberToString b -> a = b.
Proof.
  unfold Js.numberToString. intros H.
  apply (f_equal NilEmpty.int_of_string) in H.
  rewrite !NilEmpty.isi in H. injection H as H.
  apply (f_equal Z.of_int) in H. now rewrite !DecimalZ.of_to in H.
Qed.

Lemma append_cancel_l (a x y : string) : (a ++ x = a ++ y)%string -> x = y.
Proof.
  induction a as [|c a IH]; cbn; [auto|]. intros H. injection H as H. auto.
Qed.

(** X2.  Two boards of one owner and one type, neither with an https url
    from the API, have the same [publicUrl] only if they have the same
    number. *)
Theorem publicUrl_number_injective :
  forall p q : ProjectDetail,
    Js.startsWith (url p) "https://" = false ->
    Js.startsWith (url q) "https://" = false ->
    owner p = owner q ->
    type p = type q ->
    publicUrl p = publicUrl q ->
    number p = number q.
Proof.
  intros p q Hp Hq Ho Ht H.
  rewrite !publicUrl_cases, Hp, Hq, Ho, Ht in H.
  apply numberToString_injective.
  destruct (String.eqb (type q) "organization");
    repeat (apply append_cancel_l in H); exact H.
Qed.

Lemma publicUrl_number_injective_witness :
  number (mkProjectDetail "a" "A" "organization" "acme" "" 7)
  = number (mkProjectDetail "b" "B" "organization" "acme" "http://x" 7).
Proof.
  apply publicUrl_number_injective; reflexivity.
Defined.

(* ================================================================== *)
(** ** The token gate of utils/setup_files.ts *)
(* ================================================================== *)

Lemma trimEnd_idempotent (s : string) : Js.trimEnd (Js.trimEnd s) = Js.trimEnd s.
Proof.
  induction s as [|c s IH]; [reflexivity|].
  cbn [Js.trimEnd]. destruct (Js.trimEnd s) as [|d t] eqn:Ht.
  - destruct (Js.isSpace c) eqn:Hc; cbn [Js.trimEnd]; [reflexivity|].
    rewrite Hc. reflexivity.
  - cbn [Js.trimEnd]. cbn [Js.trimEnd] in IH. rewrite IH. reflexivity.
Qed.

(** [trimStart] leaves nothing or a string that starts with a character
    that is not white space. *)
Lemma trimStart_head (s : string) :
  Js.trimStart s = EmptyString
  \/ exists c t, Js.trimStart s = String c t /\ Js.isSpace c = false.
Proof.
  induction s as [|c s IH]; [now left|].
  cbn [Js.trimStart]. destruct (Js.isSpace c) eqn:Hc; [exact IH|].
  right. eauto.
Qed.

Lemma trimEnd_head (c : ascii) (t : string) :
  Js.isSpace c = false -> exists u, Js.trimEnd (String c t) = String c u.
Proof.
  intros Hc. cbn [Js.trimEnd]. destruct (Js.trimEnd t); [rewrite Hc|]; eauto.
Qed.

Lemma trim_idempotent (s : string) : Js.trim (Js.trim s) = Js.trim s.
Proof.
  unfold Js.trim. destruct (trimStart_head s) as [-> | (c & t & -> & Hc)];
    [reflexivity|].
  destruct (trimEnd_head c t Hc) as [u Hu]. rewrite Hu.
  cbn [Js.trimStart]. rewrite Hc, <- Hu. apply trimEnd_idempotent.
Qed.

Lemma isTokenValueValid_trim (t : string) :
  SetupToken.isTokenValueValid (Js.trim t) = SetupToken.isTokenValueValid t.
Proof. unfold SetupToken.isTokenValueValid. now rewrite trim_idempotent. Qed.

Lemma isTokenValueValid_nonempty (t : string) :
  SetupToken.isTokenValueValid t = true -> String.eqb (Js.trim t) "" = false.
Proof.
  unfold SetupToken.isTokenValueValid. intros H.
  destruct (Js.trim t); [discriminate H | reflexivity].
Qed.

(** X3.  [getSetupToken] takes the environment variable first: when its
    value passes [isTokenValueValid] the result is that value, trimmed,
    whatever the .env file holds.  Otherwise (variable unset, or set to a
    value that does not pass) the result is the file's token as read, if
    that one passes, and nothing if not. *)
Theorem getSetupToken_precedence :
  forall env fromFile : option string,
    SetupToken.getSetupToken env fromFile =
      match env with
      | Some e =>
          if SetupToken.isTokenValueValid e then Some (Js.trim e)
          else match fromFile with
               | Some f => if SetupToken.isTokenValueValid f then Some f else None
               | None => None
               end
      | None =>
          match fromFile with
          | Some f => if SetupToken.isTokenValueValid f then Some f else None
          | None => None
          end
      end.
Proof.
  intros [e|] fromFile; unfold SetupToken.getSetupToken; cbn [option_map];
    [|reflexivity].
  rewrite isTokenValueValid_trim.
  destruct (SetupToken.isTokenValueValid e) eqn:He.
  - rewrite (isTokenValueValid_nonempty e He). reflexivity.
  - rewrite andb_false_r. reflexivity.
Qed.

(** X4.  Every token [getSetupToken] returns, from the environment or from
    the file, has at least 20 characters once trimmed and does not start
    with the placeholder github_pat_11..; in particular it is never the
    placeholder. *)
Theorem getSetupToken_sound :
  forall (env fromFile : option string) (t : string),
    SetupToken.getSetupToken env fromFile = Some t ->
    (20 <= String.length (Js.trim t))%nat
    /\ Js.startsWith (Js.trim t) "github_pat_11.." = false
    /\ Js.trim t <> SetupToken.ENV_PLACEHOLDER_VALUE
    /\ SetupToken.hasValidSetupToken env fromFile = true.
Proof.
  intros env fromFile t H.
  assert (Hv : SetupToken.isTokenValueValid t = true).
  { unfold SetupToken.getSetupToken in H.
    assert (Hfile :
      match fromFile with
      | Some f => if SetupToken.isTokenValueValid f then Some f else None
      | None => None
      end = Some t -> SetupToken.isTokenValueValid t = true).
    { destruct fromFile as [f|]; [|discriminate].
      destruct (SetupToken.isTokenValueValid f) eqn:Hf; [|discriminate].
      now intros [= <-]. }
    destruct env as [e|]; cbn [option_map] in H; [|auto].
    destruct (negb (String.eqb (Js.trim e) "")
              && SetupToken.isTokenValueValid (Js.trim e)) eqn:He; [|auto].
    injection H as <-. now apply andb_true_iff in He. }
  unfold SetupToken.hasValidSetupToken. rewrite H.
  unfold SetupToken.isTokenValueValid in Hv.
  apply andb_true_iff in Hv as [Hv Hprefix].
  apply andb_true_iff in Hv as [Hlen Hplace].
  apply negb_true_iff in Hprefix. apply negb_true_iff in Hplace.
  repeat split.
  - now apply Nat.leb_le in Hlen.
  - exact Hprefix.
  - now apply String.eqb_neq.
Qed.

Lemma getSetupToken_sound_witness :
  (20 <= String.length (Js.trim "ghp_0123456789abcdefghij"))%nat
  /\ Js.startsWith (Js.trim "ghp_0123456789abcdefghij") "github_pat_11.." = false
  /\ Js.trim "ghp_0123456789abcdefghij" <> SetupToken.ENV_PLACEHOLDER_VALUE
  /\ SetupToken.hasValidSetupToken (Some "  ghp_0123456789abcdefghij ")
       (Some "github_pat_11..") = true.
Proof.
  apply (getSetupToken_sound (Some "  ghp_0123456789abcdefghij ")
           (Some "github_pat_11..") "ghp_0123456789abcdefghij").
  reflexivity.
Defined.

(* ================================================================== *)
(** ** Reading the token from the .env file *)
(* ================================================================== *)

Lemma prefix_before_terminator (p l : string) (c : ascii) (s : string) :
  EnvFile.noLineTerminator p = true ->
  EnvFile.isLineTerminator c = true ->
  String.prefix p (l ++ String c s) = String.prefix p l.
Proof.
  revert p. induction l as [|d l IH]; intros [|a p] Hp Hc; try reflexivity.
  - cbn. destruct (ascii_dec a c) as [->|]; [|reflexivity].
    cbn in Hp. rewrite Hc in Hp. discriminate Hp.
  - cbn. destruct (ascii_dec a d); [|reflexivity].
    apply IH; [|exact Hc]. cbn in Hp. now apply andb_true_iff in Hp.
Qed.

Lemma prefix_length (p l : string) :
  String.prefix p l = true -> (String.length p <= String.length l)%nat.
Proof.
  revert l. induction p as [|a p IH]; intros [|d l] H; cbn in *;
    try lia; try discriminate.
  destruct (ascii_dec a d); [|discriminate]. apply IH in H. lia.
Qed.

Lemma skip_append (n : nat) (l x : string) :
  (n <= String.length l)%nat ->
  EnvFile.skip n (l ++ x) = (EnvFile.skip n l ++ x)%string.
Proof.
  revert l. induction n as [|n IH]; intros [|d l] H; cbn in *;
    try reflexivity; try lia.
  apply IH. lia.
Qed.

Lemma lineHead_before_terminator (m : string) (c : ascii) (s : string) :
  EnvFile.isLineTerminator c = true ->
  EnvFile.lineHead (m ++ String c s) = EnvFile.lineHead m.
Proof.
  intros Hc. induction m as [|d m IH]; cbn; [now rewrite Hc|].
  destruct (EnvFile.isLineTerminator d); [reflexivity | now rewrite IH].
Qed.

Lemma lineHead_whole (v : string) :
  EnvFile.noLineTerminator v = true -> EnvFile.lineHead v = v.
Proof.
  induction v as [|d v IH]; [reflexivity|]. cbn. intros H.
  apply andb_true_iff in H as [Hd Hv]. apply negb_true_iff in Hd.
  rewrite Hd, IH; auto.
Qed.

(** What follows the line terminator does not matter to a match attempt on
    the line before it. *)
Lemma matchAtLineStart_line (l : string) (c : ascii) (s : string) :
  EnvFile.isLineTerminator c = true ->
  EnvFile.matchAtLineStart (l ++ String c s) = EnvFile.matchAtLineStart l.
Proof.
  intros Hc. unfold EnvFile.matchAtLineStart.
  rewrite prefix_before_terminator by (reflexivity || exact Hc).
  destruct (String.prefix (EnvFile.ENV_TOKEN_KEY ++ "=") l) eqn:Hp;
    [|reflexivity].
  apply prefix_length in Hp.
  rewrite skip_append by exact Hp.
  now rewrite lineHead_before_terminator.
Qed.

Lemma firstMatch_inside_line (l : string) (c : ascii) (s : string) :
  EnvFile.noLineTerminator l = true ->
  EnvFile.isLineTerminator c = true ->
  EnvFile.firstMatch false (l ++ String c s) = EnvFile.firstMatch true s.
Proof.
  intros Hl Hc. induction l as [|d l IH]; cbn [append EnvFile.firstMatch].
  - now rewrite Hc.
  - cbn in Hl. apply andb_true_iff in Hl as [Hd Hl].
    apply negb_true_iff in Hd. rewrite Hd. auto.
Qed.

(** A line that is not a token line is passed over. *)
Lemma firstMatch_skip_line (l : string) (c : ascii) (s : string) :
  EnvFile.noLineTerminator l = true ->
  EnvFile.isLineTerminator c = true ->
  EnvFile.matchAtLineStart l = None ->
  EnvFile.firstMatch true (l ++ String c s) = EnvFile.firstMatch true s.
Proof.
  intros Hl Hc Hnone.
  assert (Hm : EnvFile.matchAtLineStart (l ++ String c s) = None)
    by now rewrite matchAtLineStart_line.
  destruct l as [|d l]; cbn [append EnvFile.firstMatch] in *; rewrite Hm.
  - now rewrite Hc.
  - cbn in Hl. apply andb_true_iff in Hl as [Hd Hl].
    apply negb_true_iff in Hd. rewrite Hd.
    now apply firstMatch_inside_line.
Qed.

Lemma append_empty_r (s : string) : (s ++ "")%string = s.
Proof. induction s; cbn; congruence. Qed.

Lemma append_assoc_string (a b c : string) :
  ((a ++ b) ++ c = a ++ (b ++ c))%string.
Proof. induction a; cbn; congruence. Qed.

Lemma matchAtLineStart_key (x : string) :
  EnvFile.matchAtLineStart (EnvFile.ENV_TOKEN_KEY ++ "=" ++ x)
  = match EnvFile.lineHead x with
    | EmptyString => None
    | v => Some v
    end.
Proof.
  unfold EnvFile.matchAtLineStart.
  rewrite <- append_assoc_string, prefix_append, append_assoc_string.
  reflexivity.
Qed.

Lemma firstMatch_here (s v : string) :
  EnvFile.matchAtLineStart s = Some v -> EnvFile.firstMatch true s = Some v.
Proof. intros H. destruct s; cbn [EnvFile.firstMatch]; now rewrite H. Qed.

(** The first token line of a file decides the match. *)
Lemma firstMatch_token_line (lines : list string) (v rest : string) :
  Forall (fun l => EnvFile.noLineTerminator l = true
                   /\ EnvFile.matchAtLineStart l = None) lines ->
  v <> EmptyString ->
  EnvFile.noLineTerminator v = true ->
  rest = EmptyString
  \/ (exists c r, rest = String c r /\ EnvFile.isLineTerminator c = true) ->
  EnvFile.firstMatch true
    (EnvFile.unlines lines ++ EnvFile.ENV_TOKEN_KEY ++ "=" ++ v ++ rest)
  = Some v.
Proof.
  intros Hlines Hv Hnolt Hrest.
  induction Hlines as [|l lines [Hl Hnone] _ IH]; cbn [EnvFile.unlines fold_right].
  - change (EnvFile.firstMatch true
              (EnvFile.ENV_TOKEN_KEY ++ "=" ++ v ++ rest) = Some v).
    apply firstMatch_here. rewrite matchAtLineStart_key.
    assert (Hhead : EnvFile.lineHead (v ++ rest) = v).
    { destruct Hrest as [-> | (c & r & -> & Hc)].
      - rewrite append_empty_r. now apply lineHead_whole.
      - rewrite lineHead_before_terminator by exact Hc.
        now apply lineHead_whole. }
    rewrite Hhead. destruct v; [now elim Hv | reflexivity].
  - rewrite append_assoc_string. cbn [append].
    rewrite firstMatch_skip_line; auto.
Qed.

(** X5.  [getTokenFromEnvFile] looks at one line only: the first line that
    starts with PERSONAL_ACCESS_TOKEN= and has at least one character after
    the sign.  Lines before it that are not of that kind (a bare
    PERSONAL_ACCESS_TOKEN= among them) are passed over; the result is the
    value of that line, trimmed and without one leading and one trailing
    quote, or null when nothing is left of it, whatever the lines after it
    hold. *)
Theorem getTokenFromEnvFile_first_token_line :
  forall (lines : list string) (v rest : string),
    Forall (fun l => EnvFile.noLineTerminator l = true
                     /\ EnvFile.matchAtLineStart l = None) lines ->
    v <> EmptyString ->
    EnvFile.noLineTerminator v = true ->
    rest = EmptyString
    \/ (exists c r, rest = String c r /\ EnvFile.isLineTerminator c = true) ->
    EnvFile.getTokenFromEnvFile
      (Some (EnvFile.unlines lines ++ EnvFile.ENV_TOKEN_KEY ++ "=" ++ v ++ rest)%string)
    = if (0 <? String.length (EnvFile.stripQuotes (Js.trim v)))%nat
      then Some (EnvFile.stripQuotes (Js.trim v))
      else None.
Proof.
  intros lines v rest Hlines Hv Hnolt Hrest.
  unfold EnvFile.getTokenFromEnvFile.
  now rewrite (firstMatch_token_line lines v rest Hlines Hv Hnolt Hrest).
Qed.

(** A comment, a bare key and another variable come first; the first token
    line holds only blanks, so the result is null although the next line
    holds a token. *)
Lemma getTokenFromEnvFile_first_token_line_witness :
  EnvFile.getTokenFromEnvFile
    (Some (EnvFile.unlines ["# local settings"; "PERSONAL_ACCESS_TOKEN=";
                            "OPENCODE_MODEL=x"]
           ++ EnvFile.ENV_TOKEN_KEY ++ "=" ++ "   "
           ++ String (ascii_of_nat 10)
                "PERSONAL_ACCESS_TOKEN=ghp_0123456789abcdefghij")%string)
  = None.
Proof.
  apply (getTokenFromEnvFile_first_token_line
           ["# local settings"; "PERSONAL_ACCESS_TOKEN="; "OPENCODE_MODEL=x"]
           "   "
           (String (ascii_of_nat 10)
              "PERSONAL_ACCESS_TOKEN=ghp_0123456789abcdefghij")).
  - repeat constructor.
  - discriminate.
  - reflexivity.
  - right. eexists _, _. split; reflexivity.
Defined.

Lemma trimEnd_snoc (x : string) (q : ascii) :
  Js.isSpace q = false ->
  Js.trimEnd (x ++ String q "") = (x ++ String q "")%string.
Proof.
  intros Hq. induction x as [|d x IH]; cbn [append Js.trimEnd].
  - now rewrite Hq.
  - rewrite IH. destruct x; reflexivity.
Qed.

Lemma stripTrailingQuote_snoc (t : string) (q : ascii) :
  EnvFile.isQuote q = true ->
  EnvFile.stripTrailingQuote (t ++ String q "") = t.
Proof.
  intros Hq. induction t as [|d t IH]; cbn [append EnvFile.stripTrailingQuote].
  - now rewrite Hq.
  - rewrite IH. destruct t; reflexivity.
Qed.

Lemma quote_not_space_nor_terminator (q : ascii) :
  EnvFile.isQuote q = true ->
  Js.isSpace q = false /\ EnvFile.isLineTerminator q = false.
Proof.
  unfold EnvFile.isQuote, Js.isSpace, EnvFile.isLineTerminator.
  intros H. apply orb_true_iff in H as [H | H]; apply Nat.eqb_eq in H;
    rewrite H; split; reflexivity.
Qed.

Lemma noLineTerminator_append (a b : string) :
  EnvFile.noLineTerminator (a ++ b)
  = EnvFile.noLineTerminator a && EnvFile.noLineTerminator b.
Proof.
  induction a as [|c a IH]; cbn; [reflexivity|].
  now rewrite IH, andb_assoc.
Qed.

(** X6.  Writing a token to the .env file and reading it back.  Let t be a
    non-empty token on one line, without surrounding white space and
    without a quote at either end.  A line PERSONAL_ACCESS_TOKEN=t, with t
    bare, between double quotes or between single quotes, placed after
    lines that are not token lines and followed by anything on later lines,
    is read back as t. *)
Theorem getTokenFromEnvFile_round_trip :
  forall (lines : list string) (t rest : string),
    Forall (fun l => EnvFile.noLineTerminator l = true
                     /\ EnvFile.matchAtLineStart l = None) lines ->
    t <> EmptyString ->
    EnvFile.noLineTerminator t = true ->
    Js.trim t = t ->
    EnvFile.stripQuotes t = t ->
    rest = EmptyString
    \/ (exists c r, rest = String c r /\ EnvFile.isLineTerminator c = true) ->
    EnvFile.getTokenFromEnvFile
      (Some (EnvFile.unlines lines ++ EnvFile.ENV_TOKEN_KEY ++ "=" ++ t ++ rest)%string)
    = Some t
    /\ EnvFile.getTokenFromEnvFile
         (Some (EnvFile.unlines lines ++ EnvFile.ENV_TOKEN_KEY ++ "="
                  ++ String (ascii_of_nat 34)
                       (t ++ String (ascii_of_nat 34) rest))%string)
       = Some t
    /\ EnvFile.getTokenFromEnvFile
         (Some (EnvFile.unlines lines ++ EnvFile.ENV_TOKEN_KEY ++ "="
                  ++ String (ascii_of_nat 39)
                       (t ++ String (ascii_of_nat 39) rest))%string)
       = Some t.
Proof.
  intros lines t rest Hlines Ht Hnolt Htrim Hquotes Hrest.
  assert (Hlen : (0 <? String.length t)%nat = true)
    by (destruct t; [now elim Ht | reflexivity]).
  assert (Hquoted : forall q : ascii,
    EnvFile.isQuote q = true ->
    EnvFile.getTokenFromEnvFile
      (Some (EnvFile.unlines lines ++ EnvFile.ENV_TOKEN_KEY ++ "="
               ++ String q (t ++ String q rest))%string)
    = Some t).
  { intros q Hq.
    destruct (quote_not_space_nor_terminator q Hq) as [Hspace Hterm].
    unfold EnvFile.getTokenFromEnvFile.
    replace (String q (t ++ String q rest))
      with (String q (t ++ String q "") ++ rest)%string
      by (cbn [append]; now rewrite append_assoc_string).
    rewrite (firstMatch_token_line lines (String q (t ++ String q "")) rest
               Hlines).
    + unfold Js.trim. cbn [Js.trimStart]. rewrite Hspace.
      change (String q (t ++ String q "")) with (String q t ++ String q "")%string.
      rewrite trimEnd_snoc by exact Hspace.
      unfold EnvFile.stripQuotes. cbn [append EnvFile.stripLeadingQuote].
      rewrite Hq, stripTrailingQuote_snoc by exact Hq. now rewrite Hlen.
    + discriminate.
    + cbn [EnvFile.noLineTerminator]. rewrite Hterm, noLineTerminator_append.
      rewrite Hnolt. cbn. now rewrite Hterm.
    + exact Hrest. }
  split; [|split; apply Hquoted; reflexivity].
  unfold EnvFile.getTokenFromEnvFile.
  rewrite (firstMatch_token_line lines t rest Hlines Ht Hnolt Hrest).
  now rewrite Htrim, Hquotes, Hlen.
Qed.

Lemma getTokenFromEnvFile_round_trip_witness :
  EnvFile.getTokenFromEnvFile
    (Some (EnvFile.unlines ["# local settings"] ++ EnvFile.ENV_TOKEN_KEY ++ "="
             ++ "ghp_0123456789abcdefghij" ++ "")%string)
  = Some "ghp_0123456789abcdefghij"
  /\ EnvFile.getTokenFromEnvFile
       (Some (EnvFile.unlines ["# local settings"] ++ EnvFile.ENV_TOKEN_KEY
                ++ "=" ++ String (ascii_of_nat 34)
                            ("ghp_0123456789abcdefghij"
                               ++ String (ascii_of_nat 34) ""))%string)
     = Some "ghp_0123456789abcdefghij"
  /\ EnvFile.getTokenFromEnvFile
       (Some (EnvFile.unlines ["# local settings"] ++ EnvFile.ENV_TOKEN_KEY
                ++ "=" ++ String (ascii_of_nat 39)
                            ("ghp_0123456789abcdefghij"
                               ++ String (ascii_of_nat 39) ""))%string)
     = Some "ghp_0123456789abcdefghij".
Proof.
  apply (getTokenFromEnvFile_round_trip ["# local settings"]
           "ghp_0123456789abcdefghij" "").
  - repeat constructor.
  - discriminate.
  - reflexivity.
  - reflexivity.
  - reflexivity.
  - left. reflexivity.
Defined.

(* ================================================================== *)
(** ** The calls of the board use cases *)
(* ================================================================== *)

Section BoardCalls.

Context {W : Type} {PR : ProjectRepository W}.
Variable taskId : string.
Variable numberOf : Execution -> Z.

(** The exact log of the priority loop: the boards are called in order,
    each once, with the coordinates of [param], until a call throws. *)
Lemma check_priority_forProjects_calls (param : Execution) (priorityLabel : string) :
  forall (ps : list ProjectDetail) (st st' : Eff.St W (list Result))
         (o : outcome unit),
    CheckPriority.forProjects taskId numberOf param priorityLabel ps st
    = (o, st') ->
    exists outs : list (outcome bool),
      Eff.events st'
      = (Eff.events st
           ++ map (fun po => EvSetTaskPriority (fst po) (exec_owner param)
                               (exec_repo param) (numberOf param) priorityLabel
                               (token param) (snd po))
                (combine ps outs))%list
      /\ match o with
         | Ok _ => exists answers : list bool,
                     outs = map Ok answers /\ length answers = length ps
         | Throw e => exists answers : list bool,
                        outs = (map Ok answers ++ [Throw e])%list
                        /\ (length answers < length ps)%nat
         end.
Proof.
  induction ps as [|project rest IH]; intros st st' o Hrun.
  - inversion Hrun; subst. exists []. rewrite app_nil_r. split; [reflexivity|].
    exists []. split; reflexivity.
  - cbn [CheckPriority.forProjects] in Hrun.
    unfold Eff.bind, CheckPriority.callSetTaskPriority, Eff.perform in Hrun.
    destruct (setTaskPriority project (exec_owner param) (exec_repo param)
                (numberOf param) priorityLabel (token param) (Eff.remote st))
      as [[ok | e] w1].
    + assert (Hnext : exists st1 : Eff.St W (list Result),
                CheckPriority.forProjects taskId numberOf param priorityLabel
                  rest st1 = (o, st')
                /\ Eff.events st1
                   = (Eff.events st
                        ++ [EvSetTaskPriority project (exec_owner param)
                              (exec_repo param) (numberOf param) priorityLabel
                              (token param) (Ok ok)])%list).
      { destruct ok; cbn in Hrun; eexists; (split; [exact Hrun | reflexivity]). }
      destruct Hnext as (st1 & Hrest & Hev1).
      apply IH in Hrest. destruct Hrest as (outs & Hev & Hout).
      exists (Ok ok :: outs). split.
      * rewrite Hev, Hev1, <- app_assoc. reflexivity.
      * destruct o as [u | e];
          destruct Hout as (answers & -> & Hlen); exists (ok :: answers);
          (split; [reflexivity | cbn; lia]).
    + injection Hrun as <- <-. cbn. exists [Throw e]. split.
      * cbn. rewrite combine_nil. reflexivity.
      * exists []. split; [reflexivity | cbn; lia].
Qed.

End BoardCalls.

Section BoardLogs.

(** A log of board calls, as either use case writes it. *)
Variable mk : ProjectDetail -> outcome bool -> Event.
Hypothesis mk_threw : forall p out, Log.threw (mk p out) = Log.errorOf out.
Hypothesis mk_answer :
  forall b p out,
    Log.boardsAnswering b [mk p out]
    = match out with
      | Ok b' => if Bool.eqb b b' then [p] else []
      | Throw _ => []
      end.

Lemma boardsAnswering_cons (b : bool) (ev : Event) (evs : list Event) :
  Log.boardsAnswering b (ev :: evs)
  = (Log.boardsAnswering b [ev] ++ Log.boardsAnswering b evs)%list.
Proof. unfold Log.boardsAnswering. cbn [flat_map]. now rewrite app_nil_r. Qed.

Lemma thrown_cons (ev : Event) (evs : list Event) :
  Log.thrown (ev :: evs)
  = (match Log.threw ev with Some e => [e] | None => [] end
     ++ Log.thrown evs)%list.
Proof. reflexivity. Qed.

Lemma board_log_returning (ps : list ProjectDetail) (answers : list bool) :
  Log.thrown
    (map (fun po => mk (fst po) (snd po)) (combine ps (map Ok answers)))
  = [].
Proof.
  revert answers. induction ps as [|p ps IH]; intros [|a answers];
    try reflexivity.
  cbn [map combine fst snd]. rewrite thrown_cons, mk_threw. apply IH.
Qed.

Lemma board_log_throwing (ps : list ProjectDetail) (answers : list bool)
    (e : Js.Thrown) :
  (length answers < length ps)%nat ->
  Log.thrown
    (map (fun po => mk (fst po) (snd po))
       (combine ps (map Ok answers ++ [Throw e])))
  = [e].
Proof.
  revert answers. induction ps as [|p ps IH]; intros [|a answers] H;
    cbn in H; try lia.
  - cbn [map app combine fst snd]. rewrite combine_nil, thrown_cons, mk_threw.
    reflexivity.
  - cbn [map app combine fst snd]. rewrite thrown_cons, mk_threw.
    apply IH. lia.
Qed.

(** No call returned [true] exactly when every answer is [false]. *)
Lemma board_log_all_false (ps : list ProjectDetail) (answers : list bool) :
  length answers = length ps ->
  Log.boardsAnswering true
    (map (fun po => mk (fst po) (snd po)) (combine ps (map Ok answers)))
  = [] ->
  map (fun po => mk (fst po) (snd po)) (combine ps (map Ok answers))
  = map (fun p => mk p (Ok false)) ps.
Proof.
  revert answers. induction ps as [|p ps IH]; intros [|a answers] Hlen H;
    try discriminate; [reflexivity|].
  cbn [map combine fst snd] in *.
  rewrite boardsAnswering_cons, mk_answer in H.
  destruct a; [discriminate H|]. cbn in H.
  f_equal. apply IH; [now injection Hlen | exact H].
Qed.

Lemma board_log_false_quiet (ps : list ProjectDetail) :
  Log.boardsAnswering true (map (fun p => mk p (Ok false)) ps) = []
  /\ Log.thrown (map (fun p => mk p (Ok false)) ps) = [].
Proof.
  induction ps as [|p ps [IH1 IH2]]; [split; reflexivity|].
  cbn [map]. rewrite boardsAnswering_cons, thrown_cons, mk_answer, mk_threw.
  split; [exact IH1 | exact IH2].
Qed.

End BoardLogs.

Section CheckPriorityPass.

Context {W : Type} {PR : ProjectRepository W}.
Variable taskId : string.
Variable numberOf : Execution -> Z.

(** A run that gets past the guards: its exact log, and its Results read
    off that log. *)
Lemma check_priority_pass_run (param : Execution) (w : W) (priorityLabel : string) :
  priorityLabelOnIssueProcessable (labels param) = true ->
  projects param <> [] ->
  CheckPriority.priorityToken (labels param) = Some priorityLabel ->
  exists outs : list (outcome bool),
    Log.calls (CheckPriority.invoke taskId numberOf param w)
    = map (fun po => EvSetTaskPriority (fst po) (exec_owner param)
                       (exec_repo param) (numberOf param) priorityLabel
                       (token param) (snd po))
        (combine (projects param) outs)
    /\ Log.returned (CheckPriority.invoke taskId numberOf param w)
       = Ok (map (CheckPriority.prioritySet taskId priorityLabel)
               (Log.boardsAnswering true
                  (Log.calls (CheckPriority.invoke taskId numberOf param w)))
             ++ map (CheckPriority.failed taskId)
                  (Log.thrown
                     (Log.calls (CheckPriority.invoke taskId numberOf param w))))%list
    /\ ((exists answers : list bool,
            outs = map Ok answers
            /\ length answers = length (projects param))
        \/ (exists (answers : list bool) (e : Js.Thrown),
               outs = (map Ok answers ++ [Throw e])%list
               /\ (length answers < length (projects param))%nat)).
Proof.
  intros Hproc Hboards Htoken.
  unfold CheckPriority.invoke, CheckPriority.program, CheckPriority.tryBlock,
    Eff.run, Eff.bind, Eff.tryCatch.
  rewrite Hproc, Htoken.
  destruct (projects param) as [|p0 ps0] eqn:Hps; [now elim Hboards|].
  cbn [length Nat.eqb negb orb].
  destruct (CheckPriority.forProjects taskId numberOf param priorityLabel
              (p0 :: ps0) (Eff.mkSt w [] [])) as [o st'] eqn:Hrun.
  pose proof (check_priority_forProjects taskId numberOf param priorityLabel
                _ _ _ _ Hrun) as (evs & Hev & Hloc & _ & Hout).
  pose proof (check_priority_forProjects_calls taskId numberOf param
                priorityLabel _ _ _ _ Hrun) as (outs & Hcalls & Hshape).
  cbn in Hev, Hloc. cbn [Eff.events app] in Hcalls. exists outs.
  assert (Hevs : evs = map (fun po => EvSetTaskPriority (fst po)
                                        (exec_owner param) (exec_repo param)
                                        (numberOf param) priorityLabel
                                        (token param) (snd po))
                         (combine (p0 :: ps0) outs))
    by (rewrite <- Hev; exact Hcalls).
  destruct o as [u | e]; unfold Log.returned, Log.calls;
    cbn -[Log.thrown Log.boardsAnswering combine]; rewrite Hev, Hloc;
    destruct Hout as [Ht _]; rewrite Ht; cbn -[Log.boardsAnswering combine];
    rewrite ?app_nil_r.
  - split; [exact Hevs|]. split; [reflexivity|]. left. exact Hshape.
  - split; [exact Hevs|]. split; [reflexivity|]. right.
    destruct Hshape as (answers & Houts & Hlen). eauto.
Qed.

End CheckPriorityPass.

(** X7.  When priority labelling is on, boards are linked, the label is one
    of the three configured names and no call throws, the priority use case
    calls [setTaskPriority] once for every linked board, in order, each
    time with the owner, repository, number and token of the Execution and
    with the token P0, P1 or P2; it returns one Result per board whose call
    returned [true], in board order, and nothing for the others. *)
Theorem check_priority_pass :
  forall (W : Type) (PR : ProjectRepository W) (taskId : string)
         (numberOf : Execution -> Z) (param : Execution) (w : W)
         (priorityLabel : string),
    priorityLabelOnIssueProcessable (labels param) = true ->
    projects param <> [] ->
    CheckPriority.priorityToken (labels param) = Some priorityLabel ->
    Log.thrown (Log.calls (CheckPriority.invoke taskId numberOf param w)) = [] ->
    (priorityLabel = "P0" \/ priorityLabel = "P1" \/ priorityLabel = "P2")
    /\ exists answers : list bool,
         length answers = length (projects param)
         /\ Log.calls (CheckPriority.invoke taskId numberOf param w)
            = map (fun po => EvSetTaskPriority (fst po) (exec_owner param)
                               (exec_repo param) (numberOf param) priorityLabel
                               (token param) (snd po))
                (combine (projects param) (map Ok answers))
         /\ Log.returned (CheckPriority.invoke taskId numberOf param w)
            = Ok (map (CheckPriority.prioritySet taskId priorityLabel)
                    (Log.boardsAnswering true
                       (Log.calls (CheckPriority.invoke taskId numberOf param w)))).
Proof.
  intros W PR taskId numberOf param w priorityLabel Hproc Hboards Htoken Hquiet.
  split.
  { unfold CheckPriority.priorityToken in Htoken.
    destruct (String.eqb _ (priorityHigh _)); [injection Htoken as <-; auto|].
    destruct (String.eqb _ (priorityMedium _)); [injection Htoken as <-; auto|].
    destruct (String.eqb _ (priorityLow _)); [injection Htoken as <-; auto|].
    discriminate. }
  destruct (check_priority_pass_run taskId numberOf param w priorityLabel
              Hproc Hboards Htoken)
    as (outs & Hcalls & Hret & [(answers & -> & Hlen)
                               | (answers & e & -> & Hlen)]).
  - exists answers. split; [exact Hlen|]. split; [exact Hcalls|].
    rewrite Hret, Hquiet. cbn [map]. now rewrite app_nil_r.
  - rewrite Hcalls in Hquiet.
    rewrite (board_log_throwing
               (fun p out => EvSetTaskPriority p (exec_owner param)
                               (exec_repo param) (numberOf param) priorityLabel
                               (token param) out)) in Hquiet;
      [discriminate Hquiet | reflexivity | exact Hlen].
Qed.

Lemma check_priority_pass_witness :
  ("P1" = "P0" \/ "P1" = "P1" \/ "P1" = "P2")
  /\ exists answers : list bool,
       length answers = 2%nat
       /\ Log.calls
            (CheckPriorityPullRequestSizeUseCase_invoke
               (PR := Mock.boardRepository [Ok false; Ok true])
               (Mock.execution "P1" true [Mock.board "A" 1; Mock.board "B" 2])
               0%nat)
          = map (fun po => EvSetTaskPriority (fst po) "o" "r" 2 "P1" "t" (snd po))
              (combine [Mock.board "A" 1; Mock.board "B" 2] (map Ok answers))
       /\ Log.returned
            (CheckPriorityPullRequestSizeUseCase_invoke
               (PR := Mock.boardRepository [Ok false; Ok true])
               (Mock.execution "P1" true [Mock.board "A" 1; Mock.board "B" 2])
               0%nat)
          = Ok (map (CheckPriority.prioritySet
                       "CheckPriorityPullRequestSizeUseCase" "P1")
                  (Log.boardsAnswering true
                     (Log.calls
                        (CheckPriorityPullRequestSizeUseCase_invoke
                           (PR := Mock.boardRepository [Ok false; Ok true])
                           (Mock.execution "P1" true
                              [Mock.board "A" 1; Mock.board "B" 2])
                           0%nat)))).
Proof.
  apply (check_priority_pass Mock.World
           (Mock.boardRepository [Ok false; Ok true])
           "CheckPriorityPullRequestSizeUseCase" pullRequestNumber
           (Mock.execution "P1" true [Mock.board "A" 1; Mock.board "B" 2])
           0%nat "P1").
  - reflexivity.
  - discriminate.
  - reflexivity.
  - reflexivity.
Defined.

(** X8.  The priority use case can return an empty array.  Once past its
    guards (labelling on, boards linked, a configured label) it returns no
    Result at all exactly when every board's call returned [false]. *)
Theorem check_priority_empty_array :
  forall (W : Type) (PR : ProjectRepository W) (taskId : string)
         (numberOf : Execution -> Z) (param : Execution) (w : W)
         (priorityLabel : string),
    priorityLabelOnIssueProcessable (labels param) = true ->
    projects param <> [] ->
    CheckPriority.priorityToken (labels param) = Some priorityLabel ->
    Log.returned (CheckPriority.invoke taskId numberOf param w) = Ok []
    <-> Log.calls (CheckPriority.invoke taskId numberOf param w)
        = map (fun p => EvSetTaskPriority p (exec_owner param) (exec_repo param)
                          (numberOf param) priorityLabel (token param) (Ok false))
            (projects param).
Proof.
  intros W PR taskId numberOf param w priorityLabel Hproc Hboards Htoken.
  destruct (check_priority_pass_run taskId numberOf param w priorityLabel
              Hproc Hboards Htoken) as (outs & Hcalls & Hret & Hshape).
  assert (mk_answer : forall b p out,
             Log.boardsAnswering b
               [EvSetTaskPriority p (exec_owner param) (exec_repo param)
                  (numberOf param) priorityLabel (token param) out]
             = match out with
               | Ok b' => if Bool.eqb b b' then [p] else []
               | Throw _ => []
               end).
  { intros b p [b'|e]; cbn; [destruct (Bool.eqb b b')|]; reflexivity. }
  rewrite Hret. split.
  - intros H. injection H as H. apply app_eq_nil in H as [Htrue Hthrown].
    apply map_eq_nil in Htrue. apply map_eq_nil in Hthrown.
    destruct Hshape as [(answers & -> & Hlen) | (answers & e & -> & Hlen)].
    + rewrite Hcalls in *.
      exact (board_log_all_false
               (fun p out => EvSetTaskPriority p (exec_owner param)
                               (exec_repo param) (numberOf param) priorityLabel
                               (token param) out)
               mk_answer _ _ Hlen Htrue).
    + rewrite Hcalls in Hthrown.
      rewrite (board_log_throwing
                 (fun p out => EvSetTaskPriority p (exec_owner param)
                                 (exec_repo param) (numberOf param)
                                 priorityLabel (token param) out))
        in Hthrown; [discriminate Hthrown | reflexivity | exact Hlen].
  - intros H. rewrite H.
    destruct (board_log_false_quiet
                (fun p out => EvSetTaskPriority p (exec_owner param)
                                (exec_repo param) (numberOf param)
                                priorityLabel (token param) out)
                (fun p out => eq_refl) mk_answer (projects param))
      as [Ha Hb].
    cbv beta in Ha, Hb. rewrite Ha, Hb. reflexivity.
Qed.

Lemma check_priority_empty_array_witness :
  Log.returned
    (CheckPriorityPullRequestSizeUseCase_invoke
       (PR := Mock.boardRepository [])
       (Mock.execution "P2" true [Mock.board "A" 1; Mock.board "B" 2]) 0%nat)
  = Ok []
  <-> Log.calls
        (CheckPriorityPullRequestSizeUseCase_invoke
           (PR := Mock.boardRepository [])
           (Mock.execution "P2" true [Mock.board "A" 1; Mock.board "B" 2])
           0%nat)
      = map (fun p => EvSetTaskPriority p "o" "r" 2 "P2" "t" (Ok false))
          [Mock.board "A" 1; Mock.board "B" 2].
Proof.
  apply (check_priority_empty_array Mock.World (Mock.boardRepository [])
           "CheckPriorityPullRequestSizeUseCase" pullRequestNumber
           (Mock.execution "P2" true [Mock.board "A" 1; Mock.board "B" 2])
           0%nat "P2").
  - reflexivity.
  - discriminate.
  - reflexivity.
Defined.

(** X9.  A throwing priority call ends the pass: the boards before it have
    been called, in order, and have all returned; the boards after it are
    never called. *)
Theorem check_priority_throw_stops :
  forall (W : Type) (PR : ProjectRepository W) (taskId : string)
         (numberOf : Execution -> Z) (param : Execution) (w : W)
         (e : Js.Thrown),
    In e (Log.thrown (Log.calls (CheckPriority.invoke taskId numberOf param w))) ->
    exists (priorityLabel : string) (answers : list bool),
      CheckPriority.priorityToken (labels param) = Some priorityLabel
      /\ (length answers < length (projects param))%nat
      /\ Log.calls (CheckPriority.invoke taskId numberOf param w)
         = map (fun po => EvSetTaskPriority (fst po) (exec_owner param)
                            (exec_repo param) (numberOf param) priorityLabel
                            (token param) (snd po))
             (combine (projects param) (map Ok answers ++ [Throw e]))
      /\ length (Log.calls (CheckPriority.invoke taskId numberOf param w))
         = S (length answers).
Proof.
  intros W PR taskId numberOf param w e Hin.
  destruct (priorityLabelOnIssueProcessable (labels param)) eqn:Hproc.
  2: { rewrite (invoke_of_skipped taskId numberOf param w) in Hin;
         [destruct Hin | apply tryBlock_gate; now left]. }
  destruct (projects param) as [|p0 ps0] eqn:Hps.
  { rewrite (invoke_of_skipped taskId numberOf param w) in Hin;
      [destruct Hin | apply tryBlock_gate; now right]. }
  destruct (CheckPriority.priorityToken (labels param)) as [priorityLabel|]
    eqn:Htoken.
  2: { rewrite (invoke_of_skipped taskId numberOf param w) in Hin;
         [destruct Hin | now apply tryBlock_token]. }
  assert (Hboards : projects param <> []) by (rewrite Hps; discriminate).
  destruct (check_priority_pass_run taskId numberOf param w priorityLabel
              Hproc Hboards Htoken)
    as (outs & Hcalls & _ & [(answers & -> & Hlen)
                            | (answers & e' & -> & Hlen)]);
    rewrite Hcalls in Hin; rewrite Hps in *.
  - rewrite (board_log_returning
               (fun p out => EvSetTaskPriority p (exec_owner param)
                               (exec_repo param) (numberOf param) priorityLabel
                               (token param) out)) in Hin;
      [destruct Hin | reflexivity].
  - rewrite (board_log_throwing
               (fun p out => EvSetTaskPriority p (exec_owner param)
                               (exec_repo param) (numberOf param) priorityLabel
                               (token param) out)) in Hin;
      [|reflexivity | exact Hlen].
    destruct Hin as [-> | []].
    exists priorityLabel, answers.
    split; [reflexivity|]. split; [exact Hlen|]. split; [exact Hcalls|].
    rewrite Hcalls, length_map, length_combine, length_app, length_map.
    cbn [length] in *. lia.
Qed.

Lemma check_priority_throw_stops_witness :
  exists (priorityLabel : string) (answers : list bool),
    CheckPriority.priorityToken (labels (Mock.execution "P0" true
       [Mock.board "A" 1; Mock.board "B" 2; Mock.board "C" 3]))
    = Some priorityLabel
    /\ (length answers < 3)%nat
    /\ Log.calls
         (CheckPriorityPullRequestSizeUseCase_invoke
            (PR := Mock.boardRepository [Ok true; Throw Mock.apiError])
            (Mock.execution "P0" true
               [Mock.board "A" 1; Mock.board "B" 2; Mock.board "C" 3]) 0%nat)
       = map (fun po => EvSetTaskPriority (fst po) "o" "r" 2 priorityLabel "t"
                          (snd po))
           (combine [Mock.board "A" 1; Mock.board "B" 2; Mock.board "C" 3]
              (map Ok answers ++ [Throw Mock.apiError]))
    /\ length
         (Log.calls
            (CheckPriorityPullRequestSizeUseCase_invoke
               (PR := Mock.boardRepository [Ok true; Throw Mock.apiError])
               (Mock.execution "P0" true
                  [Mock.board "A" 1; Mock.board "B" 2; Mock.board "C" 3])
               0%nat))
       = S (length answers).
Proof.
  apply (check_priority_throw_stops Mock.World
           (Mock.boardRepository [Ok true; Throw Mock.apiError])
           "CheckPriorityPullRequestSizeUseCase" pullRequestNumber
           (Mock.execution "P0" true
              [Mock.board "A" 1; Mock.board "B" 2; Mock.board "C" 3])
           0%nat Mock.apiError).
  vm_compute. left. reflexivity.
Defined.

Section MoveIssueCalls.

Context {W : Type} {PR : ProjectRepository W}.

Lemma move_issue_forProjects_calls (param : Execution) (columnName : string) :
  forall (ps : list ProjectDetail) (st st' : Eff.St W (list Result))
         (o : outcome unit),
    MoveIssueToInProgress.forProjects param columnName ps st = (o, st') ->
    exists outs : list (outcome bool),
      Eff.events st'
      = (Eff.events st
           ++ map (fun po => EvMoveIssueToColumn (fst po) (exec_owner param)
                               (exec_repo param) (issueNumber param) columnName
                               (token param) (snd po))
                (combine ps outs))%list
      /\ match o with
         | Ok _ => exists answers : list bool,
                     outs = map Ok answers /\ length answers = length ps
         | Throw e => exists answers : list bool,
                        outs = (map Ok answers ++ [Throw e])%list
                        /\ (length answers < length ps)%nat
         end.
Proof.
  induction ps as [|project rest IH]; intros st st' o Hrun.
  - inversion Hrun; subst. exists []. rewrite app_nil_r. split; [reflexivity|].
    exists []. split; reflexivity.
  - cbn [MoveIssueToInProgress.forProjects] in Hrun.
    unfold Eff.bind, MoveIssueToInProgress.callMoveIssueToColumn, Eff.perform
      in Hrun.
    destruct (moveIssueToColumn project (exec_owner param) (exec_repo param)
                (issueNumber param) columnName (token param) (Eff.remote st))
      as [[ok | e] w1].
    + assert (Hnext : exists st1 : Eff.St W (list Result),
                MoveIssueToInProgress.forProjects param columnName rest st1
                = (o, st')
                /\ Eff.events st1
                   = (Eff.events st
                        ++ [EvMoveIssueToColumn project (exec_owner param)
                              (exec_repo param) (issueNumber param) columnName
                              (token param) (Ok ok)])%list).
      { destruct ok; cbn in Hrun; eexists; (split; [exact Hrun | reflexivity]). }
      destruct Hnext as (st1 & Hrest & Hev1).
      apply IH in Hrest. destruct Hrest as (outs & Hev & Hout).
      exists (Ok ok :: outs). split.
      * rewrite Hev, Hev1, <- app_assoc. reflexivity.
      * destruct o as [u | e];
          destruct Hout as (answers & -> & Hlen); exists (ok :: answers);
          (split; [reflexivity | cbn; lia]).
    + injection Hrun as <- <-. cbn. exists [Throw e]. split.
      * cbn. rewrite combine_nil. reflexivity.
      * exists []. split; [reflexivity | cbn; lia].
Qed.

End MoveIssueCalls.

(** X10.  A throwing move call ends [MoveIssueToInProgressUseCase.invoke]:
    the boards before it have been called in order, with the owner,
    repository, issue number, column and token of the Execution, and have
    all returned; the boards after it are never called.  The array returned
    ends with the one failure Result (success false, executed true), whose
    step names the column and contains the word "problem" and whose error
    is the string form of what was thrown; before it come the Results of
    the boards that had answered [true]. *)
Theorem move_issue_throw_stops :
  forall (W : Type) (PR : ProjectRepository W) (param : Execution) (w : W)
         (e : Js.Thrown),
    In e (Log.thrown (Log.calls (MoveIssueToInProgress.invoke param w))) ->
    exists (answers : list bool) (step : string),
      (length answers < length (projects param))%nat
      /\ Log.calls (MoveIssueToInProgress.invoke param w)
         = map (fun po => EvMoveIssueToColumn (fst po) (exec_owner param)
                            (exec_repo param) (issueNumber param)
                            (columnInProgress param) (token param) (snd po))
             (combine (projects param) (map Ok answers ++ [Throw e]))
      /\ Log.returned (MoveIssueToInProgress.invoke param w)
         = Ok (map (MoveIssueToInProgress.moved (columnInProgress param))
                 (Log.boardsAnswering true
                    (Log.calls (MoveIssueToInProgress.invoke param w)))
               ++ [{| result_id := "MoveIssueToInProgressUseCase";
                      success := false; executed := true;
                      steps := Some [step];
                      errors := Some [Js.nullish (Js.optToString e)
                                        "Unknown error"] |}])%list
      /\ Js.includes step (columnInProgress param) = true
      /\ Js.includes step "problem" = true.
Proof.
  intros W PR param w e.
  unfold MoveIssueToInProgress.invoke, MoveIssueToInProgress.program,
    Eff.run, Eff.bind, Eff.tryCatch.
  destruct (MoveIssueToInProgress.forProjects param (columnInProgress param)
              (projects param) (Eff.mkSt w [] [])) as [o st'] eqn:Hrun.
  pose proof (move_issue_forProjects param _ _ _ _ _ Hrun)
    as (evs & Hev & Hloc & _ & Hout).
  pose proof (move_issue_forProjects_calls param _ _ _ _ _ Hrun)
    as (outs & Hcalls & Hshape).
  cbn in Hev, Hloc. cbn [Eff.events app] in Hcalls.
  destruct o as [u | e']; unfold Log.returned, Log.calls;
    cbn -[Log.thrown Log.boardsAnswering combine]; rewrite Hev, Hloc;
    destruct Hout as [Ht _]; rewrite Ht; intros Hin; [destruct Hin|].
  destruct Hin as [-> | []].
  destruct Hshape as (answers & -> & Hlen).
  exists answers, ("Tried to move the issue to `" ++ columnInProgress param
                     ++ "`, but there was a problem.")%string.
  split; [exact Hlen|]. split; [rewrite <- Hev; exact Hcalls|].
  split; [reflexivity|]. split.
  - apply includes_append.
  - do 2 apply includes_after. reflexivity.
Qed.

Lemma move_issue_throw_stops_witness :
  exists (answers : list bool) (step : string),
    (length answers < 3)%nat
    /\ Log.calls
         (MoveIssueToInProgress.invoke
            (PR := Mock.boardRepository [Ok true; Throw Mock.apiError])
            (Mock.execution "P0" true
               [Mock.board "A" 1; Mock.board "B" 2; Mock.board "C" 3]) 0%nat)
       = map (fun po => EvMoveIssueToColumn (fst po) "o" "r" 1 "In Progress"
                          "t" (snd po))
           (combine [Mock.board "A" 1; Mock.board "B" 2; Mock.board "C" 3]
              (map Ok answers ++ [Throw Mock.apiError]))
    /\ Log.returned
         (MoveIssueToInProgress.invoke
            (PR := Mock.boardRepository [Ok true; Throw Mock.apiError])
            (Mock.execution "P0" true
               [Mock.board "A" 1; Mock.board "B" 2; Mock.board "C" 3]) 0%nat)
       = Ok (map (MoveIssueToInProgress.moved "In Progress")
               (Log.boardsAnswering true
                  (Log.calls
                     (MoveIssueToInProgress.invoke
                        (PR := Mock.boardRepository [Ok true; Throw Mock.apiError])
                        (Mock.execution "P0" true
                           [Mock.board "A" 1; Mock.board "B" 2;
                            Mock.board "C" 3]) 0%nat)))
             ++ [{| result_id := "MoveIssueToInProgressUseCase";
                    success := false; executed := true;
                    steps := Some [step];
                    errors := Some ["Error: API error"] |}])%list
    /\ Js.includes step "In Progress" = true
    /\ Js.includes step "problem" = true.
Proof.
  apply (move_issue_throw_stops Mock.World
           (Mock.boardRepository [Ok true; Throw Mock.apiError])
           (Mock.execution "P0" true
              [Mock.board "A" 1; Mock.board "B" 2; Mock.board "C" 3])
           0%nat Mock.apiError).
  vm_compute. left. reflexivity.
Defined.

(* ================================================================== *)
(** ** More on InitialSetupUseCase *)
(* ================================================================== *)

(** X11.  [InitialSetupUseCase.invoke] contacts GitHub only behind the
    token gate.  If a run makes any call past the gate, its log starts with
    the directories, the copy and a token gate that answered [true], all
    three having returned; the next call is the access check, made with the
    token of the Execution; and the label, progress-label and issue-type
    calls, which are all that can follow, come only after the access check
    has returned a user. *)
Theorem initial_setup_gate_first :
  forall (W : Type) (PR : ProjectRepository W) (SF : SetupFiles W)
         (IR : IssueRepository W) (param : Execution) (w : W),
    existsb Log.isPastTokenGate (Log.calls (InitialSetup.invoke param w)) = true ->
    exists (c : CopyResult) (out : outcome string) (rest : list Event),
      Log.calls (InitialSetup.invoke param w)
      = EvEnsureGitHubDirs (Ok tt) :: EvCopySetupFiles (Ok c)
          :: EvHasValidSetupToken (Ok true)
          :: EvGetUserFromToken (token param) out :: rest
      /\ forallb Log.isReconcileStage rest = true
      /\ (rest = [] \/ exists user : string, out = Ok user).
Proof.
  intros W PR SF IR param w. setup_cases.
  all: intros H; try discriminate H.
  all: repeat match goal with u : unit |- _ => destruct u end.
  all: do 3 eexists; split; [reflexivity|]; split; [reflexivity|]; eauto.
Qed.

Lemma initial_setup_gate_first_witness :
  exists (c : CopyResult) (out : outcome string) (rest : list Event),
    Log.calls
      (InitialSetup.invoke (PR := Mock.accessDenied) (SF := Mock.filesReady)
         (IR := Mock.labelsInPlace) (Mock.execution "P0" true []) 0%nat)
    = EvEnsureGitHubDirs (Ok tt) :: EvCopySetupFiles (Ok c)
        :: EvHasValidSetupToken (Ok true)
        :: EvGetUserFromToken "t" out :: rest
    /\ forallb Log.isReconcileStage rest = true
    /\ (rest = [] \/ exists user : string, out = Ok user).
Proof.
  apply (initial_setup_gate_first Mock.World Mock.accessDenied Mock.filesReady
           Mock.labelsInPlace (Mock.execution "P0" true []) 0%nat).
  reflexivity.
Defined.

(** X12.  Once GitHub access is verified, the steps of the single Result
    are: the setup-files line with the copy counts, the access line with
    the user, and then one line per reconciliation stage that returned
    without errors, in stage order, a stage that reported errors or threw
    leaving no line.  The Result is a success exactly when the three stages
    left no error. *)
Theorem initial_setup_steps :
  forall (W : Type) (PR : ProjectRepository W) (SF : SetupFiles W)
         (IR : IssueRepository W) (param : Execution) (w : W) (user : string),
    In (EvGetUserFromToken (token param) (Ok user))
      (Log.calls (InitialSetup.invoke param w)) ->
    exists (c : CopyResult) (o1 o2 o3 : outcome BatchResult) (r : Result),
      Log.calls (InitialSetup.invoke param w)
      = [ EvEnsureGitHubDirs (Ok tt); EvCopySetupFiles (Ok c);
          EvHasValidSetupToken (Ok true);
          EvGetUserFromToken (token param) (Ok user);
          EvEnsureLabels (exec_owner param) (exec_repo param) (token param) o1;
          EvEnsureProgressLabels (exec_owner param) (exec_repo param)
            (token param) o2;
          EvEnsureIssueTypes (exec_owner param) (token param) o3 ]
      /\ Log.returned (InitialSetup.invoke param w) = Ok [r]
      /\ steps r
         = Some ([SetupLog.filesStep c; SetupLog.accessStep user]
                 ++ SetupLog.stageSteps "✅ Labels checked: " o1
                 ++ SetupLog.stageSteps "✅ Progress labels checked: " o2
                 ++ SetupLog.stageSteps "✅ Issue types checked: " o3)%list
      /\ success r
         = match (Log.stageErrors "Error asegurando labels: " o1
                  ++ Log.stageErrors "Error asegurando progress labels: " o2
                  ++ Log.stageErrors "Error asegurando tipos de Issue: " o3)%list
           with
           | [] => true
           | _ :: _ => false
           end.
Proof.
  intros W PR SF IR param w user. setup_cases.
  all: intros H; cbn in H;
    repeat match goal with
           | H : _ \/ _ |- _ => destruct H
           | H : False |- _ => destruct H
           | H : @eq Event _ _ |- _ => first [discriminate H | injection H as ->]
           | u : unit |- _ => destruct u
           end.
  all: do 5 eexists; split; [reflexivity|]; split; [reflexivity|];
    split; reflexivity.
Qed.

Lemma initial_setup_steps_witness :
  exists (c : CopyResult) (o1 o2 o3 : outcome BatchResult) (r : Result),
    Log.calls
      (InitialSetup.invoke (PR := Mock.boardRepository [])
         (SF := Mock.filesReady) (IR := Mock.labelsFailing)
         (Mock.execution "P0" true []) 0%nat)
    = [ EvEnsureGitHubDirs (Ok tt); EvCopySetupFiles (Ok c);
        EvHasValidSetupToken (Ok true);
        EvGetUserFromToken "t" (Ok "octocat");
        EvEnsureLabels "o" "r" "t" o1;
        EvEnsureProgressLabels "o" "r" "t" o2;
        EvEnsureIssueTypes "o" "t" o3 ]
    /\ Log.returned
         (InitialSetup.invoke (PR := Mock.boardRepository [])
            (SF := Mock.filesReady) (IR := Mock.labelsFailing)
            (Mock.execution "P0" true []) 0%nat)
       = Ok [r]
    /\ steps r
       = Some ([SetupLog.filesStep c; SetupLog.accessStep "octocat"]
               ++ SetupLog.stageSteps "✅ Labels checked: " o1
               ++ SetupLog.stageSteps "✅ Progress labels checked: " o2
               ++ SetupLog.stageSteps "✅ Issue types checked: " o3)%list
    /\ success r
       = match (Log.stageErrors "Error asegurando labels: " o1
                ++ Log.stageErrors "Error asegurando progress labels: " o2
                ++ Log.stageErrors "Error asegurando tipos de Issue: " o3)%list
         with
         | [] => true
         | _ :: _ => false
         end.
Proof.
  apply (initial_setup_steps Mock.World (Mock.boardRepository [])
           Mock.filesReady Mock.labelsFailing (Mock.execution "P0" true [])
           0%nat "octocat").
  vm_compute. tauto.
Defined.

(* ================================================================== *)
(** ** The setup files on the file system *)
(* ================================================================== *)

Lemma copiesGuarded_quiet (root : Fs.Path) (log : list Fs.FsEvent) :
  existsb Fs.isCopy log = false -> Fs.copiesGuarded root log.
Proof.
  intros Hquiet before after src dst out ->.
  rewrite existsb_app in Hquiet. cbn in Hquiet.
  rewrite orb_true_r in Hquiet. discriminate Hquiet.
Qed.

Lemma copiesGuarded_app (root : Fs.Path) (l1 l2 : list Fs.FsEvent) :
  Fs.copiesGuarded root l1 -> Fs.copiesGuarded root l2 ->
  Fs.copiesGuarded root (l1 ++ l2).
Proof.
  intros H1 H2 before after src dst out Heq.
  apply app_eq_app in Heq as [l [[Ha Hb] | [Ha Hb]]].
  - destruct l as [|ev l'].
    + cbn in Hb. symmetry in Hb.
      destruct (H2 [] after src dst out Hb) as [_ [earlier He]].
      now destruct earlier.
    + cbn in Hb. injection Hb as <- ->. apply (H1 before l' src dst out).
      exact Ha.
  - destruct (H2 l after src dst out Hb) as [Hunder [earlier ->]].
    split; [exact Hunder|]. exists (l1 ++ earlier)%list.
    now rewrite Ha, app_assoc.
Qed.

Lemma copiesGuarded_copy (root src dst : Fs.Path) (out : outcome unit) :
  Fs.isUnder root dst = true ->
  Fs.copiesGuarded root [Fs.FsExists dst false; Fs.FsCopyFile src dst out].
Proof.
  intros Hunder before after src' dst' out' Heq.
  destruct before as [|e1 [|e2 before]]; cbn in Heq; try discriminate Heq.
  - injection Heq as <- <- <- <- <-. split; [exact Hunder|]. now exists [].
  - injection Heq as _ _ Heq. destruct before; discriminate Heq.
Qed.

Lemma isUnder_join (root : Fs.Path) (segments : list string) :
  Fs.isUnder root (Fs.join root segments) = true.
Proof.
  unfold Fs.join. induction root as [|x root IH]; cbn; [reflexivity|].
  now rewrite String.eqb_refl, IH.
Qed.

Lemma isUnder_github (cwd : Fs.Path) (segments : list string) :
  Fs.isUnder (Fs.join cwd [".github"])
    (Fs.join cwd (".github" :: segments)) = true.
Proof.
  replace (Fs.join cwd (".github" :: segments))
    with (Fs.join (Fs.join cwd [".github"]) segments)
    by (unfold Fs.join; now rewrite <- app_assoc).
  apply isUnder_join.
Qed.

Lemma isUnder_github_file (cwd : Fs.Path) (segments : list string) (f : string) :
  Fs.isUnder (Fs.join cwd [".github"])
    (Fs.join (Fs.join cwd (".github" :: segments)) [f]) = true.
Proof.
  replace (Fs.join (Fs.join cwd (".github" :: segments)) [f])
    with (Fs.join cwd (".github" :: segments ++ [f]))
    by (unfold Fs.join; now rewrite <- app_assoc).
  apply isUnder_github.
Qed.

Section FsRuns.

Context {W : Type} {FS : Fs.FileSystem W}.

Lemma appends_ret {A : Type} (a : A) :
  Fs.appends (W := W) (Eff.ret a) (fun segment o => segment = [] /\ o = Ok a).
Proof.
  intros st st' o H. injection H as <- <-. exists [].
  rewrite app_nil_r. auto.
Qed.

Lemma appends_call {A : Type} (h : W -> outcome A * W)
    (log : outcome A -> Fs.FsEvent) :
  Fs.appends (Fs.call h log) (fun segment o => segment = [log o]).
Proof.
  intros st st' o H. unfold Fs.call in H.
  destruct (h (Eff.remote st)) as [o1 w1]. injection H as <- <-.
  eexists. cbn. auto.
Qed.

Lemma appends_exists (p : Fs.Path) :
  Fs.appends (Fs.exists_ p)
    (fun segment o => exists b : bool, o = Ok b /\ segment = [Fs.FsExists p b]).
Proof.
  intros st st' o H. unfold Fs.exists_ in H.
  destruct (Fs.existsSync p (Eff.remote st)) as [b w1]. injection H as <- <-.
  eexists. cbn. eauto.
Qed.

Lemma appends_weaken {A : Type} (m : Fs.Prog (W := W) A)
    (P Q : list Fs.FsEvent -> outcome A -> Prop) :
  Fs.appends m P -> (forall segment o, P segment o -> Q segment o) ->
  Fs.appends m Q.
Proof.
  intros Hm HPQ st st' o H. destruct (Hm st st' o H) as (seg & ? & ? & ?).
  exists seg. auto.
Qed.

(** Sequencing: the segments follow one another; a throw of the first part
    ends the whole. *)
Lemma appends_bind {A B : Type} (m : Fs.Prog (W := W) A) (k : A -> Fs.Prog B)
    (P : list Fs.FsEvent -> outcome A -> Prop)
    (Q : A -> list Fs.FsEvent -> outcome B -> Prop)
    (R : list Fs.FsEvent -> outcome B -> Prop) :
  Fs.appends m P ->
  (forall a, Fs.appends (k a) (Q a)) ->
  (forall s1 s2 a o, P s1 (Ok a) -> Q a s2 o -> R (s1 ++ s2)%list o) ->
  (forall s1 e, P s1 (Throw e) -> R s1 (Throw e)) ->
  Fs.appends (Eff.bind m k) R.
Proof.
  intros Hm Hk Hok Hthrow st st' o H. unfold Eff.bind in H.
  destruct (m st) as [[a | e] st1] eqn:Hrun.
  - destruct (Hm _ _ _ Hrun) as (s1 & Hl1 & He1 & HP).
    destruct (Hk a _ _ _ H) as (s2 & Hl2 & He2 & HQ).
    exists (s1 ++ s2)%list. rewrite Hl2, Hl1, He2, He1, app_assoc. eauto.
  - injection H as <- <-.
    destruct (Hm _ _ _ Hrun) as (s1 & Hl1 & He1 & HP).
    exists s1. eauto.
Qed.

Lemma copySafe_read (root : Fs.Path) (acc : CopyResult)
    (segment : list Fs.FsEvent) :
  existsb Fs.isWrite segment = false ->
  Fs.copySafe root acc segment (Ok acc)
  /\ forall e, Fs.copySafe root acc segment (Throw e).
Proof.
  intros H.
  assert (Hc : existsb Fs.isCopy segment = false /\
               existsb Fs.isMkdir segment = false).
  { induction segment as [|ev l IH]; [auto|]. cbn in H.
    apply orb_false_iff in H as [Hev Hl]. apply orb_false_iff in Hev as [? ?].
    destruct (IH Hl). cbn. split; apply orb_false_iff; auto. }
  destruct Hc as [Hcopy Hmk].
  assert (Hn : filter Fs.isCopy segment = []).
  { clear -Hcopy. induction segment as [|ev l IH]; [reflexivity|].
    cbn in *. apply orb_false_iff in Hcopy as [-> Hl]. auto. }
  split; [|intros e]; (split; [now apply copiesGuarded_quiet|]);
    (split; [exact Hmk|]); [|exact I].
  rewrite Hn. cbn. split; lia.
Qed.

Lemma copySafe_seq (root : Fs.Path) (acc acc1 : CopyResult)
    (s1 s2 : list Fs.FsEvent) (o : outcome CopyResult) :
  Fs.copySafe root acc s1 (Ok acc1) -> Fs.copySafe root acc1 s2 o ->
  Fs.copySafe root acc (s1 ++ s2) o.
Proof.
  intros (G1 & M1 & C1 & S1) (G2 & M2 & Ho).
  split; [now apply copiesGuarded_app|]. split.
  - rewrite existsb_app, M1, M2. reflexivity.
  - destruct o as [acc2|e]; [|exact I]. destruct Ho as [C2 S2].
    rewrite filter_app, length_app. split; lia.
Qed.

Lemma copyIfAbsent_safe (root src dst : Fs.Path) (acc : CopyResult) :
  Fs.isUnder root dst = true ->
  Fs.appends (Fs.copyIfAbsent src dst acc) (Fs.copySafe root acc).
Proof.
  intros Hunder st st' o H.
  unfold Fs.copyIfAbsent, Eff.bind, Fs.exists_, Fs.call, Eff.ret in H.
  destruct (Fs.existsSync dst (Eff.remote st)) as [[|] w1]; cbn in H.
  - injection H as <- <-. exists [Fs.FsExists dst true]. cbn.
    split; [reflexivity|]. split; [reflexivity|].
    split; [now apply copiesGuarded_quiet|]. split; [reflexivity|].
    cbn. split; lia.
  - destruct (Fs.copyFileSync src dst w1) as [[u|e] w2]; injection H as <- <-;
      eexists; cbn; rewrite <- app_assoc; (split; [reflexivity|]);
      (split; [reflexivity|]);
      (split; [now apply copiesGuarded_copy|]);
      (split; [reflexivity|]); cbn; [split; lia | exact I].
Qed.

Lemma copyEach_safe (root srcDir dstDir : Fs.Path) :
  (forall f, Fs.isUnder root (Fs.join dstDir [f]) = true) ->
  forall (files : list string) (acc : CopyResult),
    Fs.appends (Fs.copyEach srcDir dstDir files acc) (Fs.copySafe root acc).
Proof.
  intros Hunder. induction files as [|f rest IH]; intros acc;
    cbn [Fs.copyEach].
  - eapply appends_weaken; [apply appends_ret|].
    intros seg o [-> ->]. now apply copySafe_read.
  - eapply appends_bind;
      [apply (copyIfAbsent_safe root), Hunder | intros acc1; apply IH | |].
    + intros s1 s2 acc1 o. apply copySafe_seq.
    + intros s1 e H. exact H.
Qed.

Lemma copyWorkflows_safe (root srcDir dstDir : Fs.Path) :
  (forall f, Fs.isUnder root (Fs.join dstDir [f]) = true) ->
  forall (files : list string) (acc : CopyResult),
    Fs.appends (Fs.copyWorkflows srcDir dstDir files acc) (Fs.copySafe root acc).
Proof.
  intros Hunder. induction files as [|f rest IH]; intros acc;
    cbn [Fs.copyWorkflows].
  - eapply appends_weaken; [apply appends_ret|].
    intros seg o [-> ->]. now apply copySafe_read.
  - eapply (appends_bind _ _ _ (fun _ => Fs.copySafe root acc));
      [apply appends_call | | |].
    + intros isFile.
      eapply (appends_bind _ _ (Fs.copySafe root acc)
                (fun acc1 => Fs.copySafe root acc1)).
      * destruct isFile; [apply (copyIfAbsent_safe root), Hunder|].
        eapply appends_weaken; [apply appends_ret|].
        intros seg o [-> ->]. now apply copySafe_read.
      * intros acc1. apply IH.
      * intros s1 s2 acc1 o. apply copySafe_seq.
      * intros s1 e H. exact H.
    + intros s1 s2 isFile o -> H.
      apply (copySafe_seq root acc acc); [|exact H].
      now apply copySafe_read.
    + intros s1 e ->. now apply copySafe_read.
Qed.

Lemma filterFiles_reads (dir : Fs.Path) (names : list string) :
  Fs.appends (Fs.filterFiles dir names) Fs.readOnly.
Proof.
  induction names as [|f rest IH]; cbn [Fs.filterFiles].
  - eapply appends_weaken; [apply appends_ret|]. now intros seg o [-> ->].
  - eapply (appends_bind _ _ _ (fun _ => Fs.readOnly)); [apply appends_call | | |].
    + intros isFile.
      eapply (appends_bind _ _ Fs.readOnly (fun _ => Fs.readOnly));
        [apply IH | | |].
      * intros kept. eapply appends_weaken; [apply appends_ret|].
        now intros seg o [-> ->].
      * intros s1 s2 a o H1 H2. unfold Fs.readOnly in *.
        now rewrite existsb_app, H1, H2.
      * intros s1 e H. exact H.
    + intros s1 s2 a o -> H. exact H.
    + now intros s1 e ->.
Qed.

Lemma getTokenFromEnvFile_reads (p : Fs.Path) :
  Fs.appends (Fs.getTokenFromEnvFile p) Fs.readOnly.
Proof.
  intros st st' o H.
  unfold Fs.getTokenFromEnvFile, Eff.bind, Fs.exists_, Fs.call, Eff.ret in H.
  destruct (Fs.existsSync p (Eff.remote st)) as [[|] w1]; cbn in H.
  2: { injection H as <- <-. eexists. cbn. repeat split. }
  destruct (Fs.statIsFile p w1) as [[[|]|e] w2]; cbn in H.
  2, 3: injection H as <- <-; eexists; cbn; rewrite <- app_assoc;
    repeat split.
  destruct (Fs.readFileSync p w2) as [[c|e] w3]; cbn in H;
    injection H as <- <-; eexists; cbn; rewrite <- !app_assoc; repeat split.
Qed.

Lemma ensureEnvWithToken_reads (env : option string) (cwd : Fs.Path) :
  Fs.appends (Fs.ensureEnvWithToken env cwd) Fs.readOnly.
Proof.
  unfold Fs.ensureEnvWithToken.
  assert (Hfile :
    Fs.appends
      (there <- Fs.exists_ (Fs.join cwd [".env"]) ;;
       if there
       then Fs.getTokenFromEnvFile (Fs.join cwd [".env"]) ;;; Eff.ret tt
       else Eff.ret tt) Fs.readOnly).
  { eapply (appends_bind _ _ _ (fun _ => Fs.readOnly));
      [apply appends_exists | | |].
    - intros [|].
      + eapply (appends_bind _ _ Fs.readOnly (fun _ => Fs.readOnly));
          [apply getTokenFromEnvFile_reads | | |].
        * intros t. eapply appends_weaken; [apply appends_ret|].
          now intros seg o [-> ->].
        * intros s1 s2 a o H1 H2. unfold Fs.readOnly in *.
          now rewrite existsb_app, H1, H2.
        * intros s1 e H. exact H.
      + eapply appends_weaken; [apply appends_ret|]. now intros seg o [-> ->].
    - intros s1 s2 a o (b & _ & ->) H. exact H.
    - intros s1 e (b & H & _). discriminate H. }
  destruct (option_map Js.trim env) as [[|c t]|]; try exact Hfile.
  eapply appends_weaken; [apply appends_ret|]. now intros seg o [-> ->].
Qed.

End FsRuns.

Section FsSetup.

Context {W : Type} {FS : Fs.FileSystem W}.

Lemma appends_exists_reads (p : Fs.Path) :
  Fs.appends (Fs.exists_ p) Fs.readOnly.
Proof.
  eapply appends_weaken; [apply appends_exists|].
  now intros seg o (b & _ & ->).
Qed.

Lemma appends_call_reads {A : Type} (h : W -> outcome A * W)
    (log : outcome A -> Fs.FsEvent) :
  (forall o, Fs.isWrite (log o) = false) ->
  Fs.appends (Fs.call h log) Fs.readOnly.
Proof.
  intros Hlog. eapply appends_weaken; [apply appends_call|].
  intros seg o ->. unfold Fs.readOnly. cbn. now rewrite Hlog.
Qed.

(** A reading piece in front of a copying one. *)
Lemma appends_read_then {A : Type} (m : Fs.Prog (W := W) A)
    (k : A -> Fs.Prog CopyResult) (root : Fs.Path) (acc : CopyResult) :
  Fs.appends m Fs.readOnly ->
  (forall a, Fs.appends (k a) (Fs.copySafe root acc)) ->
  Fs.appends (Eff.bind m k) (Fs.copySafe root acc).
Proof.
  intros Hm Hk.
  eapply (appends_bind _ _ _ (fun _ => Fs.copySafe root acc));
    [exact Hm | exact Hk | |].
  - intros s1 s2 a o H1 H2. apply (copySafe_seq root acc acc); [|exact H2].
    now apply copySafe_read.
  - intros s1 e H1. now apply copySafe_read.
Qed.

(** Two copying pieces, the count of the first handed to the second. *)
Lemma appends_safe_then (m : Fs.Prog (W := W) CopyResult)
    (k : CopyResult -> Fs.Prog CopyResult) (root : Fs.Path) (acc : CopyResult) :
  Fs.appends m (Fs.copySafe root acc) ->
  (forall acc1, Fs.appends (k acc1) (Fs.copySafe root acc1)) ->
  Fs.appends (Eff.bind m k) (Fs.copySafe root acc).
Proof.
  intros Hm Hk.
  eapply (appends_bind _ _ _ (fun acc1 => Fs.copySafe root acc1));
    [exact Hm | exact Hk | |].
  - intros s1 s2 acc1 o. apply copySafe_seq.
  - intros s1 e H. exact H.
Qed.

Lemma appends_ret_safe (root : Fs.Path) (acc : CopyResult) :
  Fs.appends (W := W) (Eff.ret acc) (Fs.copySafe root acc).
Proof.
  eapply appends_weaken; [apply appends_ret|].
  intros seg o [-> ->]. now apply copySafe_read.
Qed.

Lemma copySetupFiles_appends (env : option string) (cwd setupDir : Fs.Path) :
  Fs.appends (Fs.copySetupFiles env cwd setupDir)
    (Fs.copySafe (Fs.join cwd [".github"]) (mkCopyResult 0 0)).
Proof.
  unfold Fs.copySetupFiles.
  apply appends_read_then; [apply appends_exists_reads|].
  intros [|]; cbn [negb]; [|apply appends_ret_safe].
  apply appends_read_then; [apply appends_exists_reads|].
  intros hasWorkflows. apply appends_safe_then.
  { destruct hasWorkflows; [|apply appends_ret_safe].
    apply appends_read_then; [now apply appends_call_reads|].
    intros names. apply copyWorkflows_safe.
    intros f. apply (isUnder_github_file cwd ["workflows"]). }
  intros acc1. apply appends_read_then; [apply appends_exists_reads|].
  intros hasTemplates. apply appends_safe_then.
  { destruct hasTemplates; [|apply appends_ret_safe].
    apply appends_read_then; [now apply appends_call_reads|].
    intros names. apply appends_read_then; [apply filterFiles_reads|].
    intros files. apply copyEach_safe.
    intros f. apply (isUnder_github_file cwd ["ISSUE_TEMPLATE"]). }
  intros acc2. apply appends_read_then; [apply appends_exists_reads|].
  intros hasPrTemplate. apply appends_safe_then.
  { destruct hasPrTemplate; [|apply appends_ret_safe].
    apply copyIfAbsent_safe.
    apply (isUnder_github cwd ["pull_request_template.md"]). }
  intros acc3. apply appends_read_then; [apply ensureEnvWithToken_reads|].
  intros _. apply appends_ret_safe.
Qed.

(** X13. [copySetupFiles] never overwrites: on every file system and in
    every run, whether it returns or throws, each [copyFileSync] goes to a
    destination below [cwd/.github] that the call just before it, an
    [existsSync] of that destination, found missing; the function creates
    no directory; when it returns, [copied] is the number of
    [copyFileSync] calls it made and [skipped] is not negative; and when
    the setup directory does not exist it returns zero counts after that
    one check. *)
Theorem copySetupFiles_never_overwrites :
  forall (env : option string) (cwd setupDir : Fs.Path) (w : W),
    let r := Fs.run (Fs.copySetupFiles env cwd setupDir) w in
    let log := fst (snd r) in
    Fs.copiesGuarded (Fs.join cwd [".github"]) log
    /\ existsb Fs.isMkdir log = false
    /\ match fst r with
       | Ok counts =>
           copied counts = Z.of_nat (length (filter Fs.isCopy log))
           /\ (0 <= skipped counts)%Z
       | Throw _ => True
       end
    /\ (if fst (Fs.existsSync setupDir w) then True
        else r = (Ok (mkCopyResult 0 0),
                  ([Fs.FsExists setupDir false],
                   snd (Fs.existsSync setupDir w)))).
Proof.
  intros env cwd setupDir w r log. subst log r. unfold Fs.run.
  destruct (Fs.copySetupFiles env cwd setupDir (Eff.mkSt w [] []))
    as [o st] eqn:Hrun.
  destruct (copySetupFiles_appends env cwd setupDir _ _ _ Hrun)
    as (seg & Hlog & _ & Hguard & Hmk & Ho).
  cbn [Eff.locals app] in Hlog. cbn [fst snd]. rewrite Hlog.
  split; [exact Hguard|]. split; [exact Hmk|]. split.
  - destruct o as [counts|e]; [|exact I]. cbn in Ho. destruct Ho. split; lia.
  - unfold Fs.copySetupFiles, Eff.bind, Fs.exists_ in Hrun. cbn in Hrun.
    destruct (Fs.existsSync setupDir w) as [[|] w1]; [exact I|].
    cbn in Hrun. injection Hrun as <- <-. cbn in Hlog. subst seg. reflexivity.
Qed.

(** X14. [ensureGitHubDirs] checks the three directories once each, in the
    order [.github], [.github/workflows], [.github/ISSUE_TEMPLATE], and
    calls [mkdirSync] only for one that the check just before found
    missing.  A run that returns made exactly these calls; a run that
    throws made them up to the [mkdirSync] that threw, and checked no
    directory after it. *)
Theorem ensureGitHubDirs_creates_missing_only :
  forall (cwd : Fs.Path) (w : W),
    let r := Fs.run (Fs.ensureGitHubDirs cwd) w in
    let log := fst (snd r) in
    let githubDir := Fs.join cwd [".github"] in
    let workflowsDir := Fs.join cwd [".github"; "workflows"] in
    let issueTemplateDir := Fs.join cwd [".github"; "ISSUE_TEMPLATE"] in
    match fst r with
    | Ok _ =>
        exists b1 b2 b3 : bool,
          log = (Fs.ensured githubDir b1 ++ Fs.ensured workflowsDir b2
                 ++ Fs.ensured issueTemplateDir b3)%list
    | Throw e =>
        exists b1 b2 : bool,
          log = [Fs.FsExists githubDir false; Fs.FsMkdir githubDir (Throw e)]
          \/ log = (Fs.ensured githubDir b1
                    ++ [Fs.FsExists workflowsDir false;
                        Fs.FsMkdir workflowsDir (Throw e)])%list
          \/ log = (Fs.ensured githubDir b1 ++ Fs.ensured workflowsDir b2
                    ++ [Fs.FsExists issueTemplateDir false;
                        Fs.FsMkdir issueTemplateDir (Throw e)])%list
    end.
Proof.
  intros cwd w r log g wf it. subst log r.
  unfold Fs.run, Fs.ensureGitHubDirs, Fs.ensureDir, Eff.bind, Fs.exists_,
    Fs.call, Eff.ret. fold g wf it. cbn.
  destruct (Fs.existsSync g w) as [[|] w1]; cbn.
  all: try (destruct (Fs.mkdirSync g w1) as [[[]|e1] w1']; cbn;
            [|exists false, false; left; reflexivity]).
  all: match goal with |- context [Fs.existsSync ?p ?x] =>
         destruct (Fs.existsSync p x) as [[|] w2]; cbn end.
  all: try (match goal with |- context [Fs.mkdirSync ?p ?x] =>
         destruct (Fs.mkdirSync p x) as [[[]|e2] w2']; cbn end;
         [|first [exists true, false; right; left; reflexivity
                 |exists false, false; right; left; reflexivity]]).
  all: match goal with |- context [Fs.existsSync ?p ?x] =>
         destruct (Fs.existsSync p x) as [[|] w3]; cbn end.
  all: try (match goal with |- context [Fs.mkdirSync ?p ?x] =>
         destruct (Fs.mkdirSync p x) as [[[]|e3] w3']; cbn end).
  all: first
    [ exists true, true, true; reflexivity
    | exists true, true, false; reflexivity
    | exists true, false, true; reflexivity
    | exists true, false, false; reflexivity
    | exists false, true, true; reflexivity
    | exists false, true, false; reflexivity
    | exists false, false, true; reflexivity
    | exists false, false, false; reflexivity
    | exists true, true; right; right; reflexivity
    | exists true, false; right; right; reflexivity
    | exists false, true; right; right; reflexivity
    | exists false, false; right; right; reflexivity ].
Qed.

End FsSetup.

Section FsToken.

Context {W : Type} {FS : Fs.FileSystem W}.

Lemma run_bind_ret {A B : Type} (m : Fs.Prog (W := W) A) (g : A -> B) (w : W) :
  Fs.run (Eff.bind m (fun a => Eff.ret (g a))) w
  = (match fst (Fs.run m w) with Ok a => Ok (g a) | Throw e => Throw e end,
     snd (Fs.run m w)).
Proof.
  unfold Fs.run, Eff.bind, Eff.ret.
  destruct (m (Eff.mkSt w [] [])) as [[a|e] st]; reflexivity.
Qed.

(** X15. [getSetupToken] goes to the file system only when it has to: a
    valid token in the environment is returned without a single [fs] call,
    and otherwise the function is [getTokenFromEnvFile] on [cwd/.env]
    followed by the validity check, with the calls, the final state and a
    throw of that read passed on unchanged. *)
Theorem getSetupToken_reads_when_needed :
  forall (env : option string) (cwd : Fs.Path) (w : W),
    let r := Fs.run (Fs.getSetupToken env cwd) w in
    let file := Fs.run (Fs.getTokenFromEnvFile (Fs.join cwd [".env"])) w in
    if SetupToken.hasValidSetupToken env None
    then r = (Ok (option_map Js.trim env), ([], w))
    else r = (match fst file with
              | Ok fromFile => Ok (SetupToken.getSetupToken env fromFile)
              | Throw e => Throw e
              end, snd file).
Proof.
  intros env cwd w r file. subst r file.
  unfold SetupToken.hasValidSetupToken, SetupToken.getSetupToken,
    Fs.getSetupToken.
  destruct env as [e|]; cbn [option_map].
  - destruct (negb (String.eqb (Js.trim e) "")
              && SetupToken.isTokenValueValid (Js.trim e)).
    + reflexivity.
    + apply run_bind_ret.
  - apply run_bind_ret.
Qed.

End FsToken.

(* ================================================================== *)
(** ** The repository named by the remote URL *)
(* ================================================================== *)

Lemma includes_slash_cons (c : ascii) (s : string) :
  Js.includes (String c s) "/" = Ascii.eqb c "/" || Js.includes s "/".
Proof.
  cbn [Js.includes String.prefix].
  destruct (ascii_dec "/" c) as [<- | Hc].
  - now destruct s.
  - replace (Ascii.eqb c "/") with false; [reflexivity|].
    symmetry. apply Ascii.eqb_neq. congruence.
Qed.

Lemma includes_slash_append (x y : string) :
  Js.includes (x ++ y) "/" = Js.includes x "/" || Js.includes y "/".
Proof.
  induction x as [|c x IH].
  - cbn [append]. now destruct y.
  - cbn [append]. rewrite !includes_slash_cons, IH. apply orb_assoc.
Qed.

Lemma untilSlash_run (o x : string) :
  Js.includes o "/" = false ->
  Cli.untilSlash (o ++ String "/" x) = (o, String "/" x).
Proof.
  induction o as [|c o IH]; intros H; [reflexivity|].
  rewrite includes_slash_cons in H. apply orb_false_iff in H as [Hc Ho].
  cbn [append Cli.untilSlash]. now rewrite Hc, (IH Ho).
Qed.

Lemma untilSlash_all (n : string) :
  Js.includes n "/" = false -> Cli.untilSlash n = (n, EmptyString).
Proof.
  induction n as [|c n IH]; intros H; [reflexivity|].
  rewrite includes_slash_cons in H. apply orb_false_iff in H as [Hc Hn].
  cbn [Cli.untilSlash]. now rewrite Hc, (IH Hn).
Qed.

Lemma untilSlash_sound (s run rest : string) :
  Cli.untilSlash s = (run, rest) ->
  Js.includes run "/" = false /\ s = (run ++ rest)%string.
Proof.
  revert run rest. induction s as [|c s IH]; intros run rest H;
    cbn [Cli.untilSlash] in H.
  - injection H as <- <-. auto.
  - destruct (Ascii.eqb c "/") eqn:Hc.
    + injection H as <- <-. auto.
    + destruct (Cli.untilSlash s) as [run' rest']. injection H as <- <-.
      destruct (IH _ _ eq_refl) as [Hrun ->].
      rewrite includes_slash_cons, Hc, Hrun. auto.
Qed.

Lemma matchHere_host (sep : ascii) (o n : string) :
  sep = "/"%char \/ sep = ":"%char ->
  o <> EmptyString -> Js.includes o "/" = false ->
  n <> EmptyString -> Js.includes n "/" = false ->
  Cli.matchHere ("github.com" ++ String sep (o ++ String "/" n)) = Some (o, n).
Proof.
  intros Hsep Ho Hos Hn Hns. unfold Cli.matchHere.
  rewrite prefix_append.
  change (EnvFile.skip 10 ("github.com" ++ String sep (o ++ String "/" n)))
    with (String sep (o ++ String "/" n)).
  cbv iota beta.
  replace (Ascii.eqb sep "/" || Ascii.eqb sep ":") with true
    by (destruct Hsep as [-> | ->]; reflexivity).
  rewrite (untilSlash_run o n Hos), (untilSlash_all n Hns).
  destruct o; [now elim Ho|]. destruct n; [now elim Hn|]. reflexivity.
Qed.

Lemma search_here (s : string) (groups : string * string) :
  Cli.matchHere s = Some groups -> Cli.search s = Some groups.
Proof. intros H. destruct s; cbn [Cli.search]; now rewrite H. Qed.

Lemma search_host (ssh : bool) (o n : string) :
  o <> EmptyString -> Js.includes o "/" = false ->
  n <> EmptyString -> Js.includes n "/" = false ->
  Cli.search ((if ssh then "git@github.com:" else "https://github.com/")
              ++ o ++ String "/" n) = Some (o, n).
Proof.
  intros Ho Hos Hn Hns.
  destruct ssh.
  - change (("git@github.com:" ++ o ++ String "/" n)%string)
      with (String "g" (String "i" (String "t" (String "@"
              ("github.com" ++ String ":" (o ++ String "/" n)))))).
    do 4 (cbn [Cli.search]; rewrite ?prefix_append;
          match goal with
          | |- context [Cli.matchHere (String ?c ?s)] =>
              replace (Cli.matchHere (String c s)) with (@None (string * string))
                by (unfold Cli.matchHere; cbn; reflexivity)
          end).
    apply search_here, matchHere_host; auto.
  - change (("https://github.com/" ++ o ++ String "/" n)%string)
      with (String "h" (String "t" (String "t" (String "p" (String "s"
              (String ":" (String "/" (String "/"
                ("github.com" ++ String "/" (o ++ String "/" n)))))))))).
    do 8 (cbn [Cli.search];
          match goal with
          | |- context [Cli.matchHere (String ?c ?s)] =>
              replace (Cli.matchHere (String c s)) with (@None (string * string))
                by (unfold Cli.matchHere; cbn; reflexivity)
          end).
    apply search_here, matchHere_host; auto.
Qed.

Lemma prefix_git_before_dot (a x : string) :
  String.prefix "git" a = false ->
  String.prefix "git" (a ++ String "." x) = false.
Proof.
  intros H. destruct a as [|c1 a]; [reflexivity|].
  cbn [append String.prefix] in *.
  destruct (ascii_dec "g" c1); [|reflexivity].
  destruct a as [|c2 a]; [reflexivity|]. cbn [append String.prefix] in *.
  destruct (ascii_dec "i" c2); [|reflexivity].
  destruct a as [|c3 a]; [reflexivity|]. cbn [append String.prefix] in *.
  destruct (ascii_dec "t" c3); [|reflexivity].
  destruct a; discriminate H.
Qed.

Lemma removeFirst_dot_git (a b : string) :
  Js.includes a ".git" = false ->
  Cli.removeFirst ".git" (a ++ ".git" ++ b) = (a ++ b)%string.
Proof.
  induction a as [|c a IH]; intros H.
  - change ("" ++ ".git" ++ b)%string
      with (String "." ("git" ++ b))%string.
    cbn [Cli.removeFirst].
    change (String "." ("git" ++ b))%string with (".git" ++ b)%string.
    now rewrite prefix_append.
  - cbn [Js.includes] in H. apply orb_false_iff in H as [Hhere Hlater].
    change (String c a ++ ".git" ++ b)%string
      with (String c (a ++ ".git" ++ b)).
    cbn [Cli.removeFirst].
    replace (String.prefix ".git" (String c (a ++ ".git" ++ b))) with false.
    + rewrite (IH Hlater). reflexivity.
    + symmetry. cbn [String.prefix] in *.
      destruct (ascii_dec "." c); [|reflexivity].
      now apply (prefix_git_before_dot a ("git" ++ b)).
Qed.

Lemma removeFirst_absent (pattern n : string) :
  Js.includes n pattern = false -> Cli.removeFirst pattern n = n.
Proof.
  induction n as [|c n IH]; intros H; cbn [Js.includes] in H;
    apply orb_false_iff in H as [Hhere Hlater]; cbn [Cli.removeFirst];
    rewrite Hhere; [reflexivity|].
  now rewrite (IH Hlater).
Qed.

Lemma skip_no_slash (k : nat) (s : string) :
  Js.includes s "/" = false -> Js.includes (EnvFile.skip k s) "/" = false.
Proof.
  revert s. induction k as [|k IH]; intros [|c s] H; try exact H.
  cbn [EnvFile.skip]. apply IH.
  rewrite includes_slash_cons in H. now apply orb_false_iff in H.
Qed.

Lemma removeFirst_no_slash (pattern s : string) :
  Js.includes s "/" = false ->
  Js.includes (Cli.removeFirst pattern s) "/" = false.
Proof.
  induction s as [|c s IH]; intros H; cbn [Cli.removeFirst].
  - destruct (String.prefix pattern ""); [now apply skip_no_slash | exact H].
  - destruct (String.prefix pattern (String c s));
      [now apply skip_no_slash|].
    rewrite includes_slash_cons in *. apply orb_false_iff in H as [-> Hs].
    now rewrite (IH Hs).
Qed.

Lemma matchHere_sound (s owner repo : string) :
  Cli.matchHere s = Some (owner, repo) ->
  owner <> EmptyString /\ Js.includes owner "/" = false
  /\ repo <> EmptyString /\ Js.includes repo "/" = false.
Proof.
  unfold Cli.matchHere. intros H.
  destruct (String.prefix "github.com" s); [|discriminate H].
  destruct (EnvFile.skip 10 s) as [|sep rest]; [discriminate H|].
  destruct (Ascii.eqb sep "/" || Ascii.eqb sep ":"); [|discriminate H].
  destruct (Cli.untilSlash rest) as [[|c o] [|slash after]] eqn:Hfirst;
    try discriminate H.
  destruct (Cli.untilSlash after) as [[|d r] [|? ?]] eqn:Hsecond;
    try discriminate H.
  injection H as <- <-.
  apply untilSlash_sound in Hfirst as [Hfirst _].
  apply untilSlash_sound in Hsecond as [Hsecond _].
  repeat split; try assumption; discriminate.
Qed.

Lemma search_sound (s owner repo : string) :
  Cli.search s = Some (owner, repo) ->
  owner <> EmptyString /\ Js.includes owner "/" = false
  /\ repo <> EmptyString /\ Js.includes repo "/" = false.
Proof.
  induction s as [|c s IH]; cbn [Cli.search]; intros H.
  - destruct (Cli.matchHere "") as [g|] eqn:Hm; [|discriminate H].
    injection H as ->. now apply matchHere_sound in Hm.
  - destruct (Cli.matchHere (String c s)) as [g|] eqn:Hm; [|now apply IH].
    injection H as ->. now apply matchHere_sound in Hm.
Qed.

(** X16. [getGitInfo] on the usual remote URLs, HTTPS or SSH, with white
    space around them: the owner is the path segment after the host, and
    the repository is the last segment, as it is when it holds no [.git]
    and without its first [.git] otherwise, whatever follows that
    [.git]. *)
Theorem getGitInfo_repository :
  forall (ssh : bool) (owner name rest out out' : string),
    let host := if ssh then "git@github.com:" else "https://github.com/" in
    owner <> EmptyString -> Js.includes owner "/" = false ->
    name <> EmptyString -> Js.includes name "/" = false ->
    Js.includes name ".git" = false ->
    Js.includes rest "/" = false ->
    Js.trim out = (host ++ owner ++ "/" ++ name)%string ->
    Js.trim out' = (host ++ owner ++ "/" ++ name ++ ".git" ++ rest)%string ->
    Cli.getGitInfo (Ok out) = Cli.GitRepo owner name
    /\ Cli.getGitInfo (Ok out') = Cli.GitRepo owner (name ++ rest).
Proof.
  intros ssh owner name rest out out' host Ho Hos Hn Hns Hgit Hrs Hout Hout'.
  unfold Cli.getGitInfo. rewrite Hout, Hout'. subst host. split.
  - change (owner ++ "/" ++ name)%string with (owner ++ String "/" name)%string.
    rewrite (search_host ssh owner name Ho Hos Hn Hns).
    now rewrite (removeFirst_absent ".git" name Hgit).
  - change (owner ++ "/" ++ name ++ ".git" ++ rest)%string
      with (owner ++ String "/" (name ++ ".git" ++ rest))%string.
    rewrite (search_host ssh owner (name ++ ".git" ++ rest) Ho Hos).
    + now rewrite (removeFirst_dot_git name rest Hgit).
    + destruct name; [now elim Hn | discriminate].
    + rewrite !includes_slash_append, Hns, Hrs. reflexivity.
Qed.

Lemma getGitInfo_repository_witness :
  Cli.getGitInfo
    (Ok ("https://github.com/vypdev/copilot" ++ String (ascii_of_nat 10) "")%string)
    = Cli.GitRepo "vypdev" "copilot"
  /\ Cli.getGitInfo (Ok "https://github.com/vypdev/copilot.github.io")
    = Cli.GitRepo "vypdev" ("copilot" ++ "hub.io")%string.
Proof.
  apply (getGitInfo_repository false "vypdev" "copilot" "hub.io");
    first [discriminate | reflexivity].
Defined.

(** X17. Whatever the remote URL is, an owner and a repository that
    [getGitInfo] returns hold no slash, and the owner is not empty; a
    failing [git] command gives the error. *)
Theorem getGitInfo_segments :
  forall (remote : outcome string) (owner repo : string),
    Cli.getGitInfo remote = Cli.GitRepo owner repo ->
    owner <> EmptyString
    /\ Js.includes owner "/" = false
    /\ Js.includes repo "/" = false
    /\ exists out : string, remote = Ok out.
Proof.
  intros [out|e] owner repo H; [|discriminate H]. cbn [Cli.getGitInfo] in H.
  destruct (Cli.search (Js.trim out)) as [[o r]|] eqn:Hs; [|discriminate H].
  injection H as <- <-.
  apply search_sound in Hs as (Ho & Hos & _ & Hrs).
  repeat split; try assumption.
  - now apply removeFirst_no_slash.
  - now exists out.
Qed.

Lemma getGitInfo_segments_witness :
  "vypdev"%string <> EmptyString
  /\ Js.includes "vypdev" "/" = false
  /\ Js.includes "copilot" "/" = false
  /\ exists out : string,
       Ok "git@github.com:vypdev/copilot.git"%string = Ok out.
Proof.
  apply (getGitInfo_segments (Ok "git@github.com:vypdev/copilot.git")
           "vypdev" "copilot").
  reflexivity.
Defined.
